(** * Header chain engine of electrum-meowcoin: a shallow embedding

    The definitions below follow [electrum/blockchain.py] and
    [electrum/constants.py] function by function.  Python integers are [Z],
    [bytes] values are lists of [Byte.byte], hex text is [string], a raised
    exception is the [Raise] case of [result]. *)

From Stdlib Require Import ZArith List Bool Lia Ascii String.
From Stdlib.Strings Require Import Byte.
From Stdlib Require Import DecimalString.
From stdpp Require Import gmap strings.
Import ListNotations.
Local Open Scope Z_scope.

(** ** Exceptions and the error monad *)

(** The [InvalidHeader] messages of blockchain.py, one tag per format string. *)
Inductive invalid_reason :=
| EmptyHeader          (* 'Invalid header: {}' *)
| BadHeaderLength      (* 'Invalid header length: {}' *)
| PrevHashMismatch     (* 'prev hash mismatch: %s vs %s' *)
| BitsMismatch         (* 'bits mismatch: %s vs %s' *)
| HashMismatch         (* 'hash mismatches with expected: {} vs {}' *)
| InsufficientPow      (* 'insufficient proof of work: ...' *)
| BitsNotUint32        (* 'bits should be uint32. got ...' *)
| NegativeTarget       (* 'target cannot be negative' *)
| TargetOverflown.     (* 'target has overflown' *)

Inductive exn :=
| InvalidHeader (r : invalid_reason)
| MissingHeader (height : Z)
| NotEnoughHeaders
| KeyError (key : string)
| OverflowError
| OSError
| ValueError
| IndexError
| TypeError
| AttributeError
| AssertionError
| FileNotFoundError
| StructError
| ZeroDivisionError
| RecursionError
| FloatArithmetic
| PlainException (msg : string).

Inductive result (A : Type) :=
| Ok (a : A)
| Raise (e : exn).
Arguments Ok {A} a.
Arguments Raise {A} e.

#[global] Instance result_ret : MRet result := @Ok.
#[global] Instance result_bind : MBind result := fun A B f r =>
  match r with
  | Ok a => f a
  | Raise e => Raise e
  end.

Definition is_ok {A} (r : result A) : bool :=
  match r with Ok _ => true | Raise _ => false end.

Definition is_invalid_header (e : exn) : bool :=
  match e with InvalidHeader _ => true | _ => false end.

(** ** Bytes and integers *)

#[global] Instance byte_eq_decision : EqDecision byte := fun x y =>
  match Byte.eqb x y as b return Byte.eqb x y = b -> Decision (x = y) with
  | true => fun H => left (@Byte.byte_dec_bl x y H)
  | false => fun H => right (@Byte.eqb_false x y H)
  end eq_refl.

Definition byte_to_Z (b : byte) : Z := Z.of_N (Byte.to_N b).

Definition byte_of_Z (z : Z) : byte :=
  match Byte.of_N (Z.to_N (z mod 256)) with
  | Some b => b
  | None => x00
  end.

(** [int.from_bytes(c, byteorder='big')] *)
Definition int_from_bytes_big (c : list byte) : Z :=
  fold_left (fun acc b => acc * 256 + byte_to_Z b) c 0.

(** [int.from_bytes(c, byteorder='little')] *)
Definition int_from_bytes_little (c : list byte) : Z :=
  fold_right (fun b acc => byte_to_Z b + 256 * acc) 0 c.

(** The [length] big-endian bytes of [v], most significant first. *)
Fixpoint be_bytes (length : nat) (v : Z) : list byte :=
  match length with
  | O => []
  | S k => byte_of_Z (v / 256 ^ Z.of_nat k) :: be_bytes k v
  end.

(** [v.to_bytes(length=n, byteorder='big')]: unsigned, [OverflowError] when
    [v] is negative or does not fit. *)
Definition to_bytes_big (v : Z) (n : nat) : result (list byte) :=
  if (v <? 0) || (256 ^ Z.of_nat n <=? v) then Raise OverflowError
  else Ok (be_bytes n v).

(** Python slices [c[a:b]] and [c[a:]] for non-negative bounds. *)
Definition slice {A} (a b : nat) (c : list A) : list A :=
  firstn (b - a) (skipn a c).

(** ** Proof-of-work limits and sizes (blockchain.py, lines 65-75) *)

Definition MAX_TARGET : Z :=
  0x00000fffffffffffffffffffffffffffffffffffffffffffffffffffffffffff.
Definition KAWPOW_LIMIT : Z :=
  0x0000000000ffffffffffffffffffffffffffffffffffffffffffffffffffffff.
Definition MEOWPOW_LIMIT : Z :=
  0x0000000000ffffffffffffffffffffffffffffffffffffffffffffffffffffff.
Definition SCRYPT_LIMIT : Z :=
  0x00000fffffffffffffffffffffffffffffffffffffffffffffffffffffffffff.

Definition HEADER_SIZE : nat := 120.
Definition LEGACY_HEADER_SIZE : nat := 80.

Definition DGW_PASTBLOCKS : Z := 180.
Definition LWMA_AVERAGING_WINDOW : Z := 90.
Definition POW_TARGET_SPACING : Z := 60.

(** ** Target arithmetic (Blockchain.bits_to_target, Blockchain.target_to_bits) *)

Definition bits_to_target (bits : Z) : result Z :=
  if negb ((0 <=? bits) && (bits <? Z.shiftl 1 32)) then
    Raise (InvalidHeader BitsNotUint32)
  else
    let bitsN := Z.land (Z.shiftr bits 24) 0xff in
    let bitsBase := Z.land bits 0x7fffff in
    let target :=
      if bitsN <=? 3 then Z.shiftr bitsBase (8 * (3 - bitsN))
      else Z.shiftl bitsBase (8 * (bitsN - 3)) in
    if negb (target =? 0) && negb (Z.land bits 0x800000 =? 0) then
      Raise (InvalidHeader NegativeTarget)
    else if negb (target =? 0) &&
            ((34 <? bitsN) ||
             ((33 <? bitsN) && (0xff <? bitsBase)) ||
             ((32 <? bitsN) && (0xffff <? bitsBase))) then
      Raise (InvalidHeader TargetOverflown)
    else Ok target.

(** The [while bitsN > 0 and c[0] == 0] loop of [target_to_bits]; [bitsN]
    decreases by one in every round, so the recursion is on [bitsN]. *)
Fixpoint strip_leading_zeros (bitsN : nat) (c : list byte)
  : result (list byte * nat) :=
  match bitsN with
  | O => Ok (c, O)
  | S n =>
      match c with
      | [] => Raise IndexError
      | c0 :: c' =>
          if Byte.eqb c0 x00 then
            let c'' := if (length c' <? 3)%nat then c' ++ [x00] else c' in
            strip_leading_zeros n c''
          else Ok (c, bitsN)
      end
  end.

Definition target_to_bits (target : Z) : result Z :=
  c ← to_bytes_big target 32;
  '(c, bitsN) ← strip_leading_zeros (length c) c;
  let bitsBase := int_from_bytes_big (firstn 3 c) in
  let '(bitsN, bitsBase) :=
    if 0x800000 <=? bitsBase
    then (Z.of_nat bitsN + 1, Z.shiftr bitsBase 8)
    else (Z.of_nat bitsN, bitsBase) in
  Ok (Z.lor (Z.shiftl bitsN 24) bitsBase).


(** ** Hex text (helpers of electrum/util.py and electrum/bitcoin.py) *)

Definition hex_digit (n : Z) : ascii :=
  ascii_of_nat (Z.to_nat (if n <? 10 then 48 + n else 87 + n)).

(** [bytes.hex()]: two lowercase hex digits per byte. *)
Fixpoint hex (b : list byte) : string :=
  match b with
  | [] => EmptyString
  | x :: b' =>
      String (hex_digit (byte_to_Z x / 16))
        (String (hex_digit (byte_to_Z x mod 16)) (hex b'))
  end.

Definition hex_value (c : ascii) : option Z :=
  let n := Z.of_nat (nat_of_ascii c) in
  if (48 <=? n) && (n <=? 57) then Some (n - 48)
  else if (97 <=? n) && (n <=? 102) then Some (n - 87)
  else if (65 <=? n) && (n <=? 70) then Some (n - 55)
  else None.

(** ASCII whitespace: tab, line feed, vertical tab, form feed, carriage
    return, space. *)
Definition is_space (c : ascii) : bool :=
  let n := nat_of_ascii c in
  ((9 <=? n) && (n <=? 13) || (n =? 32))%nat.

(** Modelled from the spec: [util.bfh] is not part of the sources at hand;
    it is taken to be Python's [bytes.fromhex].  Hex text is read two digits
    per byte, either case, with ASCII whitespace allowed between bytes;
    anything else is a [ValueError]. *)
Fixpoint bfh (s : string) : result (list byte) :=
  match s with
  | EmptyString => Ok []
  | String a s' =>
      if is_space a then bfh s'
      else
        match s' with
        | String b s'' =>
            match hex_value a, hex_value b with
            | Some x, Some y => r ← bfh s''; Ok (byte_of_Z (16 * x + y) :: r)
            | _, _ => Raise ValueError
            end
        | EmptyString => Raise ValueError
        end
  end.

(** Modelled from the spec: [bitcoin.hash_encode] is not part of the sources
    at hand.  Hash fields are "big-endian text but stored byte-reversed": the
    text of a stored field is the hex of its bytes in reverse order. *)
Definition hash_encode (x : list byte) : string := hex (rev x).

(** Modelled from the spec: [bitcoin.rev_hex] is not part of the sources at
    hand.  It is the text-to-text form of the same byte reversal. *)
Definition rev_hex (s : string) : result string :=
  b ← bfh s; Ok (hex (rev b)).

(** The [length] little-endian bytes of [v], least significant first. *)
Fixpoint le_bytes (length : nat) (v : Z) : list byte :=
  match length with
  | O => []
  | S k => byte_of_Z v :: le_bytes k (v / 256)
  end.

(** Modelled from the spec: [bitcoin.int_to_hex] is not part of the sources
    at hand.  Integer fields are unsigned and little-endian on the wire; a
    value that does not fit the field is an [OverflowError]. *)
Definition int_to_hex (i : Z) (length : nat) : result string :=
  if (i <? 0) || (256 ^ Z.of_nat length <=? i) then Raise OverflowError
  else Ok (hex (le_bytes length i)).

Fixpoint int16_digits (s : string) (acc : Z) : result Z :=
  match s with
  | EmptyString => Ok acc
  | String a s' =>
      match hex_value a with
      | Some d => int16_digits s' (16 * acc + d)
      | None => Raise ValueError
      end
  end.

(** [int(text, 16)] on hex text without sign or prefix. *)
Definition int16 (s : string) : result Z :=
  match s with
  | EmptyString => Raise ValueError
  | _ => int16_digits s 0
  end.

(** [s.ljust(width, fill)] *)
Definition ljust (s : string) (width : nat) (fill : ascii) : string :=
  s +:+ string_of_list_ascii (repeat fill (width - String.length s)).

(** ** Network parameters (electrum/constants.py) *)

Record Net := {
  TESTNET : bool;
  GENESIS : string;
  (** [CHECKPOINTS]: (hash, target) at the end of each 2016-block chunk *)
  CHECKPOINTS : list (string * Z);
  (** [DGW_CHECKPOINTS]: per window the (hash, target) of its first and of
      its last header *)
  DGW_CHECKPOINTS : list ((string * Z) * (string * Z));
  DGW_CHECKPOINTS_SPACING : Z;
  DGW_CHECKPOINTS_START : Z;
  X16Rv2ActivationTS : Z;
  KawpowActivationTS : Z;
  KawpowActivationHeight : Z;
  MeowpowActivationTS : Z;
  nDGWActivationBlock : Z;
  AuxPowActivationHeight : Z
}.

(** [MeowcoinMainnet].  The two checkpoint tables are read from JSON files
    and [AuxPowActivationHeight] is not assigned in constants.py: they are
    the arguments. *)
Definition MeowcoinMainnet (checkpoints : list (string * Z))
    (dgw_checkpoints : list ((string * Z) * (string * Z)))
    (aux_height : Z) : Net := {|
  TESTNET := false;
  GENESIS := "000000edd819220359469c54f2614b5602ebc775ea67a64602f354bdaa320f70";
  CHECKPOINTS := checkpoints;
  DGW_CHECKPOINTS := dgw_checkpoints;
  DGW_CHECKPOINTS_SPACING := 2016;
  DGW_CHECKPOINTS_START := 168 * 2016;
  X16Rv2ActivationTS := 1569945600;
  KawpowActivationTS := 1662493424;
  KawpowActivationHeight := 373;
  MeowpowActivationTS := 1710799200;
  nDGWActivationBlock := 373;
  AuxPowActivationHeight := aux_height
|}.

(** [MeowcoinTestnet] *)
Definition MeowcoinTestnet
    (dgw_checkpoints : list ((string * Z) * (string * Z)))
    (aux_height : Z) : Net := {|
  TESTNET := true;
  GENESIS := "000000ecfc5e6324a079542221d00e10362bdc894d56500c414060eea8a3ad5a";
  CHECKPOINTS := [];
  DGW_CHECKPOINTS := dgw_checkpoints;
  DGW_CHECKPOINTS_SPACING := 2016;
  DGW_CHECKPOINTS_START := 0;
  X16Rv2ActivationTS := 1567533600;
  KawpowActivationTS := 1585159201;
  KawpowActivationHeight := 1;
  MeowpowActivationTS := 1585159200;
  nDGWActivationBlock := 1;
  AuxPowActivationHeight := aux_height
|}.

Definition max_legacy_checkpoint (net : Net) : Z :=
  Z.max 0 (Z.of_nat (length (CHECKPOINTS net)) * 2016 - 1).

Definition max_checkpoint (net : Net) : Z :=
  Z.max 0 (DGW_CHECKPOINTS_START net
           + Z.of_nat (length (DGW_CHECKPOINTS net)) * DGW_CHECKPOINTS_SPACING net
           - 1).

(** ** Headers *)

(** A header dict, restricted to the ten keys the engine reads or writes;
    [None] is an absent key.  Each key has the Python type the engine stores
    under it: [int] or hex [str]. *)
Record header := {
  version : option Z;
  prev_block_hash : option string;
  merkle_root : option string;
  timestamp : option Z;
  bits : option Z;
  nonce : option Z;
  nheight : option Z;
  nonce64 : option Z;
  mix_hash : option string;
  block_height : option Z
}.

#[global] Instance header_eq_decision : EqDecision header.
Proof. solve_decision. Defined.

(** [d[key]] *)
Definition getitem {A} (key : string) (o : option A) : result A :=
  match o with
  | Some v => Ok v
  | None => Raise (KeyError key)
  end.

(** [version_int & (1 << 8)] as a truth value *)
Definition auxpow_bit (version_int : Z) : bool :=
  negb (Z.land version_int (Z.shiftl 1 8) =? 0).

(** ** Header codec (serialize_header, deserialize_header) *)

Definition serialize_header (header_dict : header) : result string :=
  let is_meowpow_header := bool_decide (is_Some (nheight header_dict)) in
  let is_auxpow := negb is_meowpow_header in
  if is_meowpow_header then
    let nonce_value :=
      default (default 0 (nonce header_dict)) (nonce64 header_dict) in
    v ← getitem "version" (version header_dict);
    s1 ← int_to_hex v 4;
    p ← getitem "prev_block_hash" (prev_block_hash header_dict);
    s2 ← rev_hex p;
    m ← getitem "merkle_root" (merkle_root header_dict);
    s3 ← rev_hex m;
    t ← getitem "timestamp" (timestamp header_dict);
    s4 ← int_to_hex t 4;
    b ← getitem "bits" (bits header_dict);
    s5 ← int_to_hex b 4;
    n ← getitem "nheight" (nheight header_dict);
    s6 ← int_to_hex n 4;
    s7 ← int_to_hex nonce_value 8;
    x ← getitem "mix_hash" (mix_hash header_dict);
    s8 ← rev_hex x;
    Ok (s1 +:+ s2 +:+ s3 +:+ s4 +:+ s5 +:+ s6 +:+ s7 +:+ s8)
  else
    v ← getitem "version" (version header_dict);
    s1 ← int_to_hex v 4;
    p ← getitem "prev_block_hash" (prev_block_hash header_dict);
    s2 ← rev_hex p;
    m ← getitem "merkle_root" (merkle_root header_dict);
    s3 ← rev_hex m;
    t ← getitem "timestamp" (timestamp header_dict);
    s4 ← int_to_hex t 4;
    b ← getitem "bits" (bits header_dict);
    s5 ← int_to_hex b 4;
    n ← getitem "nonce" (nonce header_dict);
    s6 ← int_to_hex n 4;
    let s := s1 +:+ s2 +:+ s3 +:+ s4 +:+ s5 +:+ s6 in
    if negb is_auxpow then Ok (ljust s (HEADER_SIZE * 2) "0")
    else Ok s.

(** [s[a:b] == bytes(n)] and the like compare byte strings. *)
Definition bytes_eqb (a b : list byte) : bool :=
  bool_decide (a = b).

Definition deserialize_header (net : Net) (s : list byte) (height : Z)
  : result header :=
  if bool_decide (s = []) then Raise (InvalidHeader EmptyHeader)
  else if negb ((length s =? LEGACY_HEADER_SIZE)%nat
                || (length s =? HEADER_SIZE)%nat) then
    Raise (InvalidHeader BadHeaderLength)
  else
    let hex_to_int := int_from_bytes_little in
    let h_version := hex_to_int (slice 0 4 s) in
    let h_prev := hash_encode (slice 4 36 s) in
    let h_merkle := hash_encode (slice 36 68 s) in
    h_timestamp ← int16 (hash_encode (slice 68 72 s));
    h_bits ← int16 (hash_encode (slice 72 76 s));
    if (length s =? HEADER_SIZE)%nat then
      let version_int := h_version in
      let is_auxpow_padded :=
        (AuxPowActivationHeight net <=? height) && auxpow_bit version_int
        && bytes_eqb (skipn LEGACY_HEADER_SIZE s)
             (repeat x00 (HEADER_SIZE - LEGACY_HEADER_SIZE)) in
      if negb is_auxpow_padded then
        h_nheight ← int16 (hash_encode (slice 76 80 s));
        h_nonce ← int16 (hash_encode (slice 80 88 s));
        Ok {| version := Some h_version; prev_block_hash := Some h_prev;
              merkle_root := Some h_merkle; timestamp := Some h_timestamp;
              bits := Some h_bits; nonce := Some h_nonce;
              nheight := Some h_nheight; nonce64 := None;
              mix_hash := Some (hash_encode (slice 88 120 s));
              block_height := Some height |}
      else
        h_nonce ← int16 (hash_encode (slice 76 80 s));
        Ok {| version := Some h_version; prev_block_hash := Some h_prev;
              merkle_root := Some h_merkle; timestamp := Some h_timestamp;
              bits := Some h_bits; nonce := Some h_nonce;
              nheight := None; nonce64 := None; mix_hash := None;
              block_height := Some height |}
    else
      (* both branches of the 80-byte case read the same four bytes *)
      h_nonce ← int16 (hash_encode (slice 76 80 s));
      Ok {| version := Some h_version; prev_block_hash := Some h_prev;
            merkle_root := Some h_merkle; timestamp := Some h_timestamp;
            bits := Some h_bits; nonce := Some h_nonce;
            nheight := None; nonce64 := None; mix_hash := None;
            block_height := Some height |}.

(** The two mining algorithms [get_block_algo] tells apart
    (the strings 'scrypt' and 'meowpow'). *)
Inductive algo := scrypt | meowpow.

#[global] Instance algo_eq_decision : EqDecision algo.
Proof. solve_decision. Defined.

Definition get_block_algo (net : Net) (header : header) (height : Z) : algo :=
  if AuxPowActivationHeight net <=? height then
    let version_int := default 0 (version header) in
    let is_auxpow := auxpow_bit version_int in
    if is_auxpow then scrypt else meowpow
  else meowpow.

(** ** Hash kernels *)

(** The external hash primitives, called as pure functions.  [hashlib_scrypt
    password salt] stands for
    [hashlib.scrypt(password, salt=salt, n=1024, r=1, p=1, dklen=32)], which
    raises where the interpreter has no scrypt. *)
Record Kernels := {
  x16r_getPoWHash : list byte -> list byte;
  x16rv2_getPoWHash : list byte -> list byte;
  sha256d : list byte -> list byte;
  kawpow_light_verify : list byte -> list byte -> Z -> list byte;
  meowpow_light_verify : list byte -> list byte -> Z -> list byte;
  hashlib_scrypt : list byte -> list byte -> result (list byte)
}.

(** The import-time probe (blockchain.py, lines 46-63). *)
Definition _SCRYPT_AVAILABLE (K : Kernels) : bool :=
  let test_header := repeat x00 80 in
  match hashlib_scrypt K test_header test_header with
  | Ok test_result => (length test_result =? 32)%nat
  | Raise _ => false
  end.

Definition hash_raw_header_v1 (K : Kernels) (header : string) : result string :=
  b ← bfh header;
  let raw_hash := x16r_getPoWHash K (firstn 80 b) in
  Ok (hash_encode raw_hash).

Definition hash_raw_header_v2 (K : Kernels) (header : string) : result string :=
  b ← bfh header;
  let raw_hash := x16rv2_getPoWHash K (firstn 80 b) in
  Ok (hash_encode raw_hash).

Definition revb (data : list byte) : list byte := rev data.

(** [struct.unpack("< Q", b)[0]] *)
Definition unpack_Q (b : list byte) : result Z :=
  if (length b =? 8)%nat then Ok (int_from_bytes_little b)
  else Raise StructError.

Definition kawpow_hash (K : Kernels) (hdr_bin : list byte) : result (list byte) :=
  let header_hash := revb (sha256d K (firstn 80 hdr_bin)) in
  let mix_hash := revb (slice 88 120 hdr_bin) in
  nNonce64 ← unpack_Q (slice 80 88 hdr_bin);
  Ok (revb (kawpow_light_verify K header_hash mix_hash nNonce64)).

Definition hash_raw_header_kawpow (K : Kernels) (header : string) : result string :=
  b ← bfh header;
  final_hash ← kawpow_hash K b;
  Ok (hash_encode final_hash).

Definition meowpow_hash (K : Kernels) (hdr_bin : list byte) : result (list byte) :=
  let header_hash := revb (sha256d K (firstn 80 hdr_bin)) in
  let mix_hash := revb (slice 88 120 hdr_bin) in
  nNonce64 ← unpack_Q (slice 80 88 hdr_bin);
  Ok (revb (meowpow_light_verify K header_hash mix_hash nNonce64)).

Definition hash_raw_header_meowpow (K : Kernels) (header : string) : result string :=
  b ← bfh header;
  final_hash ← meowpow_hash K b;
  Ok (hash_encode final_hash).

(** Every [except] clause of [hash_raw_header_auxpow] returns a value, so
    the function itself never raises. *)
Definition hash_raw_header_auxpow (K : Kernels) (header : string) : string :=
  match bfh header with
  | Raise _ => hash_encode (sha256d K (repeat x00 80))
  | Ok b =>
      let header_bytes := firstn 80 b in
      if negb (_SCRYPT_AVAILABLE K) then
        hash_encode (sha256d K header_bytes)
      else
        match hashlib_scrypt K header_bytes header_bytes with
        | Ok scrypt_hash =>
            if negb (length scrypt_hash =? 32)%nat then
              (* the ValueError raised here is caught just below *)
              hash_encode (sha256d K header_bytes)
            else hash_encode scrypt_hash
        | Raise _ => hash_encode (sha256d K header_bytes)
        end
  end.

(** [hash_header].  A header without 'prev_block_hash' is given 32 zero
    bytes before it is serialised. *)
Definition hash_header (net : Net) (K : Kernels) (header : option header)
  : result string :=
  match header with
  | None => Ok (string_of_list_ascii (repeat "0"%char 64))
  | Some header =>
      let header :=
        match prev_block_hash header with
        | None =>
            {| version := version header;
               prev_block_hash :=
                 Some (string_of_list_ascii (repeat "0"%char 64));
               merkle_root := merkle_root header;
               timestamp := timestamp header; bits := bits header;
               nonce := nonce header; nheight := nheight header;
               nonce64 := nonce64 header; mix_hash := mix_hash header;
               block_height := block_height header |}
        | Some _ => header
        end in
      let height := default 0 (block_height header) in
      let version_int := default 0 (version header) in
      let is_auxpow :=
        auxpow_bit version_int && (AuxPowActivationHeight net <=? height) in
      if is_auxpow then
        s ← serialize_header header;
        Ok (hash_raw_header_auxpow K s)
      else
        ts ← getitem "timestamp" (timestamp header);
        if (KawpowActivationTS net <=? ts) && (ts <? MeowpowActivationTS net) then
          s ← serialize_header header;
          hash_raw_header_kawpow K s
        else if MeowpowActivationTS net <=? ts then
          s ← serialize_header header;
          hash_raw_header_meowpow K s
        else if X16Rv2ActivationTS net <=? ts then
          s ← serialize_header header;
          hash_raw_header_v2 K (substring 0 (80 * 2) s)
        else
          s ← serialize_header header;
          hash_raw_header_v1 K (substring 0 (80 * 2) s)
  end.

(** ** Header verifier (Blockchain.verify_header) *)

(** [expected_header_hash] is [None] or a string; Python tests its truth
    value, so the empty string counts as absent. *)
Definition truthy (s : option string) : bool :=
  match s with
  | Some s => negb (bool_decide (s = EmptyString))
  | None => false
  end.

Definition verify_header (net : Net) (K : Kernels) (header : header)
    (prev_hash : string) (target : Z) (expected_header_hash : option string)
    (skip_bits_check : bool) : result unit :=
  if negb (bool_decide (Some prev_hash = prev_block_hash header)) then
    Raise (InvalidHeader PrevHashMismatch)
  else if TESTNET net then Ok tt
  else
    let height := default 0 (block_height header) in
    let version_int := default 0 (version header) in
    let is_auxpow :=
      auxpow_bit version_int && (AuxPowActivationHeight net <=? height) in
    if is_auxpow then
      if truthy expected_header_hash then
        _hash ← hash_header net K (Some header);
        if negb (bool_decide (expected_header_hash = Some _hash)) then
          Raise (InvalidHeader HashMismatch)
        else Ok tt
      else Ok tt
    else
      let should_validate_pow :=
        if max_checkpoint net <? height then (height mod 10 =? 0) else true in
      if negb should_validate_pow then Ok tt
      else
        (if negb skip_bits_check then
           tbits ← target_to_bits target;
           if negb (bool_decide (Some tbits = bits header)) then
             Raise (InvalidHeader BitsMismatch)
           else Ok tt
         else Ok tt);;
        _hash ← hash_header net K (Some header);
        if truthy expected_header_hash
           && negb (bool_decide (expected_header_hash = Some _hash)) then
          Raise (InvalidHeader HashMismatch)
        else
          b ← bfh _hash;
          let block_hash_as_num := int_from_bytes_big b in
          if target <? block_hash_as_num then
            Raise (InvalidHeader InsufficientPow)
          else Ok tt.

(** ** The compact encoding, read arithmetically

    The reading of a 32-bit compact value that the statements about targets
    use: exponent byte, 23-bit mantissa, sign bit, and the value they
    denote. *)

Definition compact_exponent (b : Z) : Z := (b / 2 ^ 24) mod 256.
Definition compact_mantissa (b : Z) : Z := b mod 2 ^ 23.
Definition compact_sign (b : Z) : bool := (b / 2 ^ 23) mod 2 =? 1.

Definition compact_value (b : Z) : Z :=
  if compact_exponent b <=? 3
  then compact_mantissa b / 256 ^ (3 - compact_exponent b)
  else compact_mantissa b * 256 ^ (compact_exponent b - 3).

(** The over-range condition as the code has it. *)
Definition compact_overflows (b : Z) : bool :=
  negb (compact_value b =? 0)
  && ((34 <? compact_exponent b)
      || ((33 <? compact_exponent b) && (0xff <? compact_mantissa b))
      || ((32 <? compact_exponent b) && (0xffff <? compact_mantissa b))).

(** The over-range condition as the specification words it:
    "base>0xff with N>34, base>0xffff with N>33, N>34". *)
Definition compact_overflows_as_specified (b : Z) : bool :=
  negb (compact_value b =? 0)
  && (((34 <? compact_exponent b) && (0xff <? compact_mantissa b))
      || ((33 <? compact_exponent b) && (0xffff <? compact_mantissa b))
      || (34 <? compact_exponent b)).

Definition compact_negative (b : Z) : bool :=
  negb (compact_value b =? 0) && compact_sign b.

Definition is_uint32 (b : Z) : bool := (0 <=? b) && (b <? 2 ^ 32).

(** The byte string the loop holds when [bitsN = n]: the [n] low bytes of
    the target, zero-padded on the right to three bytes. *)
Definition loop_bytes (n : nat) (v : Z) : list byte :=
  be_bytes n v ++ repeat x00 (3 - n).

(** What [target_to_bits] returns for a target whose big-endian form has
    [L] significant bytes. *)
Definition compact_of (L t : Z) : Z :=
  let base := if 3 <=? L then t / 256 ^ (L - 3) else t * 256 ^ (3 - L) in
  if 2 ^ 23 <=? base then (L + 1) * 2 ^ 24 + base / 256
  else L * 2 ^ 24 + base.

(** The compact form of [m * 256 ^ k] for a mantissa [0 < m < 2 ^ 23]. *)
Definition compact_normal (m k : Z) : Z :=
  if 2 ^ 15 <=? m then (k + 3) * 2 ^ 24 + m
  else if 2 ^ 7 <=? m then (k + 2) * 2 ^ 24 + m * 256
  else (k + 1) * 2 ^ 24 + m * 65536.

(** Compact values that [target_to_bits] can return: zero, or sign bit
    clear, exponent at least one, mantissa at least 0x008000, and for an
    exponent below three no non-zero mantissa byte shifted out. *)
Definition compact_canonical (b : Z) : bool :=
  (b =? 0)
  || (negb (compact_sign b)
      && (1 <=? compact_exponent b)
      && (0x8000 <=? compact_mantissa b)
      && ((3 <=? compact_exponent b)
          || (compact_mantissa b mod 256 ^ (3 - compact_exponent b) =? 0))).

(** The compact value [target_to_bits] gives back for the target decoded
    from [b]. *)
Definition compact_renormalised (b : Z) : Z :=
  if compact_value b =? 0 then 0
  else if compact_exponent b <=? 3
  then compact_normal (compact_mantissa b / 256 ^ (3 - compact_exponent b)) 0
  else compact_normal (compact_mantissa b) (compact_exponent b - 3).

(** ** Well-formed header dicts and their wire bytes

    The data model types the integer fields as u32 (u64 for the extended
    nonce) and the hash fields as 32-byte values.  The predicates below say
    so for a header dict; [wire_bytes] is the field layout of the codec. *)

Definition is_uint64 (z : Z) : bool := (0 <=? z) && (z <? 2 ^ 64).

(** Hex text of a 32-byte field, in either case. *)
Definition is_hash256 (s : string) : bool :=
  match bfh s with
  | Ok b => (length b =? 32)%nat
  | Raise _ => false
  end.

(** Hex text of a 32-byte field, in the lowercase form [hash_encode] gives. *)
Definition is_canonical_hash (s : string) : bool :=
  match bfh s with
  | Ok b => (length b =? 32)%nat && bool_decide (hex b = s)
  | Raise _ => false
  end.

(** The stored (byte-reversed) form of a hash field. *)
Definition field_bytes (s : option string) : list byte :=
  match s with
  | Some s => match bfh s with Ok b => rev b | Raise _ => [] end
  | None => []
  end.

Definition wire_bytes (h : header) : list byte :=
  le_bytes 4 (default 0 (version h))
  ++ field_bytes (prev_block_hash h)
  ++ field_bytes (merkle_root h)
  ++ le_bytes 4 (default 0 (timestamp h))
  ++ le_bytes 4 (default 0 (bits h))
  ++ match nheight h with
     | Some n =>
         le_bytes 4 n
         ++ le_bytes 8 (default (default 0 (nonce h)) (nonce64 h))
         ++ field_bytes (mix_hash h)
     | None => le_bytes 4 (default 0 (nonce h))
     end.

Definition common_fields_ok (h : header) : bool :=
  match version h, prev_block_hash h, merkle_root h, timestamp h, bits h with
  | Some v, Some p, Some m, Some t, Some b =>
      is_uint32 v && is_hash256 p && is_hash256 m && is_uint32 t && is_uint32 b
  | _, _, _, _, _ => false
  end.

(** Every field [serialize_header] reads is present and fits its width. *)
Definition header_fields_ok (h : header) : bool :=
  common_fields_ok h
  && match nheight h with
     | Some n =>
         is_uint32 n
         && is_uint64 (default (default 0 (nonce h)) (nonce64 h))
         && match mix_hash h with Some x => is_hash256 x | None => false end
     | None =>
         match nonce h with Some n => is_uint32 n | None => false end
     end.

(** The text of 32 zero bytes. *)
Definition zero_hash : string := hex (repeat x00 32).

(** The header dicts [deserialize_header] builds at [height]: exactly the
    keys of the 80-byte form, or exactly those of the 120-byte form (with the
    64-bit nonce under 'nonce') unless the record reads as a zero-padded
    AuxPOW header. *)
Definition legacy_shaped (h : header) (height : Z) : bool :=
  match version h, prev_block_hash h, merkle_root h, timestamp h, bits h,
        nonce h, nheight h, nonce64 h, mix_hash h, block_height h with
  | Some v, Some p, Some m, Some t, Some b, Some n, None, None, None, Some ht =>
      is_uint32 v && is_canonical_hash p && is_canonical_hash m
      && is_uint32 t && is_uint32 b && is_uint32 n && (ht =? height)
  | _, _, _, _, _, _, _, _, _, _ => false
  end.

Definition extended_shaped (net : Net) (h : header) (height : Z) : bool :=
  match version h, prev_block_hash h, merkle_root h, timestamp h, bits h,
        nonce h, nheight h, nonce64 h, mix_hash h, block_height h with
  | Some v, Some p, Some m, Some t, Some b, Some n, Some k, None, Some x, Some ht =>
      is_uint32 v && is_canonical_hash p && is_canonical_hash m
      && is_uint32 t && is_uint32 b && is_uint64 n && is_uint32 k
      && is_canonical_hash x && (ht =? height)
      && negb ((AuxPowActivationHeight net <=? height) && auxpow_bit v
               && (n =? 0) && bool_decide (x = zero_hash))
  | _, _, _, _, _, _, _, _, _, _ => false
  end.

(** ** Sample data for the worked examples *)

(** Mainnet with empty checkpoint tables and an AuxPOW activation height
    picked for the examples. *)
Definition example_mainnet : Net := MeowcoinMainnet [] [] 1614560.

Definition example_merkle : string :=
  "4a5e1e4baab89f3a32518a88c31bc87f618f76673e2cc77ab2127b7afdeda33b".

(** An 80-byte-form header dict. *)
Definition example_legacy_header : header := {|
  version := Some 4;
  prev_block_hash := Some (GENESIS example_mainnet);
  merkle_root := Some example_merkle;
  timestamp := Some 1661730843;
  bits := Some 0x1e00ffff;
  nonce := Some 351574;
  nheight := None; nonce64 := None; mix_hash := None;
  block_height := Some 1
|}.

(** A 120-byte-form header dict as [deserialize_header] builds it. *)
Definition example_extended_header : header := {|
  version := Some 0x30000000;
  prev_block_hash := Some (GENESIS example_mainnet);
  merkle_root := Some example_merkle;
  timestamp := Some 1710799300;
  bits := Some 0x1b00ffff;
  nonce := Some 0x0123456789abcdef;
  nheight := Some 900000; nonce64 := None;
  mix_hash := Some example_merkle;
  block_height := Some 900000
|}.

(** The same header with its 64-bit nonce under 'nonce64', the key
    [serialize_header] reads first. *)
Definition example_nonce64_header : header := {|
  version := Some 0x30000000;
  prev_block_hash := Some (GENESIS example_mainnet);
  merkle_root := Some example_merkle;
  timestamp := Some 1710799300;
  bits := Some 0x1b00ffff;
  nonce := None;
  nheight := Some 900000; nonce64 := Some 0x0123456789abcdef;
  mix_hash := Some example_merkle;
  block_height := Some 900000
|}.

(** Stand-in hash kernels for the worked examples: every proof-of-work
    kernel returns 32 bytes of 0xff (a hash above every target), [sha256d]
    keeps the first 32 bytes of its input, and the interpreter has no
    scrypt. *)
Definition example_kernels : Kernels := {|
  x16r_getPoWHash := fun _ => repeat xff 32;
  x16rv2_getPoWHash := fun _ => repeat xff 32;
  sha256d := fun b => firstn 32 (b ++ repeat x00 32);
  kawpow_light_verify := fun _ _ _ => repeat xff 32;
  meowpow_light_verify := fun _ _ _ => repeat xff 32;
  hashlib_scrypt := fun _ _ => Raise AttributeError
|}.

(** The kernels [K] on an interpreter whose hashlib has no scrypt. *)
Definition without_scrypt (K : Kernels) : Kernels := {|
  x16r_getPoWHash := x16r_getPoWHash K;
  x16rv2_getPoWHash := x16rv2_getPoWHash K;
  sha256d := sha256d K;
  kawpow_light_verify := kawpow_light_verify K;
  meowpow_light_verify := meowpow_light_verify K;
  hashlib_scrypt := fun _ _ => Raise AttributeError
|}.

(** An AuxPOW header dict: version bit 8 set, at the activation height of
    [example_mainnet]. *)
Definition example_auxpow_header : header := {|
  version := Some 0x20000100;
  prev_block_hash := Some (GENESIS example_mainnet);
  merkle_root := Some example_merkle;
  timestamp := Some 1760000000;
  bits := Some 0x1e00ffff;
  nonce := Some 7;
  nheight := None; nonce64 := None; mix_hash := None;
  block_height := Some 1614560
|}.

(** Whether [verify_header] treats [header] as merged-mined. *)
Definition is_auxpow_header (net : Net) (header : header) : bool :=
  auxpow_bit (default 0 (version header))
  && (AuxPowActivationHeight net <=? default 0 (block_height header)).

(** Whether [verify_header] goes on to the bits and proof-of-work checks at
    the height of [header]. *)
Definition pow_is_validated (net : Net) (header : header) : bool :=
  let height := default 0 (block_height header) in
  (height <=? max_checkpoint net) || (height mod 10 =? 0).

(** ** The chain store: chain objects, header files, registry *)

(** A [Blockchain] instance.  [parent] refers to another instance by its
    identity in the heap. *)
Record Blockchain := {
  forkpoint : Z;
  parent : option nat;
  _forkpoint_hash : string;
  _prev_hash : option string;
  _size : Z
}.

(** The mutable state the engine works on: the [Blockchain] instances, the
    files of the headers directory (path below the directory -> content),
    the registry [blockchains] (hash -> instance) and [_CHAINWORK_CACHE]. *)
Record World := {
  heap : gmap nat Blockchain;
  files : gmap string (list byte);
  blockchains : gmap string nat;
  _CHAINWORK_CACHE : gmap string Z
}.

(** Attribute access through a reference; a reference without an instance
    behaves like [None]. *)
Definition deref (w : World) (r : nat) : result Blockchain :=
  match heap w !! r with
  | Some c => Ok c
  | None => Raise AttributeError
  end.

(** [str(i)] for an integer *)
Definition str_of_int (z : Z) : string := NilZero.string_of_int (Z.to_int z).

(** [s.lstrip('0')] *)
Fixpoint lstrip0 (s : string) : string :=
  match s with
  | String c s' => if Ascii.eqb c "0" then lstrip0 s' else s
  | EmptyString => s
  end.

(** [Blockchain.path], below the headers directory. *)
Definition path (c : Blockchain) : result string :=
  match parent c with
  | None => Ok "blockchain_headers"%string
  | Some _ =>
      if negb (0 <? forkpoint c) then Raise AssertionError
      else
        match _prev_hash c with
        | None => Raise AttributeError
        | Some ph =>
            let prev_hash := lstrip0 ph in
            let first_hash := lstrip0 (_forkpoint_hash c) in
            let basename :=
              "fork2_" +:+ str_of_int (forkpoint c) +:+ "_" +:+ prev_hash
              +:+ "_" +:+ first_hash in
            Ok ("forks/" +:+ basename)
        end
  end.

(** [Blockchain.height] *)
Definition height (c : Blockchain) : Z := forkpoint c + _size c - 1.

(** [Blockchain.assert_headers_file_available] followed by opening the
    file: its content, or [FileNotFoundError]. *)
Definition open_file (w : World) (name : string) : result (list byte) :=
  match files w !! name with
  | Some content => Ok content
  | None => Raise FileNotFoundError
  end.

Section Reading.
Context (net : Net) (K : Kernels).

(** [Blockchain.read_header].  The call on the parent recurses along the
    parent links; Python gives up on a cycle with [RecursionError], the
    model after one call per instance in the heap. *)
Fixpoint read_header_from (fuel : nat) (w : World) (self : nat) (height_ : Z)
  : result (option header) :=
  match fuel with
  | O => Raise RecursionError
  | S fuel' =>
      c ← deref w self;
      if height_ <? 0 then Ok None
      else if height_ <? forkpoint c then
        match parent c with
        | None => Raise AttributeError
        | Some p => read_header_from fuel' w p height_
        end
      else if height c <? height_ then Ok None
      else
        let delta := height_ - forkpoint c in
        name ← path c;
        content ← open_file w name;
        let h := firstn HEADER_SIZE
                   (skipn (Z.to_nat (delta * Z.of_nat HEADER_SIZE)) content) in
        if (length h <? HEADER_SIZE)%nat then
          Raise (PlainException "Expected to read a full header")
        else if bytes_eqb h (repeat x00 HEADER_SIZE) then Ok None
        else
          let h :=
            if (AuxPowActivationHeight net <=? height_)
               && (length h =? HEADER_SIZE)%nat then
              let version_int := int_from_bytes_little (slice 0 4 h) in
              if auxpow_bit version_int then
                if bytes_eqb (skipn LEGACY_HEADER_SIZE h)
                     (repeat x00 (HEADER_SIZE - LEGACY_HEADER_SIZE))
                then firstn LEGACY_HEADER_SIZE h
                else h
              else h
            else h in
          hd ← deserialize_header net h height_;
          Ok (Some hd)
  end.

Definition read_header (w : World) (self : nat) (height_ : Z)
  : result (option header) :=
  read_header_from (S (size (heap w))) w self height_.

(** [l[i]] on a Python list, with negative indices counted from the end. *)
Definition list_index {A} (l : list A) (i : Z) : result A :=
  let n := Z.of_nat (length l) in
  let j := if i <? 0 then n + i else i in
  if (j <? 0) || (n <=? j) then Raise IndexError
  else match nth_error l (Z.to_nat j) with
       | Some x => Ok x
       | None => Raise IndexError
       end.

(** [a % b] and [a // b] with Python's error on a zero divisor. *)
Definition py_mod (a b : Z) : result Z :=
  if b =? 0 then Raise ZeroDivisionError else Ok (a mod b).
Definition py_div (a b : Z) : result Z :=
  if b =? 0 then Raise ZeroDivisionError else Ok (a / b).

(** [Blockchain.is_dgw_height_checkpoint] *)
Definition is_dgw_height_checkpoint (height_ : Z) : result (option Z) :=
  if height_ <? DGW_CHECKPOINTS_START net then Ok None
  else if max_checkpoint net <? height_ then Ok None
  else
    height_mod ← py_mod height_ (DGW_CHECKPOINTS_SPACING net);
    if height_mod =? 0 then Ok (Some 0)
    else if height_mod =? DGW_CHECKPOINTS_SPACING net - 1 then Ok (Some 1)
    else Ok None.

(** [self.checkpoints[index][dgw_height_checkpoint]] *)
Definition dgw_checkpoint_entry (height_ sentinel : Z) : result (string * Z) :=
  a ← py_div height_ (DGW_CHECKPOINTS_SPACING net);
  b ← py_div (DGW_CHECKPOINTS_START net) (DGW_CHECKPOINTS_SPACING net);
  let index := a - b in
  pair_ ← list_index (DGW_CHECKPOINTS net) index;
  list_index [fst pair_; snd pair_] sentinel.

(** [Blockchain.get_hash] *)
Definition get_hash (w : World) (self : nat) (height_ : Z) : result string :=
  let is_height_checkpoint :=
    let within_cp_range := height_ <=? max_legacy_checkpoint net in
    let at_chunk_boundary := (height_ + 1) mod 2016 =? 0 in
    within_cp_range && at_chunk_boundary in
  dgw_height_checkpoint ← is_dgw_height_checkpoint height_;
  if height_ =? -1 then
    Ok "0000000000000000000000000000000000000000000000000000000000000000"%string
  else if height_ =? 0 then Ok (GENESIS net)
  else if is_height_checkpoint then
    let index := height_ / 2016 in
    ht ← list_index (CHECKPOINTS net) index;
    Ok (fst ht)
  else
    match dgw_height_checkpoint with
    | Some sentinel =>
        ht ← dgw_checkpoint_entry height_ sentinel;
        Ok (fst ht)
    | None =>
        header ← read_header w self height_;
        match header with
        | None => Raise (MissingHeader height_)
        | Some header => hash_header net K (Some header)
        end
    end.

(** [Blockchain.convbignum].  For an exponent byte below three Python's
    [pow(2, negative)] is a float; the model stops there. *)
Definition convbignum (bits_ : option Z) : result Z :=
  match bits_ with
  | None => Raise TypeError
  | Some bits_ =>
      let MM := 256 * 256 * 256 in
      let a := bits_ mod MM in
      let a := if a <? 0x8000 then a * 256 else a in
      let e := 8 * (bits_ / MM - 3) in
      if e <? 0 then Raise FloatArithmetic
      else Ok (a * 2 ^ e)
  end.

(** The ancestors a retarget reads: headers of the chunk being verified
    ([chain], a dict by height, or [None]) before the stored ones. *)
Definition chain_get (chain : option (gmap Z header)) (h : Z)
  : result (option header) :=
  match chain with
  | Some m => Ok (m !! h)
  | None => Raise AttributeError
  end.

(** [get_block_reading_from_height] of [get_target_dgwv3] *)
Definition dgw_block_reading (w : World) (self : nat)
    (chain : option (gmap Z header)) (h : Z) : result header :=
  let last := match chain_get chain h with Ok x => x | Raise _ => None end in
  last ← match last with
          | Some x => Ok (Some x)
          | None => read_header w self h
          end;
  match last with
  | Some x => Ok x
  | None => Raise NotEnoughHeaders
  end.

(** The loop variables of [get_target_dgwv3]. *)
Record dgw_state := {
  BlockReading : header;
  nActualTimespan : Z;
  LastBlockTime : option Z;
  CountBlocks : Z;
  PastDifficultyAverage : Z;
  PastDifficultyAveragePrev : Z
}.

Definition dgw_step (w : World) (self : nat) (chain : option (gmap Z header))
    (height_ : Z) (st : dgw_state) : result dgw_state :=
  let PastBlocksMin := DGW_PASTBLOCKS in
  let CountBlocks := CountBlocks st + 1 in
  '(avg, avg_prev) ←
    (if CountBlocks <=? PastBlocksMin then
       if CountBlocks =? 1 then
         a ← convbignum (bits (BlockReading st)); Ok (a, a)
       else
         bnNum ← convbignum (bits (BlockReading st));
         let a := (PastDifficultyAveragePrev st * CountBlocks + bnNum)
                  / (CountBlocks + 1) in
         Ok (a, a)
     else Ok (PastDifficultyAverage st, PastDifficultyAveragePrev st));
  last ← match LastBlockTime st with
          | Some t => Ok t
          | None => Raise TypeError
          end;
  span ← (if 0 <? last then
            match timestamp (BlockReading st) with
            | Some t => Ok (nActualTimespan st + (last - t))
            | None => Raise TypeError
            end
          else Ok (nActualTimespan st));
  next ← dgw_block_reading w self chain ((height_ - 1) - CountBlocks);
  Ok {| BlockReading := next; nActualTimespan := span;
        LastBlockTime := timestamp (BlockReading st);
        CountBlocks := CountBlocks;
        PastDifficultyAverage := avg; PastDifficultyAveragePrev := avg_prev |}.

Fixpoint dgw_loop (rounds : nat) (w : World) (self : nat)
    (chain : option (gmap Z header)) (height_ : Z) (st : dgw_state)
  : result dgw_state :=
  match rounds with
  | O => Ok st
  | S n => st' ← dgw_step w self chain height_ st;
           dgw_loop n w self chain height_ st'
  end.

(** [Blockchain.get_target_dgwv3] *)
Definition get_target_dgwv3 (w : World) (self : nat) (height_ : Z)
    (chain : option (gmap Z header)) : result Z :=
  first ← dgw_block_reading w self chain (height_ - 1);
  let PastBlocksMax := DGW_PASTBLOCKS in
  st ← dgw_loop (Z.to_nat PastBlocksMax) w self chain height_
         {| BlockReading := first; nActualTimespan := 0;
            LastBlockTime := Some 0; CountBlocks := 0;
            PastDifficultyAverage := 0; PastDifficultyAveragePrev := 0 |};
  let bnNew := PastDifficultyAverage st in
  let nTargetTimespan := CountBlocks st * 60 in
  let nActualTimespan := Z.max (nActualTimespan st) (nTargetTimespan / 3) in
  let nActualTimespan := Z.min nActualTimespan (nTargetTimespan * 3) in
  let bnNew := bnNew * nActualTimespan in
  bnNew ← py_div bnNew nTargetTimespan;
  Ok (Z.min bnNew MAX_TARGET).

(** Truth value of a dict: empty is false. *)
Definition header_truthy (h : header) : bool :=
  negb (bool_decide
    (h = {| version := None; prev_block_hash := None; merkle_root := None;
            timestamp := None; bits := None; nonce := None; nheight := None;
            nonce64 := None; mix_hash := None; block_height := None |})).

Definition chain_truthy (chain : option (gmap Z header)) : bool :=
  match chain with
  | Some m => negb (bool_decide (m = ∅))
  | None => false
  end.

(** [get_block_reading_from_height] of [get_target_lwma_multi_algo]: both
    lookups swallow every exception. *)
Definition lwma_block_reading (w : World) (self : nat)
    (chain : option (gmap Z header)) (h : Z) : result header :=
  let last :=
    if chain_truthy chain then
      match chain_get chain h with Ok x => x | Raise _ => None end
    else None in
  let last :=
    match last with
    | Some x => Some x
    | None => match read_header w self h with Ok x => x | Raise _ => None end
    end in
  match last with
  | Some x => Ok x
  | None => Raise NotEnoughHeaders
  end.

(** The backward walk of [get_target_lwma_multi_algo]: [rounds] is the
    length of the [range], [h] the height visited next. *)
Fixpoint lwma_collect (rounds : nat) (w : World) (self : nat)
    (chain : option (gmap Z header)) (current_algo : algo) (h : Z)
    (same_algo_blocks : list header) : list header :=
  match rounds with
  | O => same_algo_blocks
  | S n =>
      let N := LWMA_AVERAGING_WINDOW in
      if N + 1 <=? Z.of_nat (length same_algo_blocks) then same_algo_blocks
      else if h <? 0 then same_algo_blocks
      else
        match lwma_block_reading w self chain h with
        | Ok blk =>
            let blk_algo := get_block_algo net blk h in
            lwma_collect n w self chain current_algo (h - 1)
              (if bool_decide (blk_algo = current_algo)
               then same_algo_blocks ++ [blk] else same_algo_blocks)
        | Raise _ => same_algo_blocks
        end
  end.

(** The heights [range(height - 1, max(-1, height - 1 - search_limit - 1), -1)]
    runs over: their number. *)
Definition lwma_walk_length (height_ : Z) : nat :=
  let N := LWMA_AVERAGING_WINDOW in
  let search_limit := Z.min (height_ - 1) (N * 10) in
  Z.to_nat ((height_ - 1) - Z.max (-1) (height_ - 1 - search_limit - 1)).

(** The weighted sums of the LWMA-1 loop, over [i = i0 .. N]. *)
Fixpoint lwma_sums (rounds : nat) (blocks : list header) (T i prev_time : Z)
    (sum_targets sum_weighted_solvetimes : Z) : result (Z * Z) :=
  match rounds with
  | O => Ok (sum_targets, sum_weighted_solvetimes)
  | S n =>
      blk ← list_index blocks i;
      ts ← getitem "timestamp" (timestamp blk);
      let ts := if ts <=? prev_time then prev_time + 1 else ts in
      let solve_time := ts - prev_time in
      let prev_time := ts in
      let solve_time := Z.max 1 (Z.min solve_time (6 * T)) in
      let sum_weighted_solvetimes := sum_weighted_solvetimes + i * solve_time in
      b ← getitem "bits" (bits blk);
      blk_target ← bits_to_target b;
      lwma_sums n blocks T (i + 1) prev_time (sum_targets + blk_target)
        sum_weighted_solvetimes
  end.

(** [chain.get(height) if chain else None] *)
Definition lwma_current_header (chain : option (gmap Z header)) (height_ : Z)
  : option header :=
  if chain_truthy chain then
    match chain with Some m => m !! height_ | None => None end
  else None.

(** [Blockchain.get_target_lwma_multi_algo] *)
Definition get_target_lwma_multi_algo (w : World) (self : nat) (height_ : Z)
    (chain : option (gmap Z header)) : result Z :=
  let current_header := lwma_current_header chain height_ in
  match current_header with
  | None => Raise NotEnoughHeaders
  | Some current_header =>
      if negb (header_truthy current_header) then Raise NotEnoughHeaders
      else
        let current_algo := get_block_algo net current_header height_ in
        let N := LWMA_AVERAGING_WINDOW in
        let aux_active := AuxPowActivationHeight net <=? height_ in
        let ALGOS := if aux_active then 2 else 1 in
        let T_chain := POW_TARGET_SPACING in
        let T := T_chain * ALGOS in
        let pow_limit :=
          match current_algo with
          | scrypt => SCRYPT_LIMIT
          | meowpow => MEOWPOW_LIMIT
          end in
        let same_algo_blocks :=
          lwma_collect (lwma_walk_length height_) w self chain current_algo
            (height_ - 1) [] in
        if Z.of_nat (length same_algo_blocks) <? N + 1 then
          Raise NotEnoughHeaders
        else
          let same_algo_blocks := rev same_algo_blocks in
          first ← list_index same_algo_blocks 0;
          prev_time ← getitem "timestamp" (timestamp first);
          '(sum_targets, sum_weighted_solvetimes) ←
            lwma_sums (Z.to_nat N) same_algo_blocks T 1 prev_time 0 0;
          let avg_target := sum_targets / N in
          let k := N * (N + 1) * T / 2 in
          let next_target := avg_target * sum_weighted_solvetimes / k in
          let next_target := Z.min next_target pow_limit in
          next_bits ← target_to_bits next_target;
          Ok next_target
  end.




(** [Blockchain.get_target] *)
Definition get_target (w : World) (self : nat) (height_ : Z)
    (chain : option (gmap Z header)) : result Z :=
  dgw_height_checkpoint ← is_dgw_height_checkpoint height_;
  if TESTNET net then Ok 0
  else if height_ <? nDGWActivationBlock net then
    ht ← list_index (CHECKPOINTS net) (height_ / 2016);
    Ok (snd ht)
  else
    match dgw_height_checkpoint with
    | Some sentinel =>
        ht ← dgw_checkpoint_entry height_ sentinel;
        Ok (snd ht)
    | None =>
        if negb (TESTNET net) && (373 <=? height_) && (height_ <? 373 + 180)
        then Ok KAWPOW_LIMIT
        else if negb (TESTNET net) && (801212 <=? height_)
                && (height_ <? 801212 + 180)
        then Ok MEOWPOW_LIMIT
        else
          c ← deref w self;
          if height_ <=? height c then
            hd ← read_header w self height_;
            match hd with
            | None => Raise TypeError
            | Some hd =>
                b ← getitem "bits" (bits hd);
                bits_to_target b
            end
          else if AuxPowActivationHeight net <=? height_ then
            get_target_lwma_multi_algo w self height_ chain
          else get_target_dgwv3 w self height_ chain
    end.

(** The record length of the header at offset [p] of a chunk whose next
    height is [s]; [verify_chunk] and [convert_to_kawpow_len] decide it by
    the same three-way test. *)
Definition chunk_header_len (data : list byte) (p : nat) (s : Z) : nat :=
  if AuxPowActivationHeight net <=? s then
    let version_int := int_from_bytes_little (slice p (p + 4) data) in
    let is_auxpow := auxpow_bit version_int in
    if is_auxpow then LEGACY_HEADER_SIZE else HEADER_SIZE
  else if KawpowActivationHeight net <=? s then HEADER_SIZE
  else LEGACY_HEADER_SIZE.

(** The target [verify_chunk] checks the header at height [s] against, and
    whether the bits check is skipped. *)
Definition chunk_target (w : World) (self : nat) (s : Z) (hdr : header)
    (headers : gmap Z header) : result (Z * bool) :=
  if (DGW_CHECKPOINTS_START net <=? s) && (s <=? max_checkpoint net) then
    d ← is_dgw_height_checkpoint s;
    match d with
    | Some _ =>
        match get_target w self s (Some headers) with
        | Ok target => Ok (target, false)
        | Raise NotEnoughHeaders =>
            b ← getitem "bits" (bits hdr);
            target ← bits_to_target b;
            Ok (target, true)
        | Raise e => Raise e
        end
    | None =>
        b ← getitem "bits" (bits hdr);
        target ← bits_to_target b;
        Ok (target, false)
    end
  else
    b ← getitem "bits" (bits hdr);
    target ← bits_to_target b;
    Ok (target, true).

(** The [while p < len(data)] loop of [verify_chunk]; every round moves [p]
    forward by at least 80 bytes, so [fuel] = [len(data)] rounds are never
    used up.  The value is the height after the last header processed. *)
Fixpoint verify_chunk_loop (fuel : nat) (w : World) (self : nat)
    (data : list byte) (p : nat) (s : Z) (prev_hash : string)
    (headers : gmap Z header) : result Z :=
  match fuel with
  | O => Ok s
  | S fuel' =>
      if negb (p <? length data)%nat then Ok s
      else
        let header_len := chunk_header_len data p s in
        let raw := slice p (p + header_len) data in
        if (length raw <? header_len)%nat then Ok s
        else
          let p := (p + header_len)%nat in
          expected_header_hash ←
            match get_hash w self s with
            | Ok x => Ok (Some x)
            | Raise (MissingHeader _) => Ok None
            | Raise e => Raise e
            end;
          if negb ((length raw =? LEGACY_HEADER_SIZE)%nat
                   || (length raw =? HEADER_SIZE)%nat) then
            Raise (PlainException "Invalid header length")
          else
            hdr ← deserialize_header net raw s;
            let headers :=
              match block_height hdr with
              | Some k => <[k := hdr]> headers
              | None => headers
              end in
            '(target, skip_bits_check) ← chunk_target w self s hdr headers;
            verify_header net K hdr prev_hash target expected_header_hash
              skip_bits_check;;
            prev_hash ←
              (if (max_checkpoint net <? s)
                  && (Z.of_nat p <? Z.of_nat (length data) - 36)
               then Ok (hash_encode (slice (p + 4) (p + 36) data))
               else hash_header net K (Some hdr));
            verify_chunk_loop fuel' w self data p (s + 1) prev_hash headers
  end.

(** [Blockchain.verify_chunk] *)
Definition verify_chunk (w : World) (self : nat) (start_height : Z)
    (data : list byte) : result unit :=
  prev_hash ← get_hash w self (start_height - 1);
  s ← verify_chunk_loop (length data) w self data 0 start_height prev_hash ∅;
  let processed_headers := s - start_height in
  if (DGW_CHECKPOINTS_START net <=? start_height)
     && (start_height <=? max_checkpoint net) then
    m ← py_mod start_height (DGW_CHECKPOINTS_SPACING net);
    if negb (m =? 0) then Raise AssertionError
    else if negb (processed_headers =? DGW_CHECKPOINTS_SPACING net) then
      Raise AssertionError
    else Ok tt
  else Ok tt.

End Reading.

(** ** The chain store: writing *)

(** An operation that may change the world and may raise; what it changed
    before raising stays changed. *)
Definition io (A : Type) : Type := World -> result A * World.

#[global] Instance io_ret : MRet io := fun A a w => (Ok a, w).
#[global] Instance io_bind : MBind io := fun A B f m w =>
  match m w with
  | (Ok a, w') => f a w'
  | (Raise e, w') => (Raise e, w')
  end.

(** A computation that only reads the world. *)
Definition io_read {A} (f : World -> result A) : io A := fun w => (f w, w).
Definition io_raise {A} (e : exn) : io A := fun w => (Raise e, w).
Definition io_modify (f : World -> World) : io unit := fun w => (Ok tt, f w).
Definition io_pass : io unit := fun w => (Ok tt, w).

Definition set_heap (h : gmap nat Blockchain) (w : World) : World :=
  {| heap := h; files := files w; blockchains := blockchains w;
     _CHAINWORK_CACHE := _CHAINWORK_CACHE w |}.
Definition set_files (f : gmap string (list byte)) (w : World) : World :=
  {| heap := heap w; files := f; blockchains := blockchains w;
     _CHAINWORK_CACHE := _CHAINWORK_CACHE w |}.
Definition set_blockchains (b : gmap string nat) (w : World) : World :=
  {| heap := heap w; files := files w; blockchains := b;
     _CHAINWORK_CACHE := _CHAINWORK_CACHE w |}.
Definition set_cache (c : gmap string Z) (w : World) : World :=
  {| heap := heap w; files := files w; blockchains := blockchains w;
     _CHAINWORK_CACHE := c |}.

(** Attribute assignment on an instance. *)
Definition set_parent (p : option nat) (c : Blockchain) : Blockchain :=
  {| forkpoint := forkpoint c; parent := p;
     _forkpoint_hash := _forkpoint_hash c; _prev_hash := _prev_hash c;
     _size := _size c |}.
Definition set_forkpoint (f : Z) (c : Blockchain) : Blockchain :=
  {| forkpoint := f; parent := parent c;
     _forkpoint_hash := _forkpoint_hash c; _prev_hash := _prev_hash c;
     _size := _size c |}.
Definition set_forkpoint_hash (h : string) (c : Blockchain) : Blockchain :=
  {| forkpoint := forkpoint c; parent := parent c;
     _forkpoint_hash := h; _prev_hash := _prev_hash c; _size := _size c |}.
Definition set_prev_hash (h : option string) (c : Blockchain) : Blockchain :=
  {| forkpoint := forkpoint c; parent := parent c;
     _forkpoint_hash := _forkpoint_hash c; _prev_hash := h; _size := _size c |}.
Definition set_size (n : Z) (c : Blockchain) : Blockchain :=
  {| forkpoint := forkpoint c; parent := parent c;
     _forkpoint_hash := _forkpoint_hash c; _prev_hash := _prev_hash c;
     _size := n |}.

Definition assign (self : nat) (f : Blockchain -> Blockchain) : io unit :=
  io_modify (fun w => set_heap (alter f self (heap w)) w).

(** [Blockchain.update_size] *)
Definition update_size (self : nat) : io unit :=
  c ← io_read (fun w => deref w self);
  p ← io_read (fun _ => path c);
  sz ← io_read (fun w =>
          Ok match files w !! p with
             | Some content => Z.of_nat (length content) / Z.of_nat HEADER_SIZE
             | None => 0
             end);
  assign self (set_size sz).

(** [f.seek(n); f.truncate()]: cut the file at [n], or extend it with zero
    bytes up to [n]. *)
Definition file_truncate (content : list byte) (n : nat) : list byte :=
  firstn n content ++ repeat x00 (n - length content).

(** [f.seek(offset); f.write(data)]: a gap before [offset] is filled with
    zero bytes; writing nothing leaves the file as it is. *)
Definition file_write (content : list byte) (offset : nat) (data : list byte)
  : list byte :=
  match data with
  | [] => content
  | _ =>
      firstn offset content ++ repeat x00 (offset - length content)
      ++ data ++ skipn (offset + length data) content
  end.

(** [Blockchain.write] *)
Definition write (self : nat) (data : list byte) (offset : Z) (truncate : bool)
  : io unit :=
  c ← io_read (fun w => deref w self);
  filename ← io_read (fun _ => path c);
  content ← io_read (fun w => open_file w filename);
  if offset <? 0 then io_raise OSError
  else
    let content :=
      if truncate && negb (offset =? _size c * Z.of_nat HEADER_SIZE)
      then file_truncate content (Z.to_nat offset)
      else content in
    let content := file_write content (Z.to_nat offset) data in
    io_modify (fun w => set_files (<[filename := content]> (files w)) w);;
    update_size self.

Section Writing.
Context (net : Net) (K : Kernels).

(** The inner loop of [convert_to_kawpow_len]: [r] grows by one 120-byte
    record per round and [p] moves forward by at least 80 bytes. *)
Fixpoint convert_loop (fuel : nat) (chunk : list byte) (p : nat) (s : Z)
    (r : list byte) : list byte :=
  match fuel with
  | O => r
  | S fuel' =>
      if negb (p <? length chunk)%nat then r
      else
        let hdr_len := chunk_header_len net chunk p s in
        let r :=
          if (hdr_len =? LEGACY_HEADER_SIZE)%nat
          then r ++ slice p (p + hdr_len) chunk ++ repeat x00 40
          else r ++ slice p (p + hdr_len) chunk in
        convert_loop fuel' chunk (p + hdr_len) (s + 1) r
  end.

(** [convert_to_kawpow_len] of [save_chunk] *)
Definition convert_to_kawpow_len (start_height : Z) (chunk : list byte)
  : result (list byte) :=
  let r := convert_loop (length chunk) chunk 0 start_height [] in
  if negb (length r mod HEADER_SIZE =? 0)%nat then
    Raise (PlainException "Header extension error")
  else Ok r.

(** [Blockchain.chainwork_of_header_at_height] *)
Definition chainwork_of_header_at_height (w : World) (self : nat)
    (height_ : Z) : result Z :=
  target ← get_target net w self height_ None;
  q ← py_div (2 ^ 256 - target - 1) (target + 1);
  Ok (q + 1).

(** [for i in range(n): acc += self.chainwork_of_header_at_height(base + i + 1)] *)
Fixpoint sum_chainwork (n : nat) (w : World) (self : nat) (base i acc : Z)
  : result Z :=
  match n with
  | O => Ok acc
  | S n' =>
      x ← chainwork_of_header_at_height w self (base + i + 1);
      sum_chainwork n' w self base (i + 1) (acc + x)
  end.

(** The first [while] of [get_chainwork]: step back to a cached height. *)
Fixpoint find_cached_height (fuel : nat) (w : World) (self : nat)
    (cached_height : Z) : result Z :=
  match fuel with
  | O => Ok cached_height
  | S fuel' =>
      h ← get_hash net K w self cached_height;
      match _CHAINWORK_CACHE w !! h with
      | Some _ => Ok cached_height
      | None =>
          if cached_height <=? -1 then Ok cached_height
          else find_cached_height fuel' w self (cached_height - 2016)
      end
  end.

(** The second [while] of [get_chainwork]: fill the cache chunk by chunk. *)
Fixpoint fill_chainwork_cache (fuel : nat) (self : nat)
    (last_retarget cached_height running_total : Z) : io (Z * Z) :=
  match fuel with
  | O => mret (cached_height, running_total)
  | S fuel' =>
      if negb (cached_height <? last_retarget) then
        mret (cached_height, running_total)
      else
        work_in_chunk ← io_read (fun w =>
          sum_chainwork 2016 w self cached_height 0 0);
        let cached_height := cached_height + 2016 in
        let running_total := running_total + work_in_chunk in
        h ← io_read (fun w => get_hash net K w self cached_height);
        io_modify (fun w =>
          set_cache (<[h := running_total]> (_CHAINWORK_CACHE w)) w);;
        fill_chainwork_cache fuel' self last_retarget cached_height
          running_total
  end.

(** [Blockchain.get_chainwork] *)
Definition get_chainwork (self : nat) (height_ : option Z) : io Z :=
  c ← io_read (fun w => deref w self);
  let height_ :=
    match height_ with
    | Some h => h
    | None => Z.max 0 (height c)
    end in
  if TESTNET net then mret height_
  else
    let last_retarget := height_ / 2016 * 2016 - 1 in
    let rounds := Z.to_nat (Z.max 0 (height_ / 2016) + 2) in
    cached_height ← io_read (fun w =>
      find_cached_height rounds w self last_retarget);
    if negb (-1 <=? cached_height) then io_raise AssertionError
    else
      h ← io_read (fun w => get_hash net K w self cached_height);
      running_total ← io_read (fun w =>
        match _CHAINWORK_CACHE w !! h with
        | Some x => Ok x
        | None => Raise (KeyError h)
        end);
      '(cached_height, running_total) ←
        fill_chainwork_cache rounds self last_retarget cached_height
          running_total;
      let n := Z.to_nat (height_ - cached_height) in
      work_in_last_partial_chunk ← io_read (fun w =>
        sum_chainwork n w self cached_height 0 0);
      (* [assert cached_height + i + 1 == height] on the last [i]; the
         loop runs at least once, as cached_height <= last_retarget < height *)
      match n with
      | O => io_raise AssertionError
      | S _ => mret (running_total + work_in_last_partial_chunk)
      end.

(** [Blockchain.check_hash] *)
Definition check_hash (w : World) (self : nat) (height_ : Z)
    (header_hash : option string) : result bool :=
  match header_hash with
  | None => Raise AssertionError
  | Some header_hash =>
      if negb (String.length header_hash =? 64)%nat then Raise AssertionError
      else
        match get_hash net K w self height_ with
        | Ok h => Ok (bool_decide (header_hash = h))
        | Raise _ => Ok false
        end
  end.

(** [Blockchain.get_direct_children]: the registered instances whose parent
    is [self], in the order of the registry. *)
Definition get_direct_children (w : World) (self : nat) : list nat :=
  List.filter (fun y => match heap w !! y with
                        | Some c => bool_decide (parent c = Some self)
                        | None => false
                        end)
    (snd <$> map_to_list (blockchains w)).

(** [os.replace(src, dst)] *)
Definition os_replace (src dst : string) : io unit := fun w =>
  match files w !! src with
  | None => (Raise FileNotFoundError, w)
  | Some content =>
      (Ok tt, set_files (<[dst := content]> (delete src (files w))) w)
  end.

(** [Blockchain._swap_with_parent] *)
Definition _swap_with_parent (self : nat) : io bool :=
  c ← io_read (fun w => deref w self);
  match parent c with
  | None => mret false
  | Some parent_ =>
      parent_work ← get_chainwork parent_ None;
      self_work ← get_chainwork self None;
      if self_work <=? parent_work then mret false
      else
        c ← io_read (fun w => deref w self);
        pc ← io_read (fun w => deref w parent_);
        let parent_branch_size := height pc - forkpoint c + 1 in
        let forkpoint_ := forkpoint c in
        let child_old_id := _forkpoint_hash c in
        let parent_old_id := _forkpoint_hash pc in
        child_old_name ← io_read (fun _ => path c);
        my_data ← io_read (fun w => open_file w child_old_name);
        parent_name ← io_read (fun _ => path pc);
        parent_content ← io_read (fun w => open_file w parent_name);
        if negb (forkpoint pc <? forkpoint_) then io_raise AssertionError
        else
          let seek := (forkpoint_ - forkpoint pc) * Z.of_nat HEADER_SIZE in
          let count := parent_branch_size * Z.of_nat HEADER_SIZE in
          if count <? 0 then io_raise ValueError
          else
            let parent_data :=
              firstn (Z.to_nat count) (skipn (Z.to_nat seek) parent_content) in
            write self parent_data 0 true;;
            write parent_ my_data seek true;;
            (* swap parameters: each right-hand side is read before the
               two assignments of its line *)
            c ← io_read (fun w => deref w self);
            pc ← io_read (fun w => deref w parent_);
            assign self (set_parent (parent pc));;
            assign parent_ (set_parent (Some self));;
            c ← io_read (fun w => deref w self);
            pc ← io_read (fun w => deref w parent_);
            assign self (set_forkpoint (forkpoint pc));;
            assign parent_ (set_forkpoint (forkpoint c));;
            c ← io_read (fun w => deref w self);
            pc ← io_read (fun w => deref w parent_);
            first ← io_read (fun _ =>
              hd ← deserialize_header net (firstn HEADER_SIZE parent_data)
                     forkpoint_;
              hash_header net K (Some hd));
            assign self (set_forkpoint_hash (_forkpoint_hash pc));;
            assign parent_ (set_forkpoint_hash first);;
            c ← io_read (fun w => deref w self);
            pc ← io_read (fun w => deref w parent_);
            assign self (set_prev_hash (_prev_hash pc));;
            assign parent_ (set_prev_hash (_prev_hash c));;
            (* parent's new name *)
            pc ← io_read (fun w => deref w parent_);
            parent_new_name ← io_read (fun _ => path pc);
            os_replace child_old_name parent_new_name;;
            update_size self;;
            update_size parent_;;
            (* update pointers *)
            io_modify (fun w =>
              set_blockchains (delete child_old_id (blockchains w)) w);;
            io_modify (fun w =>
              set_blockchains (delete parent_old_id (blockchains w)) w);;
            c ← io_read (fun w => deref w self);
            io_modify (fun w =>
              set_blockchains (<[_forkpoint_hash c := self]> (blockchains w)) w);;
            pc ← io_read (fun w => deref w parent_);
            io_modify (fun w =>
              set_blockchains
                (<[_forkpoint_hash pc := parent_]> (blockchains w)) w);;
            mret true
  end.

(** [for old_sibling in old_parent.get_direct_children(): ...] *)
Fixpoint reparent_siblings (self : nat) (siblings : list nat) : io unit :=
  match siblings with
  | [] => io_pass
  | old_sibling :: rest =>
      sc ← io_read (fun w => deref w old_sibling);
      b ← io_read (fun w =>
             check_hash w self (forkpoint sc - 1) (_prev_hash sc));
      (if (b : bool) then assign old_sibling (set_parent (Some self))
       else io_pass);;
      reparent_siblings self rest
  end.

(** The [while True] loop of [swap_with_parent].  Every successful swap
    moves [self] one parent link up, so on a heap without a cycle of parent
    links one round per instance is enough; [fuel] is set to that. *)
Fixpoint swap_with_parent_loop (fuel : nat) (self : nat) (cnt : Z) : io unit :=
  match fuel with
  | O => io_raise (PlainException "swapping fork with parent too many times")
  | S fuel' =>
      c ← io_read (fun w => deref w self);
      let old_parent := parent c in
      swapped ← _swap_with_parent self;
      if negb (swapped : bool) then io_pass
      else
        let cnt := cnt + 1 in
        n ← io_read (fun w => Ok (Z.of_nat (size (blockchains w))));
        if n <? cnt then
          io_raise (PlainException "swapping fork with parent too many times")
        else
          match old_parent with
          | None => io_raise AttributeError
          | Some old_parent =>
              siblings ← io_read (fun w =>
                Ok (get_direct_children w old_parent));
              reparent_siblings self siblings;;
              swap_with_parent_loop fuel' self cnt
          end
  end.

(** [Blockchain.swap_with_parent] *)
Definition swap_with_parent (self : nat) : io unit := fun w =>
  swap_with_parent_loop (S (size (heap w))) self 0 w.

(** [Blockchain.save_chunk].  A fork chain hands a chunk of the checkpoint
    region to [get_best_chain()], which is one more call at most unless
    that chain has a parent itself. *)
Fixpoint save_chunk_from (fuel : nat) (self : nat) (start_height : Z)
    (chunk : list byte) : io unit :=
  match fuel with
  | O => io_raise RecursionError
  | S fuel' =>
      if negb (0 <=? start_height) then io_raise AssertionError
      else
        c ← io_read (fun w => deref w self);
        let chunk_within_checkpoint_region :=
          start_height <=? max_checkpoint net in
        if chunk_within_checkpoint_region
           && bool_decide (is_Some (parent c)) then
          main_chain ← io_read (fun w =>
            match blockchains w !! GENESIS net with
            | Some r => Ok r
            | None => Raise (KeyError (GENESIS net))
            end);
          save_chunk_from fuel' main_chain start_height chunk
        else
          let delta_height := start_height - forkpoint c in
          let delta_bytes := delta_height * Z.of_nat HEADER_SIZE in
          let '(chunk, delta_bytes) :=
            if delta_bytes <? 0
            then (skipn (Z.to_nat (- delta_bytes)) chunk, 0)
            else (chunk, delta_bytes) in
          let truncate := negb chunk_within_checkpoint_region in
          chunk ← io_read (fun _ => convert_to_kawpow_len start_height chunk);
          write self chunk delta_bytes truncate;;
          saved_header ← io_read (fun w => read_header net w self start_height);
          expected_header ← io_read (fun _ =>
            deserialize_header net (firstn HEADER_SIZE chunk) start_height);
          match saved_header with
          | None => io_raise AttributeError
          | Some saved_header =>
              if negb (bool_decide (saved_header = expected_header)) then
                io_raise AssertionError
              else swap_with_parent self
          end
  end.

Definition save_chunk (self : nat) (start_height : Z) (chunk : list byte)
  : io unit :=
  save_chunk_from 2 self start_height chunk.

(** [Blockchain.connect_chunk]: the assertion on [start_height] is outside
    the [try]; every exception inside it becomes [False]. *)
Definition connect_chunk (self : nat) (start_height : Z) (hexdata : string)
  : io bool := fun w =>
  if negb (0 <=? start_height) then (Raise AssertionError, w)
  else
    match bfh hexdata with
    | Raise _ => (Ok false, w)
    | Ok data =>
        match verify_chunk net K w self start_height data with
        | Raise _ => (Ok false, w)
        | Ok _ =>
            match save_chunk self start_height data w with
            | (Ok _, w') => (Ok true, w')
            | (Raise _, w') => (Ok false, w')
            end
        end
    end.

End Writing.

Definition empty_world : World :=
  {| heap := ∅; files := ∅; blockchains := ∅; _CHAINWORK_CACHE := ∅ |}.

(** Testnet with an empty DGW checkpoint table (the fallback of
    [read_json]) and an AuxPOW activation height picked for the examples;
    its last checkpoint height is 0. *)
Definition example_testnet : Net := MeowcoinTestnet [] 1000.

(** The main chain of [example_testnet] holding three records, heights 0
    to 2. *)
Definition example_main_chain : Blockchain := {|
  forkpoint := 0;
  parent := None;
  _forkpoint_hash := GENESIS example_testnet;
  _prev_hash := None;
  _size := 3
|}.

Definition example_world : World := {|
  heap := {[ 0%nat := example_main_chain ]};
  files := {[ "blockchain_headers"%string := repeat x01 360 ]};
  blockchains := {[ GENESIS example_testnet := 0%nat ]};
  _CHAINWORK_CACHE :=
    {[ "0000000000000000000000000000000000000000000000000000000000000000"%string
       := 0 ]}
|}.

(** What [write] leaves in the file: the old content, cut at the offset
    when [truncate] is set and the offset is not the recorded end, with the
    data put at the offset. *)
Definition written_content (c : Blockchain) (old data : list byte)
    (offset : Z) (truncate : bool) : list byte :=
  file_write
    (if truncate && negb (offset =? _size c * Z.of_nat HEADER_SIZE)
     then file_truncate old (Z.to_nat offset) else old)
    (Z.to_nat offset) data.

(** The world after [self] has written [content] to its file [name] and
    re-read its size. *)
Definition world_after_write (w : World) (self : nat) (name : string)
    (content : list byte) : World :=
  set_heap
    (alter (set_size (Z.of_nat (length content) / Z.of_nat HEADER_SIZE)) self
       (heap w))
    (set_files (<[name := content]> (files w)) w).

(** One 120-byte header that links to the tip of [example_world] under
    [example_kernels]. *)
Definition example_chunk : list byte :=
  le_bytes 4 1 ++ repeat xff 32 ++ repeat x00 32 ++ le_bytes 4 0
  ++ le_bytes 4 0 ++ le_bytes 4 3 ++ le_bytes 8 0 ++ repeat x00 32.

(** ** Records that read as zero-padded AuxPOW headers

    The test [deserialize_header] applies to a 120-byte input (and
    [read_header] to a stored record): AuxPOW is active at the height, bit 8
    of the version is set and the last 40 bytes are zero. *)
Definition reads_as_padded_auxpow (net : Net) (s : list byte) (height : Z)
  : bool :=
  (length s =? HEADER_SIZE)%nat
  && (AuxPowActivationHeight net <=? height)
  && auxpow_bit (int_from_bytes_little (slice 0 4 s))
  && bytes_eqb (skipn LEGACY_HEADER_SIZE s)
       (repeat x00 (HEADER_SIZE - LEGACY_HEADER_SIZE)).

(** ** The walk of [verify_chunk] over a chunk *)

(** The records the [while] loop of [verify_chunk] walks through, with
    their heights: whole headers only, cut by the same length rule. *)
Fixpoint chunk_records (net : Net) (fuel : nat) (data : list byte) (p : nat)
    (s : Z) : list (list byte * Z) :=
  match fuel with
  | O => []
  | S fuel' =>
      if negb (p <? length data)%nat then []
      else
        let header_len := chunk_header_len net data p s in
        let raw := slice p (p + header_len) data in
        if (length raw <? header_len)%nat then []
        else (raw, s) :: chunk_records net fuel' data (p + header_len) (s + 1)
  end.

(** A test network whose checkpoint windows are two blocks long, with one
    window in its table; everything else as on testnet. *)
Definition short_window_net : Net := {|
  TESTNET := true;
  GENESIS := GENESIS example_testnet;
  CHECKPOINTS := [];
  DGW_CHECKPOINTS :=
    [((GENESIS example_testnet, 0), (hex (repeat xff 32), 0))];
  DGW_CHECKPOINTS_SPACING := 2;
  DGW_CHECKPOINTS_START := 0;
  X16Rv2ActivationTS := 1567533600;
  KawpowActivationTS := 1585159201;
  KawpowActivationHeight := 1;
  MeowpowActivationTS := 1585159200;
  nDGWActivationBlock := 1;
  AuxPowActivationHeight := 1000
|}.

(** The chunk of its first window: an 80-byte header at height 0 and a
    120-byte header at height 1 that links to it under [example_kernels]. *)
Definition short_window_chunk : list byte :=
  (le_bytes 4 1 ++ repeat x00 32 ++ repeat x00 44)
  ++ (le_bytes 4 1 ++ repeat xff 32 ++ repeat x00 84).

(** A 120-byte header for height 4 whose 'prev_block_hash' field (32 bytes
    of 0x11) is the hash of no header. *)
Definition unlinked_header : list byte :=
  le_bytes 4 1 ++ repeat x11 32 ++ repeat x00 32 ++ le_bytes 4 0
  ++ le_bytes 4 0 ++ le_bytes 4 4 ++ le_bytes 8 0 ++ repeat x00 32.

(** ** Stored records *)

(** What [read_header] makes of the 120-byte record [rec] stored for
    [height_]: nothing if the record is all zero, else its decoding. *)
Definition decode_record (net : Net) (rec : list byte) (height_ : Z)
  : result (option header) :=
  if bytes_eqb rec (repeat x00 HEADER_SIZE) then Ok None
  else hd ← deserialize_header net rec height_; Ok (Some hd).

(** Whether the read-back check of [save_chunk] passes on the normalised
    chunk [r]: there is a first record and it is not all zero. *)
Definition first_record_readable (r : list byte) : bool :=
  negb (bool_decide (r = []))
  && negb (bytes_eqb (firstn HEADER_SIZE r) (repeat x00 HEADER_SIZE)).

(** A record as [convert_to_kawpow_len] stores it: an 80-byte header is
    followed by 40 zero bytes. *)
Definition pad_record (raw : list byte) : list byte :=
  if (length raw =? LEGACY_HEADER_SIZE)%nat then raw ++ repeat x00 40 else raw.

(** ** Saving single headers; connecting a header to a chain *)

(** [Blockchain.save_header] *)
Definition save_header (net : Net) (K : Kernels) (self : nat)
    (header : header) : io unit :=
  c ← io_read (fun w => deref w self);
  delta ← io_read (fun _ =>
    match block_height header with
    | Some h => Ok (h - forkpoint c)
    | None => Raise TypeError
    end);
  s ← io_read (fun _ => serialize_header header);
  data ← io_read (fun _ => bfh s);
  if negb (delta =? _size c) then io_raise AssertionError
  else
    let data :=
      if (length data =? LEGACY_HEADER_SIZE)%nat
      then data ++ repeat x00 (HEADER_SIZE - LEGACY_HEADER_SIZE)
      else data in
    if negb (length data =? HEADER_SIZE)%nat then io_raise AssertionError
    else
      write self data (delta * Z.of_nat HEADER_SIZE) true;;
      swap_with_parent net K self.

(** [Blockchain.header_at_tip] *)
Definition header_at_tip (net : Net) (w : World) (self : nat)
  : result (option header) :=
  c ← deref w self;
  let height_ := height c in
  read_header net w self height_.

(** A header dict that [save_header] stores in a form [read_header] decodes
    back to the same dict at [height_]: the 120-byte form, not all zero; or
    the 80-byte form of an AuxPOW header. *)
Definition reads_back (net : Net) (h : header) (height_ : Z) : bool :=
  (extended_shaped net h height_
   && negb (bytes_eqb (wire_bytes h) (repeat x00 HEADER_SIZE)))
  || (legacy_shaped h height_ && is_auxpow_header net h).

(** The 120 bytes [save_header] writes for a header dict in decoder form. *)
Definition stored_record (h : header) : list byte :=
  if (length (wire_bytes h) =? LEGACY_HEADER_SIZE)%nat
  then wire_bytes h ++ repeat x00 (HEADER_SIZE - LEGACY_HEADER_SIZE)
  else wire_bytes h.

(** The header dict that [example_chunk] decodes to at height 3. *)
Definition example_tip_header : header := {|
  version := Some 1;
  prev_block_hash := Some (hex (repeat xff 32));
  merkle_root := Some zero_hash;
  timestamp := Some 0;
  bits := Some 0;
  nonce := Some 0;
  nheight := Some 3; nonce64 := None;
  mix_hash := Some zero_hash;
  block_height := Some 3
|}.

(** [Blockchain.can_connect].  [header] is [None] or a header dict. *)
Definition can_connect (net : Net) (K : Kernels) (w : World) (self : nat)
    (header : option header) (check_height : bool) : result bool :=
  match header with
  | None => Ok false
  | Some hd =>
      height_ ← getitem "block_height" (block_height hd);
      c ← deref w self;
      if check_height && negb (height c =? height_ - 1) then Ok false
      else if height_ =? 0 then
        x ← hash_header net K (Some hd);
        let result_ := bool_decide (x = GENESIS net) in
        Ok result_
      else
        match get_hash net K w self (height_ - 1) with
        | Raise _ => Ok false
        | Ok prev_hash =>
            if negb (bool_decide (Some prev_hash = prev_block_hash hd))
            then Ok false
            else
              let headers := ({[ height_ := hd ]} : gmap Z _) in
              target ←
                (if max_checkpoint net <? height_ then
                   b ← getitem "bits" (bits hd);
                   target ← bits_to_target b;
                   Ok (Some (target, true))
                 else
                   match get_target net w self height_ (Some headers) with
                   | Ok target => Ok (Some (target, false))
                   | Raise (MissingHeader k) => Raise (MissingHeader k)
                   | Raise NotEnoughHeaders => Raise NotEnoughHeaders
                   | Raise _ => Ok None
                   end);
              match target with
              | None => Ok false
              | Some (target, skip_bits_check) =>
                  match verify_header net K hd prev_hash target None
                          skip_bits_check with
                  | Ok _ => Ok true
                  | Raise _ => Ok false
                  end
              end
        end
  end.

(** A header dict for height 4 that links to [example_tip_header] under
    [example_kernels]. *)
Definition example_next_header : header := {|
  version := Some 1;
  prev_block_hash := Some (hex (repeat xff 32));
  merkle_root := Some zero_hash;
  timestamp := Some 0;
  bits := Some 0;
  nonce := Some 0;
  nheight := Some 4; nonce64 := None;
  mix_hash := Some zero_hash;
  block_height := Some 4
|}.

(** [example_tip_header] with a 'bits' field that encodes a negative
    target. *)
Definition example_bad_bits_header : header := {|
  version := Some 1;
  prev_block_hash := Some (hex (repeat xff 32));
  merkle_root := Some zero_hash;
  timestamp := Some 0;
  bits := Some 0x01fedcba;
  nonce := Some 0;
  nheight := Some 3; nonce64 := None;
  mix_hash := Some zero_hash;
  block_height := Some 3
|}.

(** ** Retarget windows *)



(** Whether the targets of the blocks the LWMA walk collected for
    [height_] all lie between [lo] and [hi]. *)
Definition lwma_window_between (net : Net) (w : World) (self : nat)
    (chain : option (gmap Z header)) (height_ lo hi : Z) : bool :=
  match lwma_current_header chain height_ with
  | None => true
  | Some cur =>
      forallb
        (fun blk =>
           match bits blk with
           | Some b =>
               match bits_to_target b with
               | Ok v => (lo <=? v) && (v <=? hi)
               | Raise _ => true
               end
           | None => true
           end)
        (lwma_collect net (lwma_walk_length height_) w self chain
           (get_block_algo net cur height_) (height_ - 1) [])
  end.

(** A chain dict holding [example_auxpow_header] at height 1614655 and at
    the 95 heights below, down to AuxPOW activation. *)
Definition example_lwma_chain : gmap Z header :=
  list_to_map
    (map (fun k => (1614655 - Z.of_nat k, example_auxpow_header)) (seq 0 96)).

(** ** The main chain's header file *)

(** [get_best_chain] *)
Definition get_best_chain (net : Net) (w : World) : result nat :=
  match blockchains w !! GENESIS net with
  | Some r => Ok r
  | None => Raise (KeyError (GENESIS net))
  end.

(** [init_headers_file_for_best_chain].  Opening with 'wb' empties the
    file; seeking to [length - 1] and writing one zero byte leaves [length]
    zero bytes. *)
Definition init_headers_file_for_best_chain (net : Net) : io unit :=
  b ← io_read (get_best_chain net);
  c ← io_read (fun w => deref w b);
  filename ← io_read (fun _ => path c);
  let length_ := Z.of_nat HEADER_SIZE * (max_checkpoint net + 1) in
  missing_or_short ← io_read (fun w =>
    Ok match files w !! filename with
       | None => true
       | Some content => Z.of_nat (length content) <? length_
       end);
  (if (missing_or_short : bool) then
     io_modify (fun w =>
       set_files
         (<[filename := if 0 <? length_
                        then repeat x00 (Z.to_nat (length_ - 1)) ++ [x00]
                        else []]> (files w)) w)
   else io_pass);;
  update_size b.

(** ** Headers stored in 80-byte form *)

(** The dict [read_header] gives for an 80-byte-form header that was
    stored zero-padded and does not read as AuxPOW: the four nonce bytes
    come back under 'nheight', with a zero nonce and a zero mix hash. *)
Definition as_stored (h : header) : header := {|
  version := version h;
  prev_block_hash := prev_block_hash h;
  merkle_root := merkle_root h;
  timestamp := timestamp h;
  bits := bits h;
  nonce := Some 0;
  nheight := nonce h;
  nonce64 := None;
  mix_hash := Some zero_hash;
  block_height := block_height h
|}.

(** An 80-byte-form header dict for height 3 of [example_world]'s chain. *)
Definition example_legacy_tip_header : header := {|
  version := Some 4;
  prev_block_hash := Some (hex (repeat xff 32));
  merkle_root := Some example_merkle;
  timestamp := Some 1566571889;
  bits := Some 0x1e00ffff;
  nonce := Some 351574;
  nheight := None; nonce64 := None; mix_hash := None;
  block_height := Some 3
|}.

(** ** Swapping a fork with its parent *)

(** Two worlds with the same instances, files and registry: they differ in
    the chainwork cache at most. *)
Definition same_store (w1 w2 : World) : Prop :=
  heap w1 = heap w2 /\ files w1 = files w2 /\ blockchains w1 = blockchains w2.

(** What [read_header] makes of the bytes it read at a record's offset. *)
Definition read_record (net : Net) (rec : list byte) (height_ : Z)
  : result (option header) :=
  if (length rec <? 120)%nat then
    Raise (PlainException "Expected to read a full header")
  else decode_record net rec height_.

(** What a swap of [self] (instance [c], file content [cdata]) with its
    parentless parent [p] (instance [pc], main file content [pdata]) leaves
    in the world [w']: the two instances with their parameters exchanged
    and the two files. *)
Definition swap_result (net : Net) (K : Kernels) (self p : nat)
    (c pc : Blockchain) (cdata pdata : list byte) (w' : World) : Prop :=
  let seek := (forkpoint c - forkpoint pc) * 120 in
  let count := (height pc - forkpoint c + 1) * 120 in
  let parent_data :=
    firstn (Z.to_nat count) (skipn (Z.to_nat seek) pdata) in
  let child_file := written_content c cdata parent_data 0 true in
  let main_file := written_content pc pdata cdata seek true in
  forkpoint pc < forkpoint c /\ 0 <= count /\
  exists first pname c' pc',
    (hd ← deserialize_header net (firstn 120 parent_data) (forkpoint c);
     hash_header net K (Some hd)) = Ok first /\
    heap w' !! self = Some c' /\ heap w' !! p = Some pc' /\
    c' = {| forkpoint := forkpoint pc; parent := None;
            _forkpoint_hash := _forkpoint_hash pc;
            _prev_hash := _prev_hash pc;
            _size := Z.of_nat (length main_file) / 120 |} /\
    pc' = {| forkpoint := forkpoint c; parent := Some self;
             _forkpoint_hash := first;
             _prev_hash := _prev_hash c;
             _size := Z.of_nat (length child_file) / 120 |} /\
    path pc' = Ok pname /\
    files w' !! "blockchain_headers"%string = Some main_file /\
    files w' !! pname = Some child_file.

(** A fork of [example_main_chain] at height 2 that is one header longer
    than it, and a world holding both chains. *)
Definition example_fork_chain : Blockchain := {|
  forkpoint := 2;
  parent := Some 0%nat;
  _forkpoint_hash := hex (repeat xff 32);
  _prev_hash := Some (hex (repeat xff 32));
  _size := 2
|}.

Definition example_fork_name : string :=
  "forks/fork2_2_" +:+ hex (repeat xff 32) +:+ "_" +:+ hex (repeat xff 32).

Definition example_fork_world : World := {|
  heap := {[ 0%nat := example_main_chain; 1%nat := example_fork_chain ]};
  files := {[ "blockchain_headers"%string := repeat x01 360;
              example_fork_name := repeat x01 240 ]};
  blockchains := {[ GENESIS example_testnet := 0%nat;
                    hex (repeat xff 32) := 1%nat ]};
  _CHAINWORK_CACHE :=
    {[ "0000000000000000000000000000000000000000000000000000000000000000"%string
       := 0 ]}
|}.

(** ** The last block two chains share *)

(** A Python dict keyed by [Blockchain] instances, in insertion order.
    Assigning to a key that is present replaces its value in place. *)
Definition dict_get (k : nat) (d : list (nat * Z)) : option Z :=
  snd <$> List.find (fun kv => (fst kv =? k)%nat) d.

Definition dict_set (k : nat) (v : Z) (d : list (nat * Z)) : list (nat * Z) :=
  if existsb (fun kv => (fst kv =? k)%nat) d
  then map (fun kv => if (fst kv =? k)%nat then (k, v) else kv) d
  else d ++ [(k, v)].

(** The [while True] loop of [get_parent_heights].  On a cycle of parent
    links Python never leaves the loop; the walk visits one instance per
    round, so a walk that has not ended after one round per instance of the
    heap is on a cycle, and the model answers [None] for it. *)
Fixpoint parent_heights_loop (fuel : nat) (w : World) (chain : nat)
    (result_ : list (nat * Z)) : option (result (list (nat * Z))) :=
  match fuel with
  | O => None
  | S fuel' =>
      match deref w chain with
      | Raise e => Some (Raise e)
      | Ok c =>
          match parent c with
          | None => Some (Ok result_)
          | Some parent_ =>
              parent_heights_loop fuel' w parent_
                (dict_set parent_ (forkpoint c - 1) result_)
          end
      end
  end.

(** [Blockchain.get_parent_heights] *)
Definition get_parent_heights (w : World) (self : nat)
  : option (result (list (nat * Z))) :=
  match deref w self with
  | Raise e => Some (Raise e)
  | Ok c => parent_heights_loop (S (size (heap w))) w self [(self, height c)]
  end.

(** The [for chain in our_parents] loop of
    [get_height_of_last_common_block_with_chain]. *)
Definition common_block_loop (our_parents their_parents : list (nat * Z))
  : Z :=
  fold_left
    (fun last_common_block_height kv =>
       match dict_get (fst kv) their_parents with
       | Some theirs =>
           let h := Z.min (snd kv) theirs in
           Z.max last_common_block_height h
       | None => last_common_block_height
       end)
    our_parents 0.

(** [Blockchain.get_height_of_last_common_block_with_chain] *)
Definition get_height_of_last_common_block_with_chain (w : World)
    (self other_chain : nat) : option (result Z) :=
  match get_parent_heights w self with
  | None => None
  | Some (Raise e) => Some (Raise e)
  | Some (Ok our_parents) =>
      match get_parent_heights w other_chain with
      | None => None
      | Some (Raise e) => Some (Raise e)
      | Some (Ok their_parents) =>
          Some (Ok (common_block_loop our_parents their_parents))
      end
  end.

Definition keys_unique (d : list (nat * Z)) : Prop := NoDup (fst <$> d).

(** ** Chainwork *)




(** * Verification *)

(** [lia] reads [/] and [mod] through their Euclidean equations. *)
Ltac Zify.zify_post_hook ::= Z.to_euclidean_division_equations.

Example tb1 : target_to_bits 0x1234560000 = Ok 0x05123456.
Proof. reflexivity. Qed.
Example tb2 : target_to_bits 0xc0de000000 = Ok 0x0600c0de.
Proof. reflexivity. Qed.
Example tb3 : bits_to_target 0x01123456 = Ok 0x12.
Proof. reflexivity. Qed.
Example tb4 : target_to_bits 0x12 = Ok 0x01120000.
Proof. reflexivity. Qed.
Example tb5 : bits_to_target 0x01fedcba = Raise (InvalidHeader NegativeTarget).
Proof. reflexivity. Qed.
Example tb6 : bits_to_target 0xff123456 = Raise (InvalidHeader TargetOverflown).
Proof. reflexivity. Qed.
Example tb7 : target_to_bits 0 = Ok 0.
Proof. reflexivity. Qed.

(** ** Bytes and integers: basic facts *)

Lemma byte_to_Z_range (b : byte) : 0 <= byte_to_Z b < 256.
Proof.
  unfold byte_to_Z. pose proof (Byte.to_N_bounded b). lia.
Qed.

Lemma byte_to_of_Z (z : Z) : 0 <= z < 256 -> byte_to_Z (byte_of_Z z) = z.
Proof.
  intros Hz. unfold byte_to_Z, byte_of_Z.
  rewrite Z.mod_small by lia.
  destruct (Byte.of_N (Z.to_N z)) eqn:E.
  - apply Byte.to_of_N in E. lia.
  - apply Byte.of_N_None_iff in E. lia.
Qed.

Lemma byte_of_to_Z (b : byte) : byte_of_Z (byte_to_Z b) = b.
Proof.
  unfold byte_to_Z, byte_of_Z. pose proof (Byte.to_N_bounded b).
  rewrite Z.mod_small by lia. rewrite N2Z.id, Byte.of_to_N. reflexivity.
Qed.

Lemma byte_of_Z_mod (z : Z) : byte_of_Z (z mod 256) = byte_of_Z z.
Proof.
  unfold byte_of_Z. rewrite Z.mod_mod by lia. reflexivity.
Qed.

Lemma byte_of_Z_zero (z : Z) : 0 <= z < 256 -> (byte_of_Z z = x00 <-> z = 0).
Proof.
  intros Hz. split.
  - intros E. apply (f_equal byte_to_Z) in E.
    rewrite byte_to_of_Z in E by lia. exact E.
  - intros ->. reflexivity.
Qed.

Lemma length_be_bytes (n : nat) (v : Z) : length (be_bytes n v) = n.
Proof. induction n; simpl; congruence. Qed.

Lemma length_le_bytes (n : nat) (v : Z) : length (le_bytes n v) = n.
Proof. revert v. induction n; intros v; simpl; congruence. Qed.

(** ** Target arithmetic *)

Lemma land_pow2_testbit (a n : Z) :
  0 <= n -> Z.land a (2 ^ n) = if Z.testbit a n then 2 ^ n else 0.
Proof.
  intros Hn. apply Z.bits_inj'. intros k Hk.
  rewrite Z.land_spec, Z.pow2_bits_eqb by lia.
  destruct (Z.eqb_spec n k) as [->|Hne].
  - destruct (Z.testbit a k) eqn:E; simpl.
    + rewrite Z.pow2_bits_true by lia. reflexivity.
    + rewrite Z.bits_0. reflexivity.
  - rewrite andb_false_r.
    destruct (Z.testbit a n).
    + rewrite Z.pow2_bits_false by lia. reflexivity.
    + rewrite Z.bits_0. reflexivity.
Qed.

Lemma testbit_div_mod (a n : Z) :
  0 <= n -> Z.testbit a n = ((a / 2 ^ n) mod 2 =? 1).
Proof.
  intros Hn. rewrite <- Z.testbit_spec' by lia.
  destruct (Z.testbit a n); reflexivity.
Qed.

Lemma bits_exponent (b : Z) :
  Z.land (Z.shiftr b 24) 0xff = compact_exponent b.
Proof.
  unfold compact_exponent. rewrite Z.shiftr_div_pow2 by lia.
  change 0xff with (Z.ones 8). rewrite Z.land_ones by lia. reflexivity.
Qed.

Lemma bits_mantissa (b : Z) : Z.land b 0x7fffff = compact_mantissa b.
Proof.
  unfold compact_mantissa. change 0x7fffff with (Z.ones 23).
  rewrite Z.land_ones by lia. reflexivity.
Qed.

Lemma bits_sign (b : Z) :
  negb (Z.land b 0x800000 =? 0) = compact_sign b.
Proof.
  unfold compact_sign. change 0x800000 with (2 ^ 23).
  rewrite land_pow2_testbit by lia. rewrite testbit_div_mod by lia.
  destruct (_ =? 1); reflexivity.
Qed.

Lemma compact_exponent_range (b : Z) : 0 <= compact_exponent b < 256.
Proof. unfold compact_exponent. apply Z.mod_pos_bound. lia. Qed.

Lemma compact_mantissa_range (b : Z) : 0 <= compact_mantissa b < 2 ^ 23.
Proof. unfold compact_mantissa. apply Z.mod_pos_bound. lia. Qed.

Lemma pow2_8 (k : Z) : 0 <= k -> 2 ^ (8 * k) = 256 ^ k.
Proof. intros Hk. rewrite Z.pow_mul_r by lia. reflexivity. Qed.

Lemma bits_value (b : Z) :
  (if Z.land (Z.shiftr b 24) 0xff <=? 3
   then Z.shiftr (Z.land b 0x7fffff) (8 * (3 - Z.land (Z.shiftr b 24) 0xff))
   else Z.shiftl (Z.land b 0x7fffff) (8 * (Z.land (Z.shiftr b 24) 0xff - 3)))
  = compact_value b.
Proof.
  rewrite bits_exponent, bits_mantissa. unfold compact_value.
  pose proof (compact_exponent_range b) as HN.
  destruct (Z.leb_spec (compact_exponent b) 3).
  - rewrite Z.shiftr_div_pow2, pow2_8 by lia. reflexivity.
  - rewrite Z.shiftl_mul_pow2, pow2_8 by lia. reflexivity.
Qed.

(** [bits_to_target] in terms of the arithmetic reading. *)
Lemma bits_to_target_unfold (b : Z) :
  bits_to_target b =
    if negb (is_uint32 b) then Raise (InvalidHeader BitsNotUint32)
    else if compact_negative b then Raise (InvalidHeader NegativeTarget)
    else if compact_overflows b then Raise (InvalidHeader TargetOverflown)
    else Ok (compact_value b).
Proof.
  unfold bits_to_target, is_uint32, compact_negative, compact_overflows.
  change (Z.shiftl 1 32) with (2 ^ 32).
  destruct (negb _); [reflexivity|].
  cbv zeta. rewrite bits_value, bits_sign, bits_exponent, bits_mantissa.
  reflexivity.
Qed.

Lemma compact_value_nonneg (b : Z) : 0 <= compact_value b.
Proof.
  unfold compact_value.
  pose proof (compact_mantissa_range b). pose proof (compact_exponent_range b).
  destruct (Z.leb_spec (compact_exponent b) 3).
  - apply Z.div_pos; [lia|]. apply Z.pow_pos_nonneg; lia.
  - apply Z.mul_nonneg_nonneg; [lia|]. apply Z.pow_nonneg. lia.
Qed.

Lemma compact_value_bound (b : Z) :
  compact_overflows b = false -> compact_value b < 2 ^ 256.
Proof.
  unfold compact_overflows. intros H.
  destruct (Z.eqb_spec (compact_value b) 0) as [E|E]; [rewrite E; lia|].
  simpl in H. revert H E. unfold compact_value.
  pose proof (compact_mantissa_range b) as Hm.
  pose proof (compact_exponent_range b) as HN.
  set (N := compact_exponent b) in *. set (m := compact_mantissa b) in *.
  intros H E.
  destruct (Z.leb_spec N 3).
  - assert (m / 256 ^ (3 - N) <= m).
    { apply Z.div_le_upper_bound; [apply Z.pow_pos_nonneg; lia|].
      assert (0 < 256 ^ (3 - N)) by (apply Z.pow_pos_nonneg; lia).
      assert (0 <= m) by lia. nia. }
    change (2 ^ 23) with 8388608 in Hm. lia.
  - assert (HN34 : N <= 34) by lia.
    assert (Hc : N <= 32 \/ (N = 33 /\ m <= 0xffff) \/ (N = 34 /\ m <= 0xff)) by lia.
    destruct Hc as [Hc|[[-> Hc]|[-> Hc]]].
    + assert (256 ^ (N - 3) <= 256 ^ 29) by (apply Z.pow_le_mono_r; lia).
      assert (0 < 256 ^ (N - 3)) by (apply Z.pow_pos_nonneg; lia).
      change (2 ^ 256) with (2 ^ 24 * 256 ^ 29). nia.
    + change (256 ^ (33 - 3)) with (256 ^ 30).
      change (2 ^ 256) with (2 ^ 16 * 256 ^ 30). nia.
    + change (256 ^ (34 - 3)) with (256 ^ 31).
      change (2 ^ 256) with (2 ^ 8 * 256 ^ 31). nia.
Qed.

(** C5 (as amended): [bits_to_target] raises [InvalidHeader] exactly on
    inputs outside the unsigned 32-bit range, on negative encodings, and on
    over-range values, the latter being: target non-zero and N>34, or N>33
    with base>0xff, or N>32 with base>0xffff.  Every other input yields the
    decoded target, which fits 256 bits. *)
Theorem bits_to_target_rejects_exactly (b : Z) :
  match bits_to_target b with
  | Raise e =>
      is_invalid_header e = true /\
      (is_uint32 b = false \/ compact_negative b = true
       \/ compact_overflows b = true)
  | Ok t =>
      is_uint32 b = true /\ compact_negative b = false /\
      compact_overflows b = false /\
      t = compact_value b /\ 0 <= t < 2 ^ 256
  end.
Proof.
  rewrite bits_to_target_unfold.
  destruct (is_uint32 b) eqn:Hu; simpl.
  2: { split; [reflexivity|]. left. reflexivity. }
  destruct (compact_negative b) eqn:Hn.
  { split; [reflexivity|]. right. left. reflexivity. }
  destruct (compact_overflows b) eqn:Ho.
  { split; [reflexivity|]. right. right. reflexivity. }
  repeat split; auto using compact_value_nonneg, compact_value_bound.
Qed.

(** C5, as the specification words its over-range thresholds, fails: the
    compact value 0x22000100 (N = 34, base = 0x100) is inside the 32-bit
    range, is not negative and is not over-range by those thresholds, yet
    the code rejects it. *)
Lemma bits_to_target_thresholds_counterexample :
  is_uint32 0x22000100 = true /\
  compact_negative 0x22000100 = false /\
  compact_overflows_as_specified 0x22000100 = false /\
  bits_to_target 0x22000100 = Raise (InvalidHeader TargetOverflown).
Proof. repeat split; reflexivity. Qed.

(** *** The byte loop of [target_to_bits] *)

Lemma be_bytes_firstn (k d : nat) (v : Z) :
  0 <= v ->
  firstn k (be_bytes (k + d) v) = be_bytes k (v / 256 ^ Z.of_nat d).
Proof.
  intros Hv. induction k as [|k IH]; [reflexivity|].
  cbn [Nat.add be_bytes firstn]. rewrite IH. f_equal.
  assert (0 < 256 ^ Z.of_nat d) by (apply Z.pow_pos_nonneg; lia).
  assert (0 < 256 ^ Z.of_nat k) by (apply Z.pow_pos_nonneg; lia).
  rewrite Z.div_div by lia.
  rewrite <- Z.pow_add_r by lia. do 3 f_equal. lia.
Qed.

Lemma fold_be_bytes (n : nat) (v acc : Z) :
  0 <= v ->
  fold_left (fun a b => a * 256 + byte_to_Z b) (be_bytes n v) acc
  = acc * 256 ^ Z.of_nat n + v mod 256 ^ Z.of_nat n.
Proof.
  intros Hv. revert acc. induction n as [|n IH]; intros acc.
  - simpl. rewrite Z.mod_1_r. lia.
  - cbn [be_bytes fold_left]. rewrite IH.
    rewrite <- byte_of_Z_mod, byte_to_of_Z by (apply Z.mod_pos_bound; lia).
    replace (Z.of_nat (S n)) with (Z.of_nat n + 1) by lia.
    rewrite Z.pow_add_r by lia. change (256 ^ 1) with 256.
    assert (Hp : 0 < 256 ^ Z.of_nat n) by (apply Z.pow_pos_nonneg; lia).
    rewrite (Z.rem_mul_r v (256 ^ Z.of_nat n) 256) by lia.
    ring.
Qed.

Lemma int_from_be_bytes (n : nat) (v : Z) :
  0 <= v < 256 ^ Z.of_nat n -> int_from_bytes_big (be_bytes n v) = v.
Proof.
  intros Hv. unfold int_from_bytes_big. rewrite fold_be_bytes by lia.
  rewrite Z.mod_small by lia. lia.
Qed.

Lemma strip_leading_zeros_spec (n : nat) (v : Z) :
  0 <= v < 256 ^ Z.of_nat n ->
  exists L : nat,
    (L <= n)%nat /\
    strip_leading_zeros n (loop_bytes n v) = Ok (loop_bytes L v, L) /\
    v < 256 ^ Z.of_nat L /\
    (L <> O -> 256 ^ (Z.of_nat L - 1) <= v).
Proof.
  induction n as [|n IH]; intros Hv.
  - exists O. simpl in *. repeat split; auto; lia.
  - cbn [strip_leading_zeros loop_bytes be_bytes app].
    assert (Hp : 0 < 256 ^ Z.of_nat n) by (apply Z.pow_pos_nonneg; lia).
    assert (Hq : 0 <= v / 256 ^ Z.of_nat n < 256).
    { split; [apply Z.div_pos; lia|].
      apply Z.div_lt_upper_bound; [lia|].
      replace (Z.of_nat (S n)) with (Z.of_nat n + 1) in Hv by lia.
      rewrite Z.pow_add_r in Hv by lia. lia. }
    destruct (Byte.eqb (byte_of_Z (v / 256 ^ Z.of_nat n)) x00) eqn:E.
    + apply Byte.byte_dec_bl in E. apply byte_of_Z_zero in E; [|exact Hq].
      assert (Hv' : 0 <= v < 256 ^ Z.of_nat n).
      { split; [lia|]. apply Z.div_small_iff in E; lia. }
      destruct (IH Hv') as (L & HL & Hs & Hb1 & Hb2).
      exists L. split; [lia|]. split; [|split; assumption].
      rewrite <- Hs. f_equal. unfold loop_bytes.
      rewrite length_app, length_be_bytes, repeat_length.
      destruct (Nat.ltb_spec (n + (3 - S n)) 3).
      * rewrite <- app_assoc. f_equal.
        replace (3 - n)%nat with (S (3 - S n)) by lia.
        cbn [repeat]. rewrite repeat_cons. reflexivity.
      * replace (3 - S n)%nat with O by lia.
        replace (3 - n)%nat with O by lia. reflexivity.
    + exists (S n). split; [lia|]. split; [reflexivity|]. split; [lia|].
      intros _. replace (Z.of_nat (S n) - 1) with (Z.of_nat n) by lia.
      assert (v / 256 ^ Z.of_nat n <> 0).
      { intros E0. rewrite E0 in E. discriminate E. }
      assert (~ v < 256 ^ Z.of_nat n); [|lia].
      intros Hlt. apply H. apply Z.div_small. lia.
Qed.

Lemma loop_bytes_mantissa (L : nat) (v : Z) :
  0 <= v < 256 ^ Z.of_nat L ->
  int_from_bytes_big (firstn 3 (loop_bytes L v))
  = if 3 <=? Z.of_nat L then v / 256 ^ (Z.of_nat L - 3)
    else v * 256 ^ (3 - Z.of_nat L).
Proof.
  intros Hv. destruct (Z.leb_spec 3 (Z.of_nat L)) as [H3|H3].
  - unfold loop_bytes. replace (3 - L)%nat with O by lia.
    cbn [repeat]. rewrite app_nil_r.
    replace L with (3 + (L - 3))%nat at 1 by lia.
    rewrite be_bytes_firstn by lia.
    replace (Z.of_nat (L - 3)) with (Z.of_nat L - 3) by lia.
    apply int_from_be_bytes.
    assert (Hp : 0 < 256 ^ (Z.of_nat L - 3)) by (apply Z.pow_pos_nonneg; lia).
    split; [apply Z.div_pos; lia|].
    apply Z.div_lt_upper_bound; [lia|].
    rewrite <- Z.pow_add_r by lia.
    replace (Z.of_nat L - 3 + Z.of_nat 3) with (Z.of_nat L) by lia. lia.
  - destruct L as [|[|[|L]]]; [| | |lia].
    + simpl in Hv. replace v with 0 by lia. reflexivity.
    + change (256 ^ Z.of_nat 1) with 256 in Hv.
      unfold loop_bytes, int_from_bytes_big. simpl.
      change (256 ^ Z.of_nat 0) with 1. change (byte_to_Z x00) with 0.
      change (256 ^ (3 - Z.of_nat 1)) with 65536.
      rewrite Z.div_1_r, byte_to_of_Z by lia. lia.
    + change (256 ^ Z.of_nat 2) with 65536 in Hv.
      unfold loop_bytes, int_from_bytes_big. simpl.
      change (256 ^ Z.of_nat 0) with 1. change (byte_to_Z x00) with 0.
      change (256 ^ Z.of_nat 1) with 256.
      change (256 ^ (3 - Z.of_nat 2)) with 256.
      rewrite Z.div_1_r.
      rewrite <- (byte_of_Z_mod v).
      rewrite (byte_to_of_Z (v mod 256)) by (apply Z.mod_pos_bound; lia).
      rewrite (byte_to_of_Z (v / 256)) by lia.
      lia.
Qed.

Lemma lor_shiftl_add (n base : Z) :
  0 <= n -> 0 <= base < 2 ^ 24 ->
  Z.lor (Z.shiftl n 24) base = n * 2 ^ 24 + base.
Proof.
  intros Hn Hb. rewrite Z.shiftl_mul_pow2 by lia.
  rewrite <- Z.lxor_lor, <- Z.add_nocarry_lxor; try reflexivity.
  all: apply Z.bits_inj'; intros k Hk; rewrite Z.land_spec, Z.bits_0.
  all: destruct (Z.ltb_spec k 24).
  all: try (rewrite Z.mul_pow2_bits_low by lia; reflexivity).
  all: rewrite (Z.bits_above_log2 base k), andb_false_r; try reflexivity; try lia.
  all: destruct (Z.eq_dec base 0) as [->|]; [simpl; lia|].
  all: apply Z.log2_lt_pow2; try lia.
  all: eapply Z.lt_le_trans; [apply Hb|apply Z.pow_le_mono_r; lia].
Qed.

(** [target_to_bits] on a target with [L] significant bytes. *)
Lemma target_to_bits_spec (t : Z) :
  0 <= t < 2 ^ 256 ->
  exists L : Z,
    0 <= L <= 32 /\ t < 256 ^ L /\ (L <> 0 -> 256 ^ (L - 1) <= t) /\
    target_to_bits t = Ok (compact_of L t).
Proof.
  intros Ht. unfold target_to_bits, to_bytes_big.
  change (256 ^ Z.of_nat 32) with (2 ^ 256).
  destruct (Z.ltb_spec t 0); [lia|]. destruct (Z.leb_spec (2 ^ 256) t); [lia|].
  cbn [orb mbind result_bind]. rewrite length_be_bytes.
  destruct (strip_leading_zeros_spec 32 t) as (L & HL & Hs & Hb1 & Hb2).
  { change (256 ^ Z.of_nat 32) with (2 ^ 256). lia. }
  change (be_bytes 32 t) with (loop_bytes 32 t) at 1.
  rewrite Hs. cbn [mbind result_bind].
  exists (Z.of_nat L). split; [lia|]. split; [exact Hb1|].
  split; [intros; apply Hb2; lia|].
  rewrite loop_bytes_mantissa by lia. unfold compact_of.
  set (base := if 3 <=? Z.of_nat L then _ else _).
  assert (Hbase : 0 <= base < 2 ^ 24).
  { subst base. destruct (Z.leb_spec 3 (Z.of_nat L)).
    - assert (Hp : 0 < 256 ^ (Z.of_nat L - 3)) by (apply Z.pow_pos_nonneg; lia).
      split; [apply Z.div_pos; lia|].
      apply Z.div_lt_upper_bound; [lia|].
      change (2 ^ 24) with (256 ^ 3).
      rewrite <- Z.pow_add_r by lia.
      replace (Z.of_nat L - 3 + 3) with (Z.of_nat L) by lia. lia.
    - assert (Hp : 0 < 256 ^ (3 - Z.of_nat L)) by (apply Z.pow_pos_nonneg; lia).
      split; [nia|].
      change (2 ^ 24) with (256 ^ 3).
      replace 3 with (Z.of_nat L + (3 - Z.of_nat L)) at 2 by lia.
      rewrite Z.pow_add_r by lia.
      apply Z.mul_lt_mono_pos_r; lia. }
  change 0x800000 with (2 ^ 23).
  destruct (Z.leb_spec (2 ^ 23) base).
  - f_equal. rewrite Z.shiftr_div_pow2 by lia. change (2 ^ 8) with 256.
    apply lor_shiftl_add; [lia|].
    split; [apply Z.div_pos; lia|]. apply Z.div_lt_upper_bound; lia.
  - f_equal. apply lor_shiftl_add; lia.
Qed.

Lemma byte_length_unique (t L j : Z) :
  0 <= L -> t < 256 ^ L -> (L <> 0 -> 256 ^ (L - 1) <= t) ->
  1 <= j -> 256 ^ (j - 1) <= t < 256 ^ j ->
  L = j.
Proof.
  intros HL Hlt Hge Hj [Hj1 Hj2].
  assert (0 < 256 ^ (j - 1)) by (apply Z.pow_pos_nonneg; lia).
  assert (L <> 0). { intros ->. change (256 ^ 0) with 1 in Hlt. lia. }
  specialize (Hge ltac:(assumption)).
  assert (L - 1 < j).
  { apply (Z.pow_lt_mono_r_iff 256); lia. }
  assert (j - 1 < L).
  { apply (Z.pow_lt_mono_r_iff 256); lia. }
  lia.
Qed.

Lemma pow256_split (j k : Z) :
  0 <= j <= k -> 256 ^ k = 256 ^ j * 256 ^ (k - j).
Proof.
  intros H. rewrite <- Z.pow_add_r by lia. f_equal. lia.
Qed.

Lemma shifted_exponent_bound (m k i : Z) :
  0 <= k -> 0 <= i -> 256 ^ i <= m -> m * 256 ^ k < 2 ^ 256 -> k + i < 32.
Proof.
  intros Hk Hi Hm Hlt.
  apply (Z.pow_lt_mono_r_iff 256); [lia|lia|].
  change (256 ^ 32) with (2 ^ 256).
  rewrite Z.pow_add_r by lia.
  assert (0 < 256 ^ k) by (apply Z.pow_pos_nonneg; lia).
  assert (0 < 256 ^ i) by (apply Z.pow_pos_nonneg; lia).
  nia.
Qed.

Lemma target_to_bits_shifted (m k : Z) :
  0 < m < 2 ^ 23 -> 0 <= k -> m * 256 ^ k < 2 ^ 256 ->
  target_to_bits (m * 256 ^ k) = Ok (compact_normal m k).
Proof.
  intros Hm Hk Hlt.
  assert (Hp : 0 < 256 ^ k) by (apply Z.pow_pos_nonneg; lia).
  destruct (target_to_bits_spec (m * 256 ^ k)) as (L & HL & Hb1 & Hb2 & ->);
    [nia|].
  f_equal. unfold compact_of, compact_normal.
  assert (Hj : exists j, 1 <= j <= 3 /\ 256 ^ (j - 1) <= m < 256 ^ j).
  { destruct (Z.le_gt_cases (2 ^ 16) m); [exists 3|
      destruct (Z.le_gt_cases (2 ^ 8) m); [exists 2|exists 1]].
    all: split; [lia|].
    all: change (256 ^ (3 - 1)) with 65536; change (256 ^ 3) with 16777216;
         change (256 ^ (2 - 1)) with 256; change (256 ^ 2) with 65536;
         change (256 ^ (1 - 1)) with 1; change (256 ^ 1) with 256; lia. }
  destruct Hj as (j & Hj & Hmj).
  assert (L = k + j) as ->.
  { apply (byte_length_unique (m * 256 ^ k)); try lia; try assumption.
    replace (k + j - 1) with ((j - 1) + k) by lia.
    replace (k + j) with (j + k) by lia.
    rewrite !Z.pow_add_r by lia.
    assert (0 < 256 ^ (j - 1)) by (apply Z.pow_pos_nonneg; lia).
    split; nia. }
  assert (Hbase : (if 3 <=? k + j
                   then m * 256 ^ k / 256 ^ (k + j - 3)
                   else m * 256 ^ k * 256 ^ (3 - (k + j)))
                  = m * 256 ^ (3 - j)).
  { destruct (Z.leb_spec 3 (k + j)).
    - rewrite (pow256_split (3 - j) k) by lia.
      replace (k - (3 - j)) with (k + j - 3) by lia.
      rewrite Z.mul_assoc, Z.div_mul; [reflexivity|].
      apply Z.pow_nonzero; lia.
    - rewrite <- Z.mul_assoc, <- Z.pow_add_r by lia.
      do 2 f_equal. lia. }
  rewrite Hbase. clear Hbase Hb1 Hb2 HL.
  assert (Hc : j = 1 \/ j = 2 \/ j = 3) by lia.
  destruct Hc as [->|[->| ->]].
  - change (256 ^ (3 - 1)) with 65536. change (256 ^ (1 - 1)) with 1 in Hmj.
    change (256 ^ 1) with 256 in Hmj.
    destruct (Z.leb_spec (2 ^ 23) (m * 65536)), (Z.leb_spec (2 ^ 15) m),
      (Z.leb_spec (2 ^ 7) m); lia.
  - change (256 ^ (3 - 2)) with 256. change (256 ^ (2 - 1)) with 256 in Hmj.
    change (256 ^ 2) with 65536 in Hmj.
    destruct (Z.leb_spec (2 ^ 23) (m * 256)), (Z.leb_spec (2 ^ 15) m),
      (Z.leb_spec (2 ^ 7) m); lia.
  - change (256 ^ (3 - 3)) with 1. change (256 ^ (3 - 1)) with 65536 in Hmj.
    destruct (Z.leb_spec (2 ^ 23) (m * 1)), (Z.leb_spec (2 ^ 15) m),
      (Z.leb_spec (2 ^ 7) m); lia.
Qed.

Lemma compact_fields (N m : Z) :
  0 <= N < 256 -> 0 <= m < 2 ^ 23 ->
  compact_exponent (N * 2 ^ 24 + m) = N /\
  compact_mantissa (N * 2 ^ 24 + m) = m /\
  compact_sign (N * 2 ^ 24 + m) = false /\
  is_uint32 (N * 2 ^ 24 + m) = true.
Proof.
  intros HN Hm. unfold compact_exponent, compact_mantissa, compact_sign, is_uint32.
  change (2 ^ 24) with 16777216. change (2 ^ 23) with 8388608 in *.
  change (2 ^ 32) with 4294967296.
  repeat split; lia.
Qed.

Lemma bits_to_target_normal (m k : Z) :
  0 < m < 2 ^ 23 -> 0 <= k -> m * 256 ^ k < 2 ^ 256 ->
  bits_to_target (compact_normal m k) = Ok (m * 256 ^ k).
Proof.
  intros Hm Hk Hlt.
  assert (Hp : 0 < 256 ^ k) by (apply Z.pow_pos_nonneg; lia).
  assert (Hk0 : k < 32).
  { pose proof (shifted_exponent_bound m k 0 Hk ltac:(lia)
                  ltac:(change (256 ^ 0) with 1; lia) Hlt). lia. }
  rewrite bits_to_target_unfold.
  unfold compact_negative, compact_overflows, compact_value, compact_normal.
  change (2 ^ 23) with 8388608 in Hm.
  destruct (Z.leb_spec (2 ^ 15) m) as [H15|H15];
    [|destruct (Z.leb_spec (2 ^ 7) m) as [H7|H7]].
  - destruct (compact_fields (k + 3) m) as (-> & -> & -> & ->);
      [lia|change (2 ^ 23) with 8388608; lia|].
    assert (k + 1 < 32).
    { apply (shifted_exponent_bound m k 1); lia. }
    assert (k = 30 -> m < 65536).
    { intros ->. change (2 ^ 256) with (65536 * 256 ^ 30) in Hlt. nia. }
    replace (k + 3 - 3) with k by lia.
    destruct (Z.leb_spec (k + 3) 3).
    + replace k with 0 in * by lia. change (256 ^ (3 - (0 + 3))) with 1.
      change (256 ^ 0) with 1. rewrite Z.div_1_r, Z.mul_1_r.
      destruct (Z.eqb_spec m 0); [lia|]. reflexivity.
    + destruct (Z.eqb_spec (m * 256 ^ k) 0); [nia|].
      cbn [negb andb].
      destruct (Z.ltb_spec 34 (k + 3)); [lia|].
      destruct (Z.ltb_spec 33 (k + 3)); [lia|].
      destruct (Z.ltb_spec 32 (k + 3)), (Z.ltb_spec 0xffff m);
        try reflexivity; lia.
  - destruct (compact_fields (k + 2) (m * 256)) as (-> & -> & -> & ->);
      [lia|change (2 ^ 15) with 32768 in H15; change (2 ^ 23) with 8388608; lia|].
    assert (k = 31 -> m < 256).
    { intros ->. change (2 ^ 256) with (256 * 256 ^ 31) in Hlt. nia. }
    assert (Hv : (if k + 2 <=? 3
                  then m * 256 / 256 ^ (3 - (k + 2))
                  else m * 256 * 256 ^ (k + 2 - 3)) = m * 256 ^ k).
    { destruct (Z.leb_spec (k + 2) 3).
      - assert (Hc : k = 0 \/ k = 1) by lia. destruct Hc as [-> | ->].
        + change (256 ^ (3 - (0 + 2))) with 256. change (256 ^ 0) with 1.
          rewrite Z.div_mul by lia. lia.
        + change (256 ^ (3 - (1 + 2))) with 1. change (256 ^ 1) with 256.
          rewrite Z.div_1_r. reflexivity.
      - rewrite (pow256_split 1 k) by lia. change (256 ^ 1) with 256.
        replace (k + 2 - 3) with (k - 1) by lia. ring. }
    rewrite Hv.
    destruct (Z.eqb_spec (m * 256 ^ k) 0); [nia|].
    cbn [negb andb].
    destruct (Z.ltb_spec 34 (k + 2)); [lia|].
    destruct (Z.ltb_spec 33 (k + 2)); [lia|].
    destruct (Z.ltb_spec 32 (k + 2)), (Z.ltb_spec 0xffff (m * 256));
      try reflexivity; lia.
  - change (2 ^ 7) with 128 in H7.
    destruct (compact_fields (k + 1) (m * 65536)) as (-> & -> & -> & ->);
      [lia|change (2 ^ 23) with 8388608; lia|].
    assert (Hv : (if k + 1 <=? 3
                  then m * 65536 / 256 ^ (3 - (k + 1))
                  else m * 65536 * 256 ^ (k + 1 - 3)) = m * 256 ^ k).
    { destruct (Z.leb_spec (k + 1) 3).
      - assert (Hc : k = 0 \/ k = 1 \/ k = 2) by lia.
        destruct Hc as [-> | [-> | ->]].
        + change (256 ^ (3 - (0 + 1))) with 65536. change (256 ^ 0) with 1.
          rewrite Z.div_mul by lia. lia.
        + change (256 ^ (3 - (1 + 1))) with 256. change (256 ^ 1) with 256.
          replace (m * 65536) with (m * 256 * 256) by lia.
          rewrite Z.div_mul by lia. reflexivity.
        + change (256 ^ (3 - (2 + 1))) with 1. change (256 ^ 2) with 65536.
          rewrite Z.div_1_r. reflexivity.
      - rewrite (pow256_split 2 k) by lia. change (256 ^ 2) with 65536.
        replace (k + 1 - 3) with (k - 2) by lia. ring. }
    rewrite Hv.
    destruct (Z.eqb_spec (m * 256 ^ k) 0); [nia|].
    cbn [negb andb].
    destruct (Z.ltb_spec 34 (k + 1)); [lia|].
    destruct (Z.ltb_spec 33 (k + 1)); [lia|].
    destruct (Z.ltb_spec 32 (k + 1)); [lia|]. reflexivity.
Qed.

Lemma bits_to_target_Ok (b t : Z) :
  bits_to_target b = Ok t ->
  is_uint32 b = true /\ compact_negative b = false /\
  compact_overflows b = false /\ t = compact_value b /\ 0 <= t < 2 ^ 256.
Proof.
  rewrite bits_to_target_unfold.
  destruct (is_uint32 b); cbn [negb]; [|discriminate].
  destruct (compact_negative b); [discriminate|].
  destruct (compact_overflows b) eqn:Ho; [discriminate|].
  intros [= <-].
  repeat split; auto using compact_value_nonneg, compact_value_bound.
Qed.

Lemma target_to_bits_decoded (b t : Z) :
  bits_to_target b = Ok t ->
  target_to_bits t = Ok (compact_renormalised b) /\
  bits_to_target (compact_renormalised b) = Ok t.
Proof.
  intros H. destruct (bits_to_target_Ok b t H) as (Hu & Hn & Ho & -> & Ht).
  unfold compact_renormalised.
  destruct (Z.eqb_spec (compact_value b) 0) as [E|E].
  { rewrite E. split; reflexivity. }
  pose proof (compact_mantissa_range b) as Hm.
  pose proof (compact_exponent_range b) as HN.
  revert Ht E. unfold compact_value.
  destruct (Z.leb_spec (compact_exponent b) 3) as [H3|H3]; intros Ht E.
  - assert (Hp : 0 < 256 ^ (3 - compact_exponent b))
      by (apply Z.pow_pos_nonneg; lia).
    set (m := compact_mantissa b / 256 ^ (3 - compact_exponent b)) in *.
    assert (Hm' : 0 < m < 2 ^ 23).
    { split; [lia|]. subst m. apply Z.div_lt_upper_bound; [lia|]. nia. }
    assert (Hlt : m * 256 ^ 0 < 2 ^ 256) by (change (256 ^ 0) with 1; lia).
    pose proof (target_to_bits_shifted m 0 Hm' ltac:(lia) Hlt) as A.
    pose proof (bits_to_target_normal m 0 Hm' ltac:(lia) Hlt) as B.
    change (256 ^ 0) with 1 in A, B. rewrite Z.mul_1_r in A, B.
    split; assumption.
  - assert (Hm' : 0 < compact_mantissa b < 2 ^ 23).
    { split; [|lia].
      destruct (Z.eq_dec (compact_mantissa b) 0) as [E0|]; [|lia].
      rewrite E0 in E. lia. }
    split; [apply target_to_bits_shifted|apply bits_to_target_normal]; lia.
Qed.

Lemma compact_decompose (b : Z) :
  is_uint32 b = true ->
  b = compact_exponent b * 2 ^ 24
      + (if compact_sign b then 2 ^ 23 else 0) + compact_mantissa b.
Proof.
  unfold is_uint32, compact_exponent, compact_sign, compact_mantissa.
  change (2 ^ 24) with 16777216. change (2 ^ 23) with 8388608.
  change (2 ^ 32) with 4294967296. intros H.
  destruct (Z.eqb_spec ((b / 8388608) mod 2) 1); lia.
Qed.

Ltac case_compare :=
  repeat match goal with
  | |- context [?a =? ?b] => destruct (Z.eqb_spec a b)
  | |- context [?a <=? ?b] => destruct (Z.leb_spec a b)
  | |- context [?a <? ?b] => destruct (Z.ltb_spec a b)
  | H : context [?a =? ?b] |- _ => destruct (Z.eqb_spec a b)
  | H : context [?a <=? ?b] |- _ => destruct (Z.leb_spec a b)
  | H : context [?a <? ?b] |- _ => destruct (Z.ltb_spec a b)
  end.

Lemma renormalised_fixpoint (b : Z) :
  is_uint32 b = true -> compact_negative b = false ->
  (compact_renormalised b = b <-> compact_canonical b = true).
Proof.
  intros Hu Hn. pose proof (compact_decompose b Hu) as Hb.
  pose proof (compact_mantissa_range b) as Hm.
  pose proof (compact_exponent_range b) as HN.
  revert Hn. unfold compact_renormalised, compact_canonical, compact_negative,
    compact_value, compact_normal.
  set (N := compact_exponent b) in *. set (m := compact_mantissa b) in *.
  change (2 ^ 23) with 8388608 in *. change (2 ^ 24) with 16777216 in *.
  change (2 ^ 15) with 32768. change (2 ^ 7) with 128.
  clear Hu. clearbody N m.
  destruct (Z.leb_spec N 3) as [H3|H3].
  - assert (Hc : N = 0 \/ N = 1 \/ N = 2 \/ N = 3) by lia.
    destruct Hc as [E | [E | [E | E]]]; rewrite E in *; clear E;
      [change (256 ^ (3 - 0)) with 16777216
      |change (256 ^ (3 - 1)) with 65536
      |change (256 ^ (3 - 2)) with 256
      |change (256 ^ (3 - 3)) with 1];
      destruct (compact_sign b); intros Hn; case_compare;
      cbn [negb andb orb] in *;
      (split; intros; try discriminate; try reflexivity; lia).
  - assert (0 < 256 ^ (N - 3)) by (apply Z.pow_pos_nonneg; lia).
    destruct (Z.eqb_spec (m * 256 ^ (N - 3)) 0) as [E|E].
    + assert (m = 0) by nia. intros _.
      destruct (compact_sign b); case_compare; cbn [negb andb orb];
        (split; intros; try discriminate; try reflexivity; lia).
    + assert (m <> 0) by nia.
      destruct (compact_sign b); intros Hn; [discriminate Hn|].
      case_compare; cbn [negb andb orb];
        (split; intros; try discriminate; try reflexivity; lia).
Qed.

(** C4 (as amended): for every target [t] that is the decoding of a
    well-formed compact value [b], [bits_to_target(target_to_bits(t)) == t];
    and [target_to_bits(bits_to_target(b)) == b] holds exactly for the
    canonical well-formed [b]: zero, or exponent at least one, mantissa at
    least 0x008000 and (for an exponent below three) no non-zero mantissa
    byte shifted out. *)
Theorem compact_round_trip (b t : Z) :
  bits_to_target b = Ok t ->
  (target_to_bits t ≫= bits_to_target) = Ok t /\
  (target_to_bits t = Ok b <-> compact_canonical b = true).
Proof.
  intros H. destruct (target_to_bits_decoded b t H) as [He Hd].
  destruct (bits_to_target_Ok b t H) as (Hu & Hn & _).
  split.
  - rewrite He. exact Hd.
  - rewrite He. rewrite <- (renormalised_fixpoint b Hu Hn).
    split; [intros [= ->]; reflexivity | intros ->; reflexivity].
Qed.

Lemma compact_round_trip_witness :
  bits_to_target 0x1d00ffff = Ok (0xffff * 2 ^ 208) /\
  (target_to_bits (0xffff * 2 ^ 208) ≫= bits_to_target)
    = Ok (0xffff * 2 ^ 208) /\
  (target_to_bits (0xffff * 2 ^ 208) = Ok 0x1d00ffff
   <-> compact_canonical 0x1d00ffff = true).
Proof.
  split; [reflexivity|].
  apply (compact_round_trip 0x1d00ffff (0xffff * 2 ^ 208)). reflexivity.
Defined.

(** C4, second half as stated, fails: 0x04000012 is a well-formed compact
    value (non-negative, not over-range) that decodes to 0x1200, and
    0x1200 encodes to 0x02120000. *)
Lemma compact_round_trip_counterexample :
  bits_to_target 0x04000012 = Ok 0x1200 /\
  target_to_bits 0x1200 = Ok 0x02120000 /\
  (bits_to_target 0x04000012 ≫= target_to_bits) <> Ok 0x04000012.
Proof. repeat split; try reflexivity. discriminate. Qed.

(** ** Hex text and the wire layout *)

Lemma string_app_cons (c : ascii) (a b : string) :
  String c a +:+ b = String c (a +:+ b).
Proof. reflexivity. Qed.

Lemma string_app_nil_r (a : string) : a +:+ EmptyString = a.
Proof.
  induction a as [|c a IH]; [reflexivity|].
  rewrite string_app_cons, IH. reflexivity.
Qed.

Lemma string_length_app (a b : string) :
  String.length (a +:+ b) = (String.length a + String.length b)%nat.
Proof.
  induction a as [|c a IH]; [reflexivity|].
  rewrite string_app_cons. cbn [String.length]. rewrite IH. reflexivity.
Qed.

Lemma string_app_assoc (a b c : string) : (a +:+ b) +:+ c = a +:+ (b +:+ c).
Proof.
  induction a as [|x a IH]; [reflexivity|].
  rewrite !string_app_cons, IH. reflexivity.
Qed.

Lemma hex_app (a b : list byte) : hex (a ++ b) = hex a +:+ hex b.
Proof.
  induction a as [|x a IH]; [reflexivity|].
  cbn [app hex]. rewrite !string_app_cons, IH. reflexivity.
Qed.

Lemma length_hex (b : list byte) : String.length (hex b) = (2 * length b)%nat.
Proof.
  induction b as [|x b IH]; [reflexivity|].
  cbn [hex String.length length]. rewrite IH. lia.
Qed.

Lemma hex_value_digit (n : Z) : 0 <= n < 16 -> hex_value (hex_digit n) = Some n.
Proof.
  intros H. rewrite <- (Z2Nat.id n) by lia.
  assert (Hk : (Z.to_nat n < 16)%nat) by lia. revert Hk.
  generalize (Z.to_nat n) as k. intros k Hk.
  do 16 (destruct k as [|k]; [reflexivity|]). lia.
Qed.

Lemma is_space_digit (n : Z) : 0 <= n < 16 -> is_space (hex_digit n) = false.
Proof.
  intros Hn. replace n with (Z.of_nat (Z.to_nat n)) by lia.
  assert (Z.to_nat n < 16)%nat as Hk by lia. revert Hk.
  generalize (Z.to_nat n) as k. intros k Hk.
  do 16 (destruct k as [|k]; [reflexivity|]). lia.
Qed.

Lemma bfh_hex_app (a : list byte) (s : string) :
  bfh (hex a +:+ s) = r ← bfh s; Ok (a ++ r).
Proof.
  induction a as [|x a IH].
  - change (hex [] +:+ s) with s. destruct (bfh s); reflexivity.
  - pose proof (byte_to_Z_range x) as Hx.
    cbn [hex]. rewrite !string_app_cons. cbn [bfh].
    rewrite is_space_digit, !hex_value_digit by lia. rewrite IH.
    destruct (bfh s); simpl; [|reflexivity].
    replace (16 * (byte_to_Z x / 16) + byte_to_Z x mod 16) with (byte_to_Z x)
      by lia.
    rewrite byte_of_to_Z. reflexivity.
Qed.

Lemma bfh_hex (a : list byte) : bfh (hex a) = Ok a.
Proof.
  rewrite <- (string_app_nil_r (hex a)), bfh_hex_app.
  cbn. rewrite app_nil_r. reflexivity.
Qed.

Lemma int_from_bytes_big_rev (bs : list byte) :
  int_from_bytes_big (rev bs) = int_from_bytes_little bs.
Proof.
  unfold int_from_bytes_big, int_from_bytes_little.
  induction bs as [|x bs IH]; [reflexivity|].
  cbn [rev fold_right]. rewrite fold_left_app. cbn [fold_left].
  rewrite IH. lia.
Qed.

Lemma int16_digits_hex (bs : list byte) (acc : Z) :
  int16_digits (hex bs) acc
  = Ok (fold_left (fun a b => a * 256 + byte_to_Z b) bs acc).
Proof.
  revert acc. induction bs as [|x bs IH]; intros acc; [reflexivity|].
  cbn [hex fold_left int16_digits]. pose proof (byte_to_Z_range x) as Hx.
  rewrite !hex_value_digit by lia. rewrite IH. do 2 f_equal. lia.
Qed.

Lemma int16_hash_encode (bs : list byte) :
  bs <> [] -> int16 (hash_encode bs) = Ok (int_from_bytes_little bs).
Proof.
  intros Hne. unfold int16, hash_encode.
  rewrite int16_digits_hex. fold (int_from_bytes_big (rev bs)).
  rewrite int_from_bytes_big_rev.
  destruct (hex (rev bs)) eqn:E; [|reflexivity].
  apply (f_equal String.length) in E. rewrite length_hex, length_rev in E.
  destruct bs; [congruence|discriminate E].
Qed.

Lemma int_from_le_bytes (n : nat) (v : Z) :
  0 <= v < 256 ^ Z.of_nat n -> int_from_bytes_little (le_bytes n v) = v.
Proof.
  revert v. induction n as [|n IH]; intros v Hv.
  - simpl in *. change (256 ^ 0) with 1 in Hv. lia.
  - cbn [le_bytes int_from_bytes_little fold_right].
    fold (int_from_bytes_little (le_bytes n (v / 256))).
    replace (Z.of_nat (S n)) with (1 + Z.of_nat n) in Hv by lia.
    rewrite Z.pow_add_r in Hv by lia. change (256 ^ 1) with 256 in Hv.
    assert (0 < 256 ^ Z.of_nat n) by (apply Z.pow_pos_nonneg; lia).
    rewrite IH by (split; [lia|apply Z.div_lt_upper_bound; lia]).
    rewrite <- byte_of_Z_mod, byte_to_of_Z by lia. lia.
Qed.

Lemma le_bytes_int_from (bs : list byte) :
  le_bytes (length bs) (int_from_bytes_little bs) = bs.
Proof.
  induction bs as [|x bs IH]; [reflexivity|].
  cbn [length le_bytes int_from_bytes_little fold_right].
  fold (int_from_bytes_little bs). pose proof (byte_to_Z_range x) as Hx.
  f_equal.
  - rewrite <- byte_of_Z_mod.
    replace ((byte_to_Z x + 256 * int_from_bytes_little bs) mod 256)
      with (byte_to_Z x) by lia.
    apply byte_of_to_Z.
  - replace ((byte_to_Z x + 256 * int_from_bytes_little bs) / 256)
      with (int_from_bytes_little bs) by lia.
    exact IH.
Qed.

Lemma int_from_bytes_little_range (bs : list byte) :
  0 <= int_from_bytes_little bs < 256 ^ Z.of_nat (length bs).
Proof.
  induction bs as [|x bs IH]; [simpl; lia|].
  cbn [length int_from_bytes_little fold_right].
  fold (int_from_bytes_little bs). pose proof (byte_to_Z_range x) as Hx.
  replace (Z.of_nat (S (length bs))) with (1 + Z.of_nat (length bs)) by lia.
  rewrite Z.pow_add_r by lia. change (256 ^ 1) with 256. lia.
Qed.

Lemma int_to_hex_ok (v : Z) (n : nat) :
  0 <= v < 256 ^ Z.of_nat n -> int_to_hex v n = Ok (hex (le_bytes n v)).
Proof.
  intros H. unfold int_to_hex.
  destruct (Z.ltb_spec v 0); [lia|]. destruct (Z.leb_spec (256 ^ Z.of_nat n) v); [lia|].
  reflexivity.
Qed.

Lemma int_to_hex_u32 (v : Z) :
  is_uint32 v = true -> int_to_hex v 4 = Ok (hex (le_bytes 4 v)).
Proof.
  unfold is_uint32. intros H. apply int_to_hex_ok.
  change (256 ^ Z.of_nat 4) with (2 ^ 32). lia.
Qed.

Lemma int_to_hex_u64 (v : Z) :
  is_uint64 v = true -> int_to_hex v 8 = Ok (hex (le_bytes 8 v)).
Proof.
  unfold is_uint64. intros H. apply int_to_hex_ok.
  change (256 ^ Z.of_nat 8) with (2 ^ 64). lia.
Qed.

Lemma rev_hex_hash256 (s : string) :
  is_hash256 s = true ->
  rev_hex s = Ok (hex (field_bytes (Some s))) /\
  length (field_bytes (Some s)) = 32%nat.
Proof.
  unfold is_hash256, rev_hex, field_bytes. destruct (bfh s) as [b|]; [|discriminate].
  intros H. apply Nat.eqb_eq in H. rewrite length_rev. split; [reflexivity|exact H].
Qed.

Lemma canonical_is_hash256 (s : string) :
  is_canonical_hash s = true -> is_hash256 s = true.
Proof.
  unfold is_canonical_hash, is_hash256. destruct (bfh s); [|discriminate].
  intros H. apply andb_true_iff in H. tauto.
Qed.

Lemma hash_encode_field_bytes (s : string) :
  is_canonical_hash s = true -> hash_encode (field_bytes (Some s)) = s.
Proof.
  unfold is_canonical_hash, hash_encode, field_bytes.
  destruct (bfh s) as [b|]; [|discriminate].
  intros H. apply andb_true_iff in H. destruct H as [_ H].
  apply bool_decide_eq_true in H. rewrite rev_involutive. exact H.
Qed.

Ltac split_andb :=
  repeat match goal with
         | H : _ && _ = true |- _ =>
             apply andb_true_iff in H; destruct H
         end.

(** What [serialize_header] returns on a well-formed header dict. *)
Lemma serialize_header_wire (h : header) :
  header_fields_ok h = true ->
  serialize_header h = Ok (hex (wire_bytes h)) /\
  length (wire_bytes h)
  = match nheight h with Some _ => 120%nat | None => 80%nat end.
Proof.
  unfold header_fields_ok, common_fields_ok, serialize_header, wire_bytes.
  destruct h as [v p m t b n k n64 x ht]; cbn [version prev_block_hash
    merkle_root timestamp bits nonce nheight nonce64 mix_hash block_height].
  destruct v as [v|], p as [p|], m as [m|], t as [t|], b as [b|];
    try discriminate.
  intros H. split_andb.
  destruct (rev_hex_hash256 p) as [Hp Lp]; [assumption|].
  destruct (rev_hex_hash256 m) as [Hm Lm]; [assumption|].
  destruct k as [k|].
  - split_andb. destruct x as [x|]; [|congruence].
    destruct (rev_hex_hash256 x) as [Hx Lx]; [assumption|].
    rewrite bool_decide_eq_true_2 by (eexists; reflexivity).
    cbn [getitem mbind result_bind default from_option id].
    rewrite !int_to_hex_u32 by assumption.
    rewrite Hp, Hm, Hx, int_to_hex_u64 by assumption.
    cbn [mbind result_bind].
    split.
    + rewrite !hex_app. reflexivity.
    + rewrite !length_app, !length_le_bytes, Lp, Lm, Lx. reflexivity.
  - destruct n as [n|]; [|congruence].
    rewrite bool_decide_eq_false_2 by (intros [? ?]; discriminate).
    cbn [getitem mbind result_bind default from_option id negb].
    rewrite !int_to_hex_u32 by assumption.
    rewrite Hp, Hm. cbn [mbind result_bind].
    split.
    + rewrite !hex_app. reflexivity.
    + rewrite !length_app, !length_le_bytes, Lp, Lm. reflexivity.
Qed.

(** C10: [serialize_header] picks its format from the presence of
    'nheight' alone.  On every well-formed header dict that carries
    'nheight' it returns the 120-byte layout (240 hex characters) with the
    eight nonce bytes taken from 'nonce64' if present, else from 'nonce'; on
    every well-formed header dict without 'nheight' it returns the 80-byte
    layout (160 hex characters), unpadded.  Height, version bits and
    timestamp play no part. *)
Theorem serialize_header_format (h : header) :
  header_fields_ok h = true ->
  serialize_header h = Ok (hex (wire_bytes h)) /\
  length (wire_bytes h)
  = match nheight h with Some _ => 120%nat | None => 80%nat end /\
  String.length (hex (wire_bytes h))
  = match nheight h with Some _ => 240%nat | None => 160%nat end.
Proof.
  intros H. destruct (serialize_header_wire h H) as [Hs Hl].
  split; [exact Hs|]. split; [exact Hl|].
  rewrite length_hex, Hl. destruct (nheight h); reflexivity.
Qed.

(** *** Slices of the wire layout *)

Lemma slice_app_l {A} (a r : list A) (n : nat) :
  length a = n -> slice 0 n (a ++ r) = a.
Proof.
  intros <-. unfold slice. rewrite Nat.sub_0_r, drop_0. apply take_app_length.
Qed.

Lemma skipn_app_r {A} (a r : list A) (n i : nat) :
  length a = n -> (n <= i)%nat -> skipn i (a ++ r) = skipn (i - n) r.
Proof.
  intros <- Hi. apply drop_app_ge. exact Hi.
Qed.

Lemma slice_app_r {A} (a r : list A) (n i j : nat) :
  length a = n -> (n <= i)%nat ->
  slice i j (a ++ r) = slice (i - n) (j - n) r.
Proof.
  intros Hn Hi. unfold slice. rewrite (skipn_app_r a r n i Hn Hi).
  f_equal. lia.
Qed.

Lemma slice_all {A} (a : list A) (n : nat) :
  length a = n -> slice 0 n a = a.
Proof.
  intros <-. unfold slice. rewrite Nat.sub_0_r, drop_0. apply firstn_all.
Qed.

Lemma le_bytes_nonempty (n : nat) (v : Z) : n <> O -> le_bytes n v <> [].
Proof. destruct n; [congruence|discriminate]. Qed.

Lemma repeat_zero_le_bytes (n : nat) : le_bytes n 0 = repeat x00 n.
Proof.
  induction n as [|n IH]; [reflexivity|].
  cbn [le_bytes repeat]. change (0 / 256) with 0. rewrite IH. reflexivity.
Qed.

Section WireSlices.
Variables a b c d e : list byte.
Hypothesis La : length a = 4%nat.
Hypothesis Lb : length b = 32%nat.
Hypothesis Lc : length c = 32%nat.
Hypothesis Ld : length d = 4%nat.
Hypothesis Le : length e = 4%nat.

Lemma wire_common_slices (r : list byte) :
  let w := a ++ b ++ c ++ d ++ e ++ r in
  slice 0 4 w = a /\ slice 4 36 w = b /\ slice 36 68 w = c /\
  slice 68 72 w = d /\ slice 72 76 w = e /\
  (forall i j, (76 <= i)%nat -> slice i j w = slice (i - 76) (j - 76) r) /\
  (forall i, (76 <= i)%nat -> skipn i w = skipn (i - 76) r).
Proof.
  cbv zeta. repeat split.
  - apply slice_app_l, La.
  - rewrite (slice_app_r a _ 4) by (auto; lia). apply slice_app_l, Lb.
  - rewrite (slice_app_r a _ 4), (slice_app_r b _ 32) by (auto; lia).
    apply slice_app_l, Lc.
  - rewrite (slice_app_r a _ 4), (slice_app_r b _ 32),
      (slice_app_r c _ 32) by (auto; lia).
    apply slice_app_l, Ld.
  - rewrite (slice_app_r a _ 4), (slice_app_r b _ 32),
      (slice_app_r c _ 32), (slice_app_r d _ 4) by (auto; lia).
    apply slice_app_l, Le.
  - intros i j Hi.
    rewrite (slice_app_r a _ 4), (slice_app_r b _ 32),
      (slice_app_r c _ 32), (slice_app_r d _ 4), (slice_app_r e _ 4)
      by (auto; lia).
    f_equal; lia.
  - intros i Hi.
    rewrite (skipn_app_r a _ 4), (skipn_app_r b _ 32),
      (skipn_app_r c _ 32), (skipn_app_r d _ 4), (skipn_app_r e _ 4)
      by (auto; lia).
    f_equal; lia.
Qed.
End WireSlices.

(** *** Round trip through the codec *)

Lemma int16_le_bytes (n : nat) (v : Z) :
  n <> O -> 0 <= v < 256 ^ Z.of_nat n ->
  int16 (hash_encode (le_bytes n v)) = Ok v.
Proof.
  intros Hn Hv. rewrite int16_hash_encode by (apply le_bytes_nonempty, Hn).
  rewrite int_from_le_bytes by exact Hv. reflexivity.
Qed.

Lemma uint32_range (v : Z) : is_uint32 v = true -> 0 <= v < 256 ^ Z.of_nat 4.
Proof. unfold is_uint32. change (256 ^ Z.of_nat 4) with (2 ^ 32). lia. Qed.

Lemma uint64_range (v : Z) : is_uint64 v = true -> 0 <= v < 256 ^ Z.of_nat 8.
Proof. unfold is_uint64. change (256 ^ Z.of_nat 8) with (2 ^ 64). lia. Qed.

Lemma padded_tail (n : Z) (x : string) :
  is_uint64 n = true -> is_canonical_hash x = true ->
  le_bytes 8 n ++ field_bytes (Some x) = repeat x00 40 ->
  n = 0 /\ x = zero_hash.
Proof.
  intros Hn Hx E.
  change (repeat x00 40) with (repeat x00 8 ++ repeat x00 32) in E.
  apply app_inj_1 in E; [|rewrite length_le_bytes; reflexivity].
  destruct E as [E1 E2]. split.
  - rewrite <- (int_from_le_bytes 8 n) by (apply uint64_range, Hn).
    rewrite E1. reflexivity.
  - rewrite <- (hash_encode_field_bytes x Hx), E2. reflexivity.
Qed.

Lemma deserialize_legacy_wire (net : Net) (v t b n : Z) (p m : string)
    (height : Z) :
  is_uint32 v = true -> is_canonical_hash p = true ->
  is_canonical_hash m = true -> is_uint32 t = true -> is_uint32 b = true ->
  is_uint32 n = true ->
  deserialize_header net
    (le_bytes 4 v ++ field_bytes (Some p) ++ field_bytes (Some m)
     ++ le_bytes 4 t ++ le_bytes 4 b ++ le_bytes 4 n) height
  = Ok {| version := Some v; prev_block_hash := Some p;
          merkle_root := Some m; timestamp := Some t; bits := Some b;
          nonce := Some n; nheight := None; nonce64 := None;
          mix_hash := None; block_height := Some height |}.
Proof.
  intros Hv Hp Hm Ht Hb Hn.
  destruct (rev_hex_hash256 p (canonical_is_hash256 p Hp)) as [_ Lp].
  destruct (rev_hex_hash256 m (canonical_is_hash256 m Hm)) as [_ Lm].
  pose proof (wire_common_slices (le_bytes 4 v) (field_bytes (Some p))
    (field_bytes (Some m)) (le_bytes 4 t) (le_bytes 4 b)
    (length_le_bytes 4 v) Lp Lm (length_le_bytes 4 t) (length_le_bytes 4 b)
    (le_bytes 4 n)) as (S1 & S2 & S3 & S4 & S5 & S6 & _).
  cbv zeta in *. unfold deserialize_header.
  set (w := le_bytes 4 v ++ _) in *.
  assert (Lw : length w = 80%nat).
  { subst w. rewrite !length_app, !length_le_bytes, Lp, Lm. reflexivity. }
  rewrite bool_decide_eq_false_2
    by (intros E; rewrite E in Lw; discriminate Lw).
  rewrite Lw. cbn [Nat.eqb LEGACY_HEADER_SIZE HEADER_SIZE orb negb].
  rewrite S1, S2, S3, S4, S5, (S6 76%nat 80%nat) by lia.
  change (76 - 76)%nat with 0%nat. change (80 - 76)%nat with 4%nat.
  rewrite (slice_all (le_bytes 4 n)) by apply length_le_bytes.
  rewrite !int16_le_bytes by (try apply uint32_range; auto).
  rewrite int_from_le_bytes by (apply uint32_range; auto).
  rewrite !hash_encode_field_bytes by assumption.
  reflexivity.
Qed.

Lemma deserialize_extended_wire (net : Net) (v t b n k : Z) (p m x : string)
    (height : Z) :
  is_uint32 v = true -> is_canonical_hash p = true ->
  is_canonical_hash m = true -> is_uint32 t = true -> is_uint32 b = true ->
  is_uint64 n = true -> is_uint32 k = true -> is_canonical_hash x = true ->
  negb ((AuxPowActivationHeight net <=? height) && auxpow_bit v
        && (n =? 0) && bool_decide (x = zero_hash)) = true ->
  deserialize_header net
    (le_bytes 4 v ++ field_bytes (Some p) ++ field_bytes (Some m)
     ++ le_bytes 4 t ++ le_bytes 4 b
     ++ le_bytes 4 k ++ le_bytes 8 n ++ field_bytes (Some x)) height
  = Ok {| version := Some v; prev_block_hash := Some p;
          merkle_root := Some m; timestamp := Some t; bits := Some b;
          nonce := Some n; nheight := Some k; nonce64 := None;
          mix_hash := Some x; block_height := Some height |}.
Proof.
  intros Hv Hp Hm Ht Hb Hn Hk Hx Hpad.
  destruct (rev_hex_hash256 p (canonical_is_hash256 p Hp)) as [_ Lp].
  destruct (rev_hex_hash256 m (canonical_is_hash256 m Hm)) as [_ Lm].
  destruct (rev_hex_hash256 x (canonical_is_hash256 x Hx)) as [_ Lx].
  pose proof (wire_common_slices (le_bytes 4 v) (field_bytes (Some p))
    (field_bytes (Some m)) (le_bytes 4 t) (le_bytes 4 b)
    (length_le_bytes 4 v) Lp Lm (length_le_bytes 4 t) (length_le_bytes 4 b)
    (le_bytes 4 k ++ le_bytes 8 n ++ field_bytes (Some x)))
    as (S1 & S2 & S3 & S4 & S5 & S6 & S7).
  cbv zeta in *. unfold deserialize_header.
  set (w := le_bytes 4 v ++ _) in *.
  assert (Lw : length w = 120%nat).
  { subst w. rewrite !length_app, !length_le_bytes, Lp, Lm, Lx. reflexivity. }
  rewrite bool_decide_eq_false_2
    by (intros E; rewrite E in Lw; discriminate Lw).
  unfold LEGACY_HEADER_SIZE, HEADER_SIZE.
  rewrite Lw. cbn [Nat.eqb orb negb].
  rewrite S1, S2, S3, S4, S5, (S6 76%nat 80%nat), (S6 80%nat 88%nat),
    (S6 88%nat 120%nat), (S7 80%nat) by lia.
  change (76 - 76)%nat with 0%nat. change (80 - 76)%nat with 4%nat.
  change (88 - 76)%nat with 12%nat. change (120 - 76)%nat with 44%nat.
  change (120 - 80)%nat with 40%nat.
  rewrite (slice_app_l (le_bytes 4 k)) by apply length_le_bytes.
  rewrite (slice_app_r (le_bytes 4 k) _ 4 4 12),
    (slice_app_r (le_bytes 4 k) _ 4 12 44),
    (skipn_app_r (le_bytes 4 k) _ 4 4) by (try apply length_le_bytes; lia).
  change (4 - 4)%nat with 0%nat. change (12 - 4)%nat with 8%nat.
  change (44 - 4)%nat with 40%nat. rewrite drop_0.
  rewrite (slice_app_l (le_bytes 8 n)) by apply length_le_bytes.
  rewrite (slice_app_r (le_bytes 8 n) _ 8 8 40) by (try apply length_le_bytes; lia).
  change (8 - 8)%nat with 0%nat. change (40 - 8)%nat with 32%nat.
  rewrite (slice_all (field_bytes (Some x))) by exact Lx.
  rewrite !int16_le_bytes
    by (try apply uint32_range; try apply uint64_range; auto).
  rewrite int_from_le_bytes by (apply uint32_range; auto).
  rewrite !hash_encode_field_bytes by assumption.
  assert (Hnp : (AuxPowActivationHeight net <=? height) && auxpow_bit v
                && bytes_eqb (le_bytes 8 n ++ field_bytes (Some x))
                     (repeat x00 40) = false).
  { destruct ((AuxPowActivationHeight net <=? height) && auxpow_bit v);
      [|reflexivity].
    cbn [andb] in *. unfold bytes_eqb. apply bool_decide_eq_false_2.
    intros E. destruct (padded_tail n x Hn Hx E) as [-> ->].
    rewrite bool_decide_eq_true_2 in Hpad by reflexivity. discriminate Hpad. }
  rewrite Hnp. reflexivity.
Qed.

(** Round trip and wire form of a header dict in one of the two shapes. *)
Lemma codec_round_trip_wire (net : Net) (h : header) (height : Z) :
  legacy_shaped h height || extended_shaped net h height = true ->
  (s ← serialize_header h; b ← bfh s; deserialize_header net b height) = Ok h /\
  serialize_header h = Ok (hex (wire_bytes h)) /\
  length (wire_bytes h)
  = match nheight h with Some _ => 120%nat | None => 80%nat end.
Proof.
  intros Hs.
  assert (Hok : header_fields_ok h = true /\
                deserialize_header net (wire_bytes h) height = Ok h).
  { apply orb_true_iff in Hs. destruct Hs as [Hs|Hs].
    - unfold legacy_shaped in Hs.
      destruct h as [[v|] [p|] [m|] [t|] [b|] [n|] [k|] [n64|] [x|] [ht|]];
        cbn in Hs; try discriminate Hs.
      split_andb. apply Z.eqb_eq in H0. subst ht. split.
      + unfold header_fields_ok, common_fields_ok. cbn.
        rewrite !canonical_is_hash256 by assumption.
        repeat (apply andb_true_intro; split);
          first [assumption | reflexivity
                | unfold is_uint32, is_uint64 in *; lia].
      + apply deserialize_legacy_wire; assumption.
    - unfold extended_shaped in Hs.
      destruct h as [[v|] [p|] [m|] [t|] [b|] [n|] [k|] [n64|] [x|] [ht|]];
        cbn in Hs; try discriminate Hs.
      apply andb_true_iff in Hs. destruct Hs as [Hs Hpad].
      split_andb. apply Z.eqb_eq in H0. subst ht. split.
      + unfold header_fields_ok, common_fields_ok. cbn.
        rewrite !canonical_is_hash256 by assumption.
        repeat (apply andb_true_intro; split);
          first [assumption | reflexivity
                | unfold is_uint32, is_uint64 in *; lia].
      + apply deserialize_extended_wire; assumption. }
  destruct Hok as [Hok Hd].
  destruct (serialize_header_wire h Hok) as [Hser Hlen].
  split; [|split; assumption].
  rewrite Hser. cbn [mbind result_bind]. rewrite bfh_hex.
  cbn [mbind result_bind]. exact Hd.
Qed.

Lemma codec_round_trip (net : Net) (h : header) (height : Z) :
  legacy_shaped h height || extended_shaped net h height = true ->
  (s ← serialize_header h; b ← bfh s; deserialize_header net b height) = Ok h.
Proof. intros Hs. apply (codec_round_trip_wire net h height Hs). Qed.

(** C8 (as amended): for every header dict [h] in the form
    [deserialize_header] builds at height [H] -- the 80-byte form (legacy
    or AuxPOW), or the 120-byte form with its 64-bit nonce under 'nonce' and
    not reading as a zero-padded AuxPOW record --
    [deserialize_header(serialize_header(h), H) == h]; serialising the
    120-byte form emits exactly 120 bytes and serialising the 80-byte form
    emits exactly 80 bytes, unpadded. *)
Theorem header_round_trip (net : Net) (h : header) (height : Z) :
  legacy_shaped h height || extended_shaped net h height = true ->
  (s ← serialize_header h; b ← bfh s; deserialize_header net b height) = Ok h /\
  serialize_header h = Ok (hex (wire_bytes h)) /\
  length (wire_bytes h)
  = match nheight h with Some _ => 120%nat | None => 80%nat end.
Proof.
  intros Hs. destruct (codec_round_trip_wire net h height Hs) as (Hr & Hw & Hl).
  split; [exact Hr|]. split; [exact Hw|exact Hl].
Qed.

Lemma header_round_trip_witness :
  legacy_shaped example_legacy_header 1
  || extended_shaped example_mainnet example_legacy_header 1 = true /\
  (s ← serialize_header example_legacy_header; b ← bfh s;
   deserialize_header example_mainnet b 1) = Ok example_legacy_header /\
  serialize_header example_legacy_header
  = Ok (hex (wire_bytes example_legacy_header)) /\
  length (wire_bytes example_legacy_header) = 80%nat.
Proof.
  split; [vm_compute; reflexivity|].
  apply (header_round_trip example_mainnet example_legacy_header 1).
  vm_compute. reflexivity.
Defined.

(** C8 as stated fails on an extended header that carries its nonce under
    'nonce64' (the key [serialize_header] prefers): the decoder files the
    eight nonce bytes under 'nonce', so the dict that comes back differs. *)
Lemma header_round_trip_counterexample :
  (s ← serialize_header example_nonce64_header; b ← bfh s;
   deserialize_header example_mainnet b 900000)
  = Ok example_extended_header /\
  example_extended_header <> example_nonce64_header.
Proof. split; [vm_compute; reflexivity|discriminate]. Qed.

Lemma serialize_header_format_witness :
  header_fields_ok example_nonce64_header = true /\
  serialize_header example_nonce64_header
  = Ok (hex (wire_bytes example_nonce64_header)) /\
  length (wire_bytes example_nonce64_header) = 120%nat /\
  String.length (hex (wire_bytes example_nonce64_header)) = 240%nat.
Proof.
  split; [vm_compute; reflexivity|].
  apply (serialize_header_format example_nonce64_header).
  vm_compute. reflexivity.
Defined.

(** ** Hashing and the header verifier *)

(** C1 (the code departs from it): with no scrypt in the interpreter the
    start-up probe records the kernel as unavailable, and the AuxPOW hash of
    any header bytes is then computed with SHA-256d; no error is raised. *)
Theorem auxpow_hash_without_scrypt (K : Kernels) (b : list byte) :
  _SCRYPT_AVAILABLE (without_scrypt K) = false /\
  hash_raw_header_auxpow (without_scrypt K) (hex b)
  = hash_encode (sha256d K (firstn 80 b)).
Proof.
  split; [reflexivity|].
  unfold hash_raw_header_auxpow. rewrite bfh_hex. reflexivity.
Qed.

Lemma hash_header_auxpow (net : Net) (K : Kernels) (h : header) :
  is_auxpow_header net h = true -> header_fields_ok h = true ->
  hash_header net K (Some h)
  = Ok (hash_raw_header_auxpow K (hex (wire_bytes h))).
Proof.
  intros Ha Hok. unfold hash_header.
  assert (Hp : exists p, prev_block_hash h = Some p).
  { unfold header_fields_ok, common_fields_ok in Hok.
    destruct (version h), (prev_block_hash h); try discriminate Hok.
    eexists; reflexivity. }
  destruct Hp as [p Hp]. rewrite Hp.
  unfold is_auxpow_header in Ha. rewrite Ha.
  destruct (serialize_header_wire h Hok) as [-> _]. reflexivity.
Qed.

(** C2: a non-testnet header at height >= AuxPowActivationHeight whose
    version has bit 8 set passes [verify_header] as soon as its
    'prev_block_hash' equals [prev_hash], whatever its bits, the target and
    [skip_bits_check]; its hash is computed and compared only when an
    [expected_header_hash] is supplied, and a mismatch raises
    [InvalidHeader]. *)
Theorem verify_header_auxpow (net : Net) (K : Kernels) (h : header)
    (prev_hash : string) (target : Z) (expected : option string)
    (skip_bits_check : bool) :
  TESTNET net = false ->
  is_auxpow_header net h = true ->
  prev_block_hash h = Some prev_hash ->
  (truthy expected = false ->
   verify_header net K h prev_hash target expected skip_bits_check = Ok tt) /\
  (truthy expected = true -> header_fields_ok h = true ->
   exists x,
     hash_header net K (Some h) = Ok x /\
     verify_header net K h prev_hash target expected skip_bits_check
     = if bool_decide (expected = Some x) then Ok tt
       else Raise (InvalidHeader HashMismatch)).
Proof.
  intros Hnet Ha Hprev. unfold verify_header.
  rewrite Hprev, bool_decide_eq_true_2 by reflexivity.
  rewrite Hnet. cbn [negb].
  unfold is_auxpow_header in Ha. rewrite Ha.
  split.
  - intros ->. reflexivity.
  - intros -> Hok. fold (is_auxpow_header net h) in Ha.
    rewrite (hash_header_auxpow net K h Ha Hok).
    eexists. split; [reflexivity|]. cbn [mbind result_bind].
    destruct (bool_decide _); reflexivity.
Qed.

Lemma verify_header_auxpow_witness :
  (truthy None = false ->
   verify_header example_mainnet example_kernels example_auxpow_header
     (GENESIS example_mainnet) 0 None false = Ok tt) /\
  (truthy None = true -> header_fields_ok example_auxpow_header = true ->
   exists x,
     hash_header example_mainnet example_kernels (Some example_auxpow_header)
     = Ok x /\
     verify_header example_mainnet example_kernels example_auxpow_header
       (GENESIS example_mainnet) 0 None false
     = if bool_decide (None = Some x) then Ok tt
       else Raise (InvalidHeader HashMismatch)).
Proof.
  apply (verify_header_auxpow example_mainnet example_kernels
           example_auxpow_header (GENESIS example_mainnet) 0 None false);
    vm_compute; reflexivity.
Defined.

(** C9 (as amended): [verify_header] performs the expected-hash check
    before the proof-of-work check.  For a non-testnet, non-AuxPOW header at
    a height where proof of work is validated, with matching linkage and
    with the bits check passed or skipped, a hash that differs from a
    supplied [expected_header_hash] raises the hash-mismatch
    [InvalidHeader], whether or not the hash exceeds the target. *)
Theorem verify_header_expected_hash_first (net : Net) (K : Kernels)
    (h : header) (prev_hash : string) (target : Z) (expected x : string)
    (skip_bits_check : bool) :
  TESTNET net = false ->
  is_auxpow_header net h = false ->
  pow_is_validated net h = true ->
  prev_block_hash h = Some prev_hash ->
  (skip_bits_check = true \/
   exists tbits, target_to_bits target = Ok tbits /\ bits h = Some tbits) ->
  hash_header net K (Some h) = Ok x ->
  expected <> EmptyString -> expected <> x ->
  verify_header net K h prev_hash target (Some expected) skip_bits_check
  = Raise (InvalidHeader HashMismatch).
Proof.
  intros Hnet Ha Hv Hprev Hbits Hx Hne Hneq. unfold verify_header.
  rewrite Hprev, bool_decide_eq_true_2 by reflexivity.
  rewrite Hnet. cbn [negb].
  unfold is_auxpow_header in Ha. rewrite Ha.
  unfold pow_is_validated in Hv. cbv zeta in Hv.
  assert (Hs : (if max_checkpoint net <? default 0 (block_height h)
                then default 0 (block_height h) mod 10 =? 0 else true) = true).
  { destruct (Z.ltb_spec (max_checkpoint net) (default 0 (block_height h)));
      [|reflexivity].
    apply orb_true_iff in Hv. destruct Hv as [Hv|Hv]; [lia|exact Hv]. }
  rewrite Hs. cbn [negb].
  assert (Hb : (if negb skip_bits_check
                then tbits ← target_to_bits target;
                     if negb (bool_decide (Some tbits = bits h))
                     then Raise (InvalidHeader BitsMismatch) else Ok tt
                else Ok tt) = Ok tt).
  { destruct Hbits as [-> | (tbits & -> & ->)]; [reflexivity|].
    destruct skip_bits_check; [reflexivity|]. cbn.
    rewrite bool_decide_eq_true_2 by reflexivity. reflexivity. }
  rewrite Hb. cbn [mbind result_bind]. rewrite Hx. cbn [mbind result_bind].
  unfold truthy. rewrite (bool_decide_eq_false_2 _ Hne).
  rewrite bool_decide_eq_false_2 by congruence. reflexivity.
Qed.

Lemma verify_header_expected_hash_first_witness :
  verify_header example_mainnet example_kernels example_legacy_header
    (GENESIS example_mainnet) (0xffff * 2 ^ 216) (Some example_merkle) false
  = Raise (InvalidHeader HashMismatch).
Proof.
  apply (verify_header_expected_hash_first example_mainnet example_kernels
           example_legacy_header (GENESIS example_mainnet) (0xffff * 2 ^ 216)
           example_merkle (hex (repeat xff 32)) false);
    first [ vm_compute; reflexivity
          | discriminate
          | right; exists 0x1e00ffff; split; vm_compute; reflexivity ].
Defined.

(** C9 as stated fails: the header below is non-testnet and non-AuxPOW, at
    a height inside the checkpoint range, with matching linkage and bits;
    its hash is above the target and differs from the expected hash; the
    failure raised is the hash mismatch. *)
Lemma verify_header_pow_first_counterexample :
  TESTNET example_mainnet = false /\
  is_auxpow_header example_mainnet example_legacy_header = false /\
  pow_is_validated example_mainnet example_legacy_header = true /\
  hash_header example_mainnet example_kernels (Some example_legacy_header)
  = Ok (hex (repeat xff 32)) /\
  (b ← bfh (hex (repeat xff 32)); Ok (0xffff * 2 ^ 216 <? int_from_bytes_big b))
  = Ok true /\
  Some example_merkle <> Some (hex (repeat xff 32)) /\
  verify_header example_mainnet example_kernels example_legacy_header
    (GENESIS example_mainnet) (0xffff * 2 ^ 216) (Some example_merkle) false
  <> Raise (InvalidHeader InsufficientPow).
Proof.
  split; [reflexivity|].
  do 4 (split; [vm_compute; reflexivity|]).
  split; [discriminate|].
  vm_compute. discriminate.
Qed.

(** ** Retargeting *)

(** C7: on mainnet, whatever the checkpoint tables, the stored headers and
    the chain state, [get_target] returns [KAWPOW_LIMIT] at every height of
    the KawPow reset window (373 to 552) and [MEOWPOW_LIMIT] at every height
    of the MeowPow reset window (801212 to 801391). *)
Theorem get_target_reset_windows (checkpoints : list (string * Z))
    (dgw_checkpoints : list ((string * Z) * (string * Z))) (aux_height : Z)
    (w : World) (self : nat) (chain : option (gmap Z header)) (h : Z) :
  373 <= h <= 552 \/ 801212 <= h <= 801391 ->
  get_target (MeowcoinMainnet checkpoints dgw_checkpoints aux_height)
    w self h chain
  = Ok (if h <=? 552 then KAWPOW_LIMIT else MEOWPOW_LIMIT).
Proof.
  intros Hh. unfold get_target, is_dgw_height_checkpoint, py_mod.
  cbn [TESTNET DGW_CHECKPOINTS_START DGW_CHECKPOINTS_SPACING
       nDGWActivationBlock MeowcoinMainnet].
  change (168 * 2016) with 338688. change (2016 =? 0) with false.
  cbv iota.
  destruct Hh as [Hh|Hh].
  - destruct (Z.ltb_spec h 338688); [|lia].
    cbn [mbind result_bind negb andb].
    destruct (Z.ltb_spec h 373); [lia|].
    destruct (Z.leb_spec 373 h); [|lia].
    destruct (Z.ltb_spec h (373 + 180)); [|lia].
    destruct (Z.leb_spec h 552); [|lia]. reflexivity.
  - destruct (Z.ltb_spec h 338688); [lia|].
    assert (Hd : (if max_checkpoint
                       (MeowcoinMainnet checkpoints dgw_checkpoints aux_height)
                     <? h
                  then Ok None
                  else height_mod ← Ok (h mod 2016);
                       if height_mod =? 0 then Ok (Some 0)
                       else if height_mod =? 2016 - 1 then Ok (Some 1)
                       else Ok None) = Ok (@None Z)).
    { destruct (_ <? h); [reflexivity|]. cbn [mbind result_bind].
      destruct (Z.eqb_spec (h mod 2016) 0); [lia|].
      destruct (Z.eqb_spec (h mod 2016) (2016 - 1)); [lia|]. reflexivity. }
    rewrite Hd. cbn [mbind result_bind negb andb].
    destruct (Z.ltb_spec h 373); [lia|].
    destruct (Z.leb_spec 373 h); [|lia].
    destruct (Z.ltb_spec h (373 + 180)); [lia|].
    destruct (Z.leb_spec 801212 h); [|lia].
    destruct (Z.ltb_spec h (801212 + 180)); [|lia].
    destruct (Z.leb_spec h 552); [lia|]. reflexivity.
Qed.

Lemma get_target_reset_windows_witness :
  get_target example_mainnet empty_world 0 801300 None = Ok MEOWPOW_LIMIT.
Proof.
  apply (get_target_reset_windows [] [] 1614560 empty_world 0%nat None 801300).
  right. lia.
Defined.




(** [get_target] hands the LWMA result on unchanged, exception included. *)
Lemma get_target_lwma_dispatch (net : Net) (w : World) (self : nat)
    (c : Blockchain) (height_ : Z) (chain : option (gmap Z header)) :
  TESTNET net = false ->
  nDGWActivationBlock net <= height_ ->
  is_dgw_height_checkpoint net height_ = Ok None ->
  ~ 373 <= height_ < 553 -> ~ 801212 <= height_ < 801392 ->
  heap w !! self = Some c -> height c < height_ ->
  AuxPowActivationHeight net <= height_ ->
  get_target net w self height_ chain
  = get_target_lwma_multi_algo net w self height_ chain.
Proof.
  intros Ht Hd Hc Hk Hm Hs Hh Ha. unfold get_target.
  rewrite Hc, Ht. cbn [mbind result_bind negb andb].
  destruct (Z.ltb_spec height_ (nDGWActivationBlock net)); [lia|].
  replace ((373 <=? height_) && (height_ <? 373 + 180)) with false by lia.
  replace ((801212 <=? height_) && (height_ <? 801212 + 180)) with false by lia.
  unfold deref. rewrite Hs. cbn [mbind result_bind].
  destruct (Z.leb_spec height_ (height c)); [lia|].
  destruct (Z.leb_spec (AuxPowActivationHeight net) height_); [|lia].
  reflexivity.
Qed.

(** ** Chunk ingestion *)

Lemma write_effect (self : nat) (c : Blockchain) (name : string)
    (old data : list byte) (offset : Z) (truncate : bool) (w : World) :
  heap w !! self = Some c -> path c = Ok name -> files w !! name = Some old ->
  0 <= offset ->
  write self data offset truncate w
  = (Ok tt,
     world_after_write w self name (written_content c old data offset truncate)).
Proof.
  intros Hs Hp Hf Ho.
  unfold write, update_size, assign, io_read, io_modify, io_raise,
    mbind, io_bind, deref, open_file.
  rewrite Hs, Hp, Hf.
  destruct (Z.ltb_spec offset 0); [lia|].
  cbn [heap files set_files set_heap]. rewrite Hs, Hp.
  rewrite lookup_insert_eq. reflexivity.
Qed.

Lemma swap_with_parent_no_parent (net : Net) (K : Kernels) (self : nat)
    (c : Blockchain) (w : World) :
  heap w !! self = Some c -> parent c = None ->
  swap_with_parent net K self w = (Ok tt, w).
Proof.
  intros Hs Hp. unfold swap_with_parent. cbn [swap_with_parent_loop].
  unfold _swap_with_parent, io_read, mbind, io_bind, deref, mret, io_ret.
  rewrite Hs, Hp. reflexivity.
Qed.


Lemma length_file_write_prefix (content data : list byte) (offset : nat) :
  data <> [] ->
  slice offset (offset + length data) (file_write content offset data) = data.
Proof.
  intros Hd. unfold file_write. destruct data as [|x data]; [congruence|].
  set (d := x :: data).
  assert (Hpre : length (firstn offset content
                         ++ repeat x00 (offset - length content)) = offset).
  { rewrite length_app, length_take, repeat_length. lia. }
  rewrite app_assoc.
  rewrite (slice_app_r _ _ offset offset (offset + length d) Hpre) by lia.
  rewrite Nat.sub_diag. replace (offset + length d - offset)%nat with (length d) by lia.
  apply slice_app_l. reflexivity.
Qed.

Lemma convert_to_kawpow_len_length (net : Net) (start_height : Z)
    (chunk r : list byte) :
  convert_to_kawpow_len net start_height chunk = Ok r ->
  (length r mod 120 = 0)%nat.
Proof.
  unfold convert_to_kawpow_len.
  destruct (Nat.eqb_spec (length (convert_loop net (length chunk) chunk 0
                                    start_height []) mod HEADER_SIZE) 0);
    [|discriminate].
  intros [= <-]. assumption.
Qed.


Lemma written_content_slice (c : Blockchain) (old r : list byte) (offset : Z)
    (truncate : bool) :
  r <> [] ->
  slice (Z.to_nat offset) (Z.to_nat offset + length r)
    (written_content c old r offset truncate) = r.
Proof.
  intros Hr. unfold written_content. apply length_file_write_prefix, Hr.
Qed.


Lemma save_chunk_convert_fails (net : Net) (K : Kernels) (self : nat)
    (c : Blockchain) (w : World) (start_height : Z) (chunk : list byte) :
  heap w !! self = Some c -> parent c = None ->
  forkpoint c <= start_height -> 0 <= start_height ->
  is_ok (convert_to_kawpow_len net start_height chunk) = false ->
  exists e, save_chunk net K self start_height chunk w = (Raise e, w).
Proof.
  intros Hs Hp Hf H0 Hconv.
  unfold save_chunk. cbn [save_chunk_from].
  destruct (Z.leb_spec 0 start_height); [|lia]. cbn [negb].
  unfold mbind at 1, io_bind at 1, io_read at 1, deref.
  rewrite Hs, Hp.
  rewrite bool_decide_eq_false_2 by (intros [? ?]; discriminate).
  rewrite andb_false_r.
  destruct (Z.ltb_spec ((start_height - forkpoint c) * Z.of_nat HEADER_SIZE) 0)
    as [Hneg|_]; [unfold HEADER_SIZE in Hneg; lia|].
  unfold mbind at 1, io_bind at 1, io_read at 1.
  destruct (convert_to_kawpow_len net start_height chunk) as [r|e];
    [discriminate Hconv|].
  exists e. reflexivity.
Qed.




(** *** The loops never run out of fuel *)

Lemma chunk_header_len_pos (net : Net) (data : list byte) (p : nat) (s : Z) :
  (80 <= chunk_header_len net data p s)%nat.
Proof.
  unfold chunk_header_len, LEGACY_HEADER_SIZE, HEADER_SIZE.
  repeat match goal with |- context [if ?b then _ else _] => destruct b end;
    lia.
Qed.

(** More rounds than bytes left change nothing: the [while] loop of
    [convert_to_kawpow_len] is modelled in full. *)
Lemma convert_loop_fuel (net : Net) (chunk : list byte)
    (fuel1 fuel2 p : nat) (s : Z) (r : list byte) :
  (length chunk - p <= fuel1)%nat -> (length chunk - p <= fuel2)%nat ->
  convert_loop net fuel1 chunk p s r = convert_loop net fuel2 chunk p s r.
Proof.
  revert fuel2 p s r. induction fuel1 as [|fuel1 IH]; intros fuel2 p s r H1 H2.
  - destruct fuel2 as [|fuel2]; [reflexivity|].
    cbn [convert_loop]. destruct (Nat.ltb_spec p (length chunk)); [lia|].
    reflexivity.
  - destruct fuel2 as [|fuel2]; cbn [convert_loop];
      destruct (Nat.ltb_spec p (length chunk)); try lia; try reflexivity.
    cbn [negb]. pose proof (chunk_header_len_pos net chunk p s).
    apply IH; lia.
Qed.

(** Likewise for the [while] loop of [verify_chunk]. *)
Lemma verify_chunk_loop_fuel (net : Net) (K : Kernels) (w : World)
    (self : nat) (data : list byte) (fuel1 fuel2 p : nat) (s : Z)
    (prev_hash : string) (headers : gmap Z header) :
  (length data - p <= fuel1)%nat -> (length data - p <= fuel2)%nat ->
  verify_chunk_loop net K fuel1 w self data p s prev_hash headers
  = verify_chunk_loop net K fuel2 w self data p s prev_hash headers.
Proof.
  revert fuel2 p s prev_hash headers.
  induction fuel1 as [|fuel1 IH]; intros fuel2 p s prev_hash headers H1 H2.
  - destruct fuel2 as [|fuel2]; [reflexivity|].
    cbn [verify_chunk_loop]. destruct (Nat.ltb_spec p (length data)); [lia|].
    reflexivity.
  - destruct fuel2 as [|fuel2]; cbn [verify_chunk_loop];
      destruct (Nat.ltb_spec p (length data)); try lia; try reflexivity.
    cbn [negb]. pose proof (chunk_header_len_pos net data p s).
    destruct (_ <? chunk_header_len net data p s)%nat; [reflexivity|].
    destruct (match get_hash net K w self s with
              | Ok x => Ok (Some x)
              | Raise (MissingHeader _) => Ok None
              | Raise e => Raise e
              end) as [expected|]; [|reflexivity].
    cbn [mbind result_bind].
    destruct (negb _); [reflexivity|].
    destruct (deserialize_header net _ s) as [hdr|]; [|reflexivity].
    cbn [mbind result_bind].
    destruct (chunk_target net w self s hdr _) as [[target skip]|];
      [|reflexivity].
    cbn [mbind result_bind].
    destruct (verify_header net K hdr prev_hash target expected skip);
      [|reflexivity].
    cbn [mbind result_bind].
    match goal with
    | |- context [if ?b then Ok ?x else ?y] =>
        destruct (if b then Ok x else y) as [ph|]; [|reflexivity]
    end.
    cbn [mbind result_bind]. apply IH; lia.
Qed.

(** *** What the decoder builds *)

Lemma length_slice {A} (a b : nat) (l : list A) :
  (a <= b)%nat -> (b <= length l)%nat -> length (slice a b l) = (b - a)%nat.
Proof.
  intros Hab Hb. unfold slice. rewrite length_take, length_drop. lia.
Qed.

Lemma slice_split {A} (a b c : nat) (l : list A) :
  (a <= b)%nat -> (b <= c)%nat ->
  slice a c l = slice a b l ++ slice b c l.
Proof.
  intros Hab Hbc. unfold slice.
  replace (c - a)%nat with ((b - a) + (c - b))%nat by lia.
  rewrite <- take_take_drop, drop_drop.
  replace (a + (b - a))%nat with b by lia. reflexivity.
Qed.

Lemma skipn_slice {A} (a : nat) (l : list A) :
  skipn a l = slice a (length l) l.
Proof.
  unfold slice. rewrite take_ge; [reflexivity|]. rewrite length_drop. lia.
Qed.

Lemma hex_inj (a b : list byte) : hex a = hex b -> a = b.
Proof.
  intros E. apply (f_equal bfh) in E. rewrite !bfh_hex in E.
  injection E as E. exact E.
Qed.

Lemma uint32_of_bytes (bs : list byte) :
  length bs = 4%nat -> is_uint32 (int_from_bytes_little bs) = true.
Proof.
  intros L. pose proof (int_from_bytes_little_range bs) as H. rewrite L in H.
  change (256 ^ Z.of_nat 4) with (2 ^ 32) in H. unfold is_uint32. lia.
Qed.

Lemma uint64_of_bytes (bs : list byte) :
  length bs = 8%nat -> is_uint64 (int_from_bytes_little bs) = true.
Proof.
  intros L. pose proof (int_from_bytes_little_range bs) as H. rewrite L in H.
  change (256 ^ Z.of_nat 8) with (2 ^ 64) in H. unfold is_uint64. lia.
Qed.

Lemma canonical_hash_encode (bs : list byte) :
  length bs = 32%nat -> is_canonical_hash (hash_encode bs) = true.
Proof.
  intros L. unfold is_canonical_hash, hash_encode.
  rewrite bfh_hex, length_rev, L.
  rewrite bool_decide_eq_true_2 by reflexivity. reflexivity.
Qed.

Lemma int16_of_bytes (bs : list byte) (n : nat) :
  length bs = S n -> int16 (hash_encode bs) = Ok (int_from_bytes_little bs).
Proof.
  intros L. apply int16_hash_encode. intros ->. discriminate L.
Qed.

(** Every header dict [deserialize_header] returns has one of the two
    shapes the round trip is stated for. *)
Lemma deserialize_header_shaped (net : Net) (s : list byte) (height : Z)
    (h : header) :
  deserialize_header net s height = Ok h ->
  legacy_shaped h height || extended_shaped net h height = true.
Proof.
  unfold deserialize_header.
  destruct (bool_decide (s = [])); [discriminate|].
  unfold LEGACY_HEADER_SIZE, HEADER_SIZE.
  destruct (Nat.eqb_spec (length s) 80) as [L|L80];
    [|destruct (Nat.eqb_spec (length s) 120) as [L|L120]; [|discriminate]];
    cbn [orb negb].
  - replace (length s =? 120)%nat with false by (rewrite L; reflexivity).
    rewrite !(int16_of_bytes _ 3) by (rewrite length_slice; lia).
    cbn [mbind result_bind]. intros [= <-].
    apply orb_true_iff. left. unfold legacy_shaped.
    cbn [version prev_block_hash merkle_root timestamp bits nonce nheight
         nonce64 mix_hash block_height].
    rewrite !uint32_of_bytes by (rewrite length_slice; lia).
    rewrite !canonical_hash_encode by (rewrite length_slice; lia).
    rewrite Z.eqb_refl. reflexivity.
  - rewrite (int16_of_bytes (slice 68 72 s) 3),
      (int16_of_bytes (slice 72 76 s) 3) by (rewrite length_slice; lia).
    cbn [mbind result_bind].
    destruct (negb _) eqn:Hpad.
    + rewrite (int16_of_bytes (slice 76 80 s) 3),
        (int16_of_bytes (slice 80 88 s) 7) by (rewrite length_slice; lia).
      cbn [mbind result_bind]. intros [= <-].
      apply orb_true_iff. right. unfold extended_shaped.
      cbn [version prev_block_hash merkle_root timestamp bits nonce nheight
           nonce64 mix_hash block_height].
      rewrite !uint32_of_bytes by (rewrite length_slice; lia).
      rewrite uint64_of_bytes by (rewrite length_slice; lia).
      rewrite !canonical_hash_encode by (rewrite length_slice; lia).
      rewrite Z.eqb_refl. cbn [andb].
      apply negb_true_iff. apply negb_true_iff in Hpad.
      rewrite <- Hpad. clear Hpad.
      destruct ((AuxPowActivationHeight net <=? height)
                && auxpow_bit (int_from_bytes_little (slice 0 4 s)));
        [|reflexivity].
      cbn [andb]. unfold bytes_eqb.
      destruct (Z.eqb_spec (int_from_bytes_little (slice 80 88 s)) 0)
        as [En|En]; [|cbn [andb]].
      * cbn [andb].
        destruct (bool_decide (hash_encode (slice 88 120 s) = zero_hash))
          eqn:Ex.
        -- apply bool_decide_eq_true in Ex. symmetry.
           apply bool_decide_eq_true.
           rewrite skipn_slice, L, (slice_split 80 88 120) by lia.
           change (repeat x00 (120 - 80))
             with (repeat x00 8 ++ repeat x00 32).
           f_equal.
           ++ rewrite <- (le_bytes_int_from (slice 80 88 s)), En.
              rewrite length_slice by lia. reflexivity.
           ++ apply hex_inj in Ex. apply (f_equal (@rev byte)) in Ex.
              rewrite rev_involutive in Ex. rewrite Ex. reflexivity.
        -- symmetry. apply bool_decide_eq_false. intros E.
           apply bool_decide_eq_false in Ex. apply Ex.
           rewrite skipn_slice, L, (slice_split 80 88 120) in E by lia.
           change (repeat x00 (120 - 80))
             with (repeat x00 8 ++ repeat x00 32) in E.
           apply app_inj_1 in E;
             [|rewrite length_slice, repeat_length by lia; reflexivity].
           destruct E as [_ E]. rewrite E. reflexivity.
      * symmetry. apply bool_decide_eq_false. intros E. apply En.
        rewrite skipn_slice, L, (slice_split 80 88 120) in E by lia.
        change (repeat x00 (120 - 80))
          with (repeat x00 8 ++ repeat x00 32) in E.
        apply app_inj_1 in E;
             [|rewrite length_slice, repeat_length by lia; reflexivity].
        destruct E as [E _]. rewrite E. reflexivity.
    + rewrite (int16_of_bytes _ 3) by (rewrite length_slice; lia).
      cbn [mbind result_bind]. intros [= <-].
      apply orb_true_iff. left. unfold legacy_shaped.
      cbn [version prev_block_hash merkle_root timestamp bits nonce nheight
           nonce64 mix_hash block_height].
      rewrite !uint32_of_bytes by (rewrite length_slice; lia).
      rewrite !canonical_hash_encode by (rewrite length_slice; lia).
      rewrite Z.eqb_refl. reflexivity.
Qed.

(** Hence decoding, encoding and decoding again gives what decoding gave. *)
Corollary deserialize_serialize_deserialize (net : Net) (s : list byte)
    (height : Z) (h : header) :
  deserialize_header net s height = Ok h ->
  (t ← serialize_header h; b ← bfh t; deserialize_header net b height) = Ok h.
Proof.
  intros Hd. apply codec_round_trip.
  apply (deserialize_header_shaped net s height h Hd).
Qed.

(** ** Further properties of the codec and of the compact encoding *)

Lemma le_bytes_of_bytes (bs : list byte) (n : nat) :
  length bs = n -> le_bytes n (int_from_bytes_little bs) = bs.
Proof. intros <-. apply le_bytes_int_from. Qed.

Lemma field_bytes_hash_encode (x : list byte) :
  field_bytes (Some (hash_encode x)) = x.
Proof.
  unfold field_bytes, hash_encode. rewrite bfh_hex. apply rev_involutive.
Qed.

Lemma deserialize_header_ok (net : Net) (s : list byte) (height : Z) :
  length s = 80%nat \/ length s = 120%nat ->
  exists h, deserialize_header net s height = Ok h.
Proof.
  intros Hlen. unfold deserialize_header.
  rewrite bool_decide_eq_false_2
    by (intros ->; destruct Hlen as [L|L]; discriminate L).
  unfold LEGACY_HEADER_SIZE, HEADER_SIZE.
  rewrite (int16_of_bytes (slice 68 72 s) 3),
    (int16_of_bytes (slice 72 76 s) 3), (int16_of_bytes (slice 76 80 s) 3)
    by (rewrite length_slice; lia).
  destruct Hlen as [L|L]; rewrite L; cbn [Nat.eqb orb negb andb mbind result_bind];
    [eauto|].
  destruct (negb _); cbn [mbind result_bind]; [|eauto].
  rewrite (int16_of_bytes (slice 80 88 s) 7) by (rewrite length_slice; lia).
  cbn [mbind result_bind]. eauto.
Qed.

(** X1: [deserialize_header] accepts exactly the inputs of 80 or 120
    bytes.  On those it returns a dict that carries the height under
    'block_height', never a 'nonce64' key, and 'nheight' together with
    'mix_hash' or neither; every other input, the empty one included, raises
    [InvalidHeader]. *)
Theorem deserialize_header_lengths (net : Net) (s : list byte) (height : Z) :
  match deserialize_header net s height with
  | Ok h =>
      (length s = 80%nat \/ length s = 120%nat) /\
      block_height h = Some height /\ nonce64 h = None /\
      (is_Some (nheight h) <-> is_Some (mix_hash h))
  | Raise e =>
      length s <> 80%nat /\ length s <> 120%nat /\ is_invalid_header e = true
  end.
Proof.
  unfold deserialize_header.
  destruct (bool_decide (s = [])) eqn:He.
  { apply bool_decide_eq_true in He. subst s. cbn. repeat split; lia. }
  unfold LEGACY_HEADER_SIZE, HEADER_SIZE.
  destruct (Nat.eqb_spec (length s) 80) as [L|L80];
    [|destruct (Nat.eqb_spec (length s) 120) as [L|L120]]; cbn [orb negb].
  - rewrite L. cbn [Nat.eqb].
    rewrite (int16_of_bytes (slice 68 72 s) 3),
      (int16_of_bytes (slice 72 76 s) 3) by (rewrite length_slice; lia).
    cbn [mbind result_bind].
    rewrite (int16_of_bytes (slice 76 80 s) 3) by (rewrite length_slice; lia).
    cbn. repeat split; auto; intros [? ?]; discriminate.
  - rewrite (int16_of_bytes (slice 68 72 s) 3),
      (int16_of_bytes (slice 72 76 s) 3) by (rewrite length_slice; lia).
    cbn [mbind result_bind].
    destruct (negb _).
    + rewrite (int16_of_bytes (slice 76 80 s) 3),
        (int16_of_bytes (slice 80 88 s) 7) by (rewrite length_slice; lia).
      cbn. repeat split; eauto.
    + rewrite (int16_of_bytes (slice 76 80 s) 3) by (rewrite length_slice; lia).
      cbn. repeat split; auto; intros [? ?]; discriminate.
  - cbn. repeat split; assumption.
Qed.

Lemma rev_hex_hash_encode (x : list byte) :
  rev_hex (hash_encode x) = Ok (hex x).
Proof.
  unfold rev_hex, hash_encode. rewrite bfh_hex. cbn.
  rewrite rev_involutive. reflexivity.
Qed.

Lemma wire_bytes_decoded (net : Net) (s : list byte) (height : Z)
    (h : header) :
  deserialize_header net s height = Ok h ->
  wire_bytes h
  = if reads_as_padded_auxpow net s height
    then firstn LEGACY_HEADER_SIZE s else s.
Proof.
  unfold deserialize_header, reads_as_padded_auxpow.
  destruct (bool_decide (s = [])); [discriminate|].
  unfold LEGACY_HEADER_SIZE, HEADER_SIZE.
  destruct (Nat.eqb_spec (length s) 80) as [L|L80];
    [|destruct (Nat.eqb_spec (length s) 120) as [L|L120]]; cbn [orb negb andb];
    [rewrite L; cbn [Nat.eqb] | | discriminate];
    rewrite (int16_of_bytes (slice 68 72 s) 3),
      (int16_of_bytes (slice 72 76 s) 3), (int16_of_bytes (slice 76 80 s) 3)
      by (rewrite length_slice; lia).
  - cbn [mbind result_bind]. intros [= <-]. unfold wire_bytes.
    cbn [version prev_block_hash merkle_root timestamp bits nonce nheight
         nonce64 mix_hash default from_option id].
    rewrite !field_bytes_hash_encode.
    rewrite !le_bytes_of_bytes by (rewrite length_slice; lia).
    rewrite <- !slice_split by lia. apply slice_all. assumption.
  - cbn [mbind result_bind].
    destruct ((AuxPowActivationHeight net <=? height) && _ && _) eqn:Hpad;
      cbn [negb mbind result_bind].
    + intros [= <-]. unfold wire_bytes.
      cbn [version prev_block_hash merkle_root timestamp bits nonce nheight
           nonce64 mix_hash default from_option id].
      rewrite !field_bytes_hash_encode.
      rewrite !le_bytes_of_bytes by (rewrite length_slice; lia).
      rewrite <- !slice_split by lia.
      unfold slice. rewrite Nat.sub_0_r. reflexivity.
    + rewrite (int16_of_bytes (slice 80 88 s) 7) by (rewrite length_slice; lia).
      cbn [mbind result_bind]. intros [= <-]. unfold wire_bytes.
      cbn [version prev_block_hash merkle_root timestamp bits nonce nheight
           nonce64 mix_hash default from_option id].
      rewrite !field_bytes_hash_encode.
      rewrite !le_bytes_of_bytes by (rewrite length_slice; lia).
      rewrite <- !slice_split by lia. apply slice_all. assumption.
Qed.

(** X2: serialising what [deserialize_header] decoded gives back the hex
    of the decoded bytes, except for a 120-byte input that reads as a
    zero-padded AuxPOW header, where it gives the hex of the first 80 bytes
    (the padding is dropped). *)
Theorem serialize_deserialized (net : Net) (s : list byte) (height : Z)
    (h : header) :
  deserialize_header net s height = Ok h ->
  serialize_header h
  = Ok (hex (if reads_as_padded_auxpow net s height
             then firstn LEGACY_HEADER_SIZE s else s)).
Proof.
  intros Hd.
  destruct (codec_round_trip_wire net h height
              (deserialize_header_shaped net s height h Hd)) as (_ & Hser & _).
  rewrite Hser, (wire_bytes_decoded net s height h Hd). reflexivity.
Qed.

Lemma serialize_deserialized_witness :
  serialize_header example_auxpow_header
  = Ok (hex (if reads_as_padded_auxpow example_mainnet
                  (wire_bytes example_auxpow_header ++ repeat x00 40) 1614560
             then firstn LEGACY_HEADER_SIZE
                    (wire_bytes example_auxpow_header ++ repeat x00 40)
             else wire_bytes example_auxpow_header ++ repeat x00 40)).
Proof.
  apply (serialize_deserialized example_mainnet
           (wire_bytes example_auxpow_header ++ repeat x00 40) 1614560
           example_auxpow_header).
  vm_compute. reflexivity.
Defined.

Lemma compact_of_shape (L t : Z) :
  0 <= L <= 32 -> 0 <= t < 256 ^ L -> (L <> 0 -> 256 ^ (L - 1) <= t) ->
  exists N m,
    compact_of L t = N * 2 ^ 24 + m /\
    0 <= N <= 33 /\ 0 <= m < 2 ^ 23 /\ (N = 33 -> m < 2 ^ 16) /\
    ((t = 0 /\ N = 0 /\ m = 0) \/
     (1 <= N /\ 2 ^ 15 <= m /\
      ((N <= 3 /\ m mod 256 ^ (3 - N) = 0 /\ m / 256 ^ (3 - N) = t) \/
       (3 < N /\ m * 256 ^ (N - 3) <= t < (m + 1) * 256 ^ (N - 3))))).
Proof.
  intros HL Ht Hlow. unfold compact_of.
  destruct (Z.leb_spec 3 L) as [H3|H3].
  - assert (HP : 0 < 256 ^ (L - 3)) by (apply Z.pow_pos_nonneg; lia).
    assert (E1 : 256 ^ (L - 1) = 65536 * 256 ^ (L - 3)).
    { rewrite (pow256_split 2 (L - 1)) by lia.
      replace (L - 1 - 2) with (L - 3) by lia. reflexivity. }
    assert (E2 : 256 ^ L = 16777216 * 256 ^ (L - 3)).
    { rewrite (pow256_split 3 L) by lia. reflexivity. }
    specialize (Hlow ltac:(lia)). rewrite E1 in Hlow. rewrite E2 in Ht.
    set (P := 256 ^ (L - 3)) in *.
    assert (Hb : 65536 <= t / P < 16777216).
    { split.
      - apply Z.div_le_lower_bound; lia.
      - apply Z.div_lt_upper_bound; lia. }
    pose proof (Z.mul_div_le t P HP) as Hd1.
    pose proof (Z.mul_succ_div_gt t P HP) as Hd2.
    set (base := t / P) in *.
    change (2 ^ 23) with 8388608. change (2 ^ 24) with 16777216.
    change (2 ^ 16) with 65536. change (2 ^ 15) with 32768.
    destruct (Z.leb_spec 8388608 base) as [Hbig|Hsmall].
    + exists (L + 1), (base / 256).
      assert (E3 : 256 ^ (L + 1 - 3) = 256 * P).
      { unfold P. rewrite (pow256_split 1 (L + 1 - 3)) by lia.
        replace (L + 1 - 3 - 1) with (L - 3) by lia. reflexivity. }
      repeat split; try lia.
      right. repeat split; try lia. right. rewrite E3.
      repeat split; try lia; nia.
    + exists L, base. repeat split; try lia.
      right. repeat split; try lia.
      destruct (Z.eq_dec L 3) as [->|Hne].
      * left. unfold P in *. change (256 ^ (3 - 3)) with 1 in *.
        repeat split; lia.
      * right. fold P. repeat split; try lia.
  - assert (HL3 : L = 0 \/ L = 1 \/ L = 2) by lia.
    change (2 ^ 23) with 8388608. change (2 ^ 24) with 16777216.
    change (2 ^ 16) with 65536. change (2 ^ 15) with 32768.
    destruct HL3 as [->|[->| ->]].
    + change (256 ^ 0) with 1 in Ht. assert (t = 0) as -> by lia.
      exists 0, 0. cbn. repeat split; lia.
    + specialize (Hlow ltac:(lia)). change (256 ^ (1 - 1)) with 1 in Hlow.
      change (256 ^ 1) with 256 in Ht. change (256 ^ (3 - 1)) with 65536.
      destruct (Z.leb_spec 8388608 (t * 65536)) as [Hbig|Hsmall].
      * exists 2, (t * 256).
        replace (t * 65536 / 256) with (t * 256) by lia.
        change (256 ^ (3 - 2)) with 256.
        repeat split; lia.
      * exists 1, (t * 65536).
        repeat split; lia.
    + specialize (Hlow ltac:(lia)). change (256 ^ (2 - 1)) with 256 in Hlow.
      change (256 ^ 2) with 65536 in Ht. change (256 ^ (3 - 2)) with 256.
      destruct (Z.leb_spec 8388608 (t * 256)) as [Hbig|Hsmall].
      * exists 3, t.
        replace (t * 256 / 256) with t by lia.
        change (256 ^ (3 - 3)) with 1.
        repeat split; lia.
      * exists 2, (t * 256). change (256 ^ (3 - 2)) with 256.
        repeat split; lia.
Qed.

(** X3: [target_to_bits] returns a value for exactly the targets in
    [0, 2^256) and raises [OverflowError] for every other integer; the value
    is a canonical compact encoding that fits 32 bits (so the byte loop never
    runs out of bytes). *)
Theorem target_to_bits_total (t : Z) :
  match target_to_bits t with
  | Ok b => 0 <= t < 2 ^ 256 /\ is_uint32 b = true /\ compact_canonical b = true
  | Raise e => e = OverflowError /\ ~ 0 <= t < 2 ^ 256
  end.
Proof.
  destruct (Z.ltb_spec t 0) as [Hneg|Hpos].
  { unfold target_to_bits, to_bytes_big.
    destruct (Z.ltb_spec t 0); [|lia]. cbn. split; [reflexivity|lia]. }
  destruct (Z.leb_spec (2 ^ 256) t) as [Hbig|Hlt].
  { unfold target_to_bits, to_bytes_big.
    destruct (Z.ltb_spec t 0); [lia|].
    change (256 ^ Z.of_nat 32) with (2 ^ 256).
    destruct (Z.leb_spec (2 ^ 256) t); [|lia]. cbn. split; [reflexivity|lia]. }
  destruct (target_to_bits_spec t ltac:(lia)) as (L & HL & Hup & Hlow & ->).
  destruct (compact_of_shape L t HL ltac:(lia) Hlow)
    as (N & m & -> & HN & Hm & H33 & Hcase).
  destruct (compact_fields N m ltac:(lia) Hm) as (HeN & Hem & Hes & Hu).
  split; [lia|]. split; [exact Hu|].
  unfold compact_canonical. rewrite HeN, Hem, Hes. cbn [negb andb].
  destruct Hcase as [(-> & -> & ->)|(HN1 & Hm15 & Hc)]; [reflexivity|].
  apply orb_true_iff. right.
  change (2 ^ 15) with 32768 in Hm15.
  destruct (Z.leb_spec 1 N); [|lia]. destruct (Z.leb_spec 32768 m); [|lia].
  cbn [andb].
  destruct Hc as [(_ & Hmod & _)|(H3 & _)].
  - rewrite Hmod. cbn. apply orb_true_r.
  - destruct (Z.leb_spec 3 N); [reflexivity|lia].
Qed.

(** X4: the compact encoding rounds down.  For every target [t] in
    [0, 2^256), [bits_to_target(target_to_bits(t))] succeeds with a value
    [t'] such that [t' <= t] and [t - t' <= t' / 2^15]; targets below 2^23
    are kept exactly. *)
Theorem compact_rounds_down (t : Z) :
  0 <= t < 2 ^ 256 ->
  exists b t',
    target_to_bits t = Ok b /\ bits_to_target b = Ok t' /\
    t' <= t /\ (t - t') * 2 ^ 15 <= t' /\ (t < 2 ^ 23 -> t' = t).
Proof.
  intros Ht.
  destruct (target_to_bits_spec t Ht) as (L & HL & Hup & Hlow & E).
  destruct (compact_of_shape L t HL ltac:(lia) Hlow)
    as (N & m & EN & HN & Hm & H33 & Hcase).
  destruct (compact_fields N m ltac:(lia) Hm) as (HeN & Hem & Hes & Hu).
  rewrite EN in E. exists (N * 2 ^ 24 + m).
  rewrite bits_to_target_unfold, Hu.
  unfold compact_negative, compact_overflows, compact_value.
  rewrite HeN, Hem, Hes, !andb_false_r. cbn [negb].
  change (2 ^ 16) with 65536 in H33. change (2 ^ 15) with 32768 in *.
  replace ((34 <? N) || (33 <? N) && (255 <? m) || (32 <? N) && (65535 <? m))
    with false.
  2:{ symmetry. destruct (Z.ltb_spec 34 N); [lia|].
      destruct (Z.ltb_spec 33 N); [lia|]. cbn.
      destruct (Z.ltb_spec 32 N); [|reflexivity].
      destruct (Z.ltb_spec 65535 m); [lia|reflexivity]. }
  rewrite andb_false_r.
  destruct Hcase as [(-> & -> & ->)|(HN1 & Hm15 & Hc)].
  { exists 0. cbn. repeat split; try reflexivity; lia. }
  destruct Hc as [(H3 & Hmod & Hdiv)|(H3 & Hlo & Hhi)].
  - destruct (Z.leb_spec N 3); [|lia]. exists t.
    rewrite Hdiv. repeat split; try lia. exact E.
  - destruct (Z.leb_spec N 3); [lia|]. exists (m * 256 ^ (N - 3)).
    assert (0 < 256 ^ (N - 3)) by (apply Z.pow_pos_nonneg; lia).
    repeat split; try lia; try exact E; try nia.
    intros Hsmall. change (2 ^ 23) with 8388608 in Hsmall.
    assert (256 <= 256 ^ (N - 3)).
    { change 256 with (256 ^ 1) at 1. apply Z.pow_le_mono_r; lia. }
    nia.
Qed.

Lemma compact_rounds_down_witness :
  exists b t',
    target_to_bits MAX_TARGET = Ok b /\ bits_to_target b = Ok t' /\
    t' <= MAX_TARGET /\ (MAX_TARGET - t') * 2 ^ 15 <= t' /\
    (MAX_TARGET < 2 ^ 23 -> t' = MAX_TARGET).
Proof. apply (compact_rounds_down MAX_TARGET). unfold MAX_TARGET. lia. Defined.

(** ** Chunks: what [verify_chunk] checks and what it leaves unchecked *)

Lemma chunk_header_len_le (net : Net) (data : list byte) (p : nat) (s : Z) :
  (chunk_header_len net data p s <= 120)%nat.
Proof.
  unfold chunk_header_len, LEGACY_HEADER_SIZE, HEADER_SIZE.
  repeat match goal with |- context [if ?b then _ else _] => destruct b end;
    lia.
Qed.

Lemma length_slice_min {A} (a b : nat) (l : list A) :
  length (slice a b l) = Nat.min (b - a) (length l - a).
Proof. unfold slice. rewrite length_firstn, length_skipn. reflexivity. Qed.

Lemma verify_header_linked (net : Net) (K : Kernels) (h : header)
    (prev_hash : string) (target : Z) (expected : option string)
    (skip : bool) :
  verify_header net K h prev_hash target expected skip = Ok tt ->
  prev_block_hash h = Some prev_hash.
Proof.
  unfold verify_header.
  destruct (bool_decide (Some prev_hash = prev_block_hash h)) eqn:E.
  - apply bool_decide_eq_true in E. congruence.
  - discriminate.
Qed.

Lemma deserialize_header_prev (net : Net) (s : list byte) (height : Z)
    (h : header) :
  deserialize_header net s height = Ok h ->
  prev_block_hash h = Some (hash_encode (slice 4 36 s)).
Proof.
  unfold deserialize_header.
  destruct (bool_decide (s = [])); [discriminate|].
  destruct (negb _); [discriminate|].
  destruct (int16 (hash_encode (slice 68 72 s))); [|discriminate].
  destruct (int16 (hash_encode (slice 72 76 s))); [|discriminate].
  cbn [mbind result_bind].
  destruct (length s =? HEADER_SIZE)%nat.
  - destruct (negb _).
    + destruct (int16 (hash_encode (slice 76 80 s))); [|discriminate].
      destruct (int16 (hash_encode (slice 80 88 s))); [|discriminate].
      cbn. intros [= <-]. reflexivity.
    + destruct (int16 (hash_encode (slice 76 80 s))); [|discriminate].
      cbn. intros [= <-]. reflexivity.
  - destruct (int16 (hash_encode (slice 76 80 s))); [|discriminate].
    cbn. intros [= <-]. reflexivity.
Qed.

(** One round of the loop, read backwards from its success. *)
Lemma verify_chunk_loop_round (net : Net) (K : Kernels) (w : World)
    (self : nat) (fuel : nat) (data : list byte) (p : nat) (s s' : Z)
    (prev_hash : string) (headers : gmap Z header) :
  verify_chunk_loop net K (S fuel) w self data p s prev_hash headers = Ok s' ->
  (p < length data)%nat ->
  let header_len := chunk_header_len net data p s in
  (p + header_len <= length data)%nat ->
  exists hdr x headers',
    deserialize_header net (slice p (p + header_len) data) s = Ok hdr /\
    prev_block_hash hdr = Some prev_hash /\
    (if (max_checkpoint net <? s)
        && (Z.of_nat (p + header_len) <? Z.of_nat (length data) - 36)
     then Ok (hash_encode
                (slice (p + header_len + 4) (p + header_len + 36) data))
     else hash_header net K (Some hdr)) = Ok x /\
    verify_chunk_loop net K fuel w self data (p + header_len) (s + 1) x headers'
    = Ok s'.
Proof.
  intros H Hp hl Hfull. cbn [verify_chunk_loop] in H.
  destruct (Nat.ltb_spec p (length data)) as [_|?]; [|lia]. cbn [negb] in H.
  fold hl in H.
  assert (Hraw : length (slice p (p + hl) data) = hl).
  { rewrite length_slice by lia. lia. }
  rewrite Hraw in H. rewrite Nat.ltb_irrefl in H.
  destruct (match get_hash net K w self s with
            | Ok x => Ok (Some x)
            | Raise (MissingHeader _) => Ok None
            | Raise e => Raise e
            end) as [expected|]; [|discriminate H].
  cbn [mbind result_bind] in H.
  destruct (negb _); [discriminate H|].
  destruct (deserialize_header net (slice p (p + hl) data) s) as [hdr|] eqn:Hd;
    [|discriminate H].
  cbn [mbind result_bind] in H.
  destruct (chunk_target net w self s hdr _) as [[target skip]|];
    [|discriminate H].
  cbn [mbind result_bind] in H.
  destruct (verify_header net K hdr prev_hash target expected skip)
    as [[]|] eqn:Hv; [|discriminate H].
  cbn [mbind result_bind] in H.
  apply verify_header_linked in Hv.
  match type of H with
  | ?c ≫= _ = _ => destruct c as [x|] eqn:Hx; [|discriminate H]
  end.
  cbn [mbind result_bind] in H.
  eexists hdr, x, _. split; [reflexivity|]. split; [exact Hv|].
  split; [exact Hx|]. exact H.
Qed.

Lemma chunk_records_unfold (net : Net) (fuel : nat) (data : list byte)
    (p : nat) (s : Z) :
  (p < length data)%nat ->
  (p + chunk_header_len net data p s <= length data)%nat ->
  chunk_records net (S fuel) data p s
  = (slice p (p + chunk_header_len net data p s) data, s)
    :: chunk_records net fuel data (p + chunk_header_len net data p s) (s + 1).
Proof.
  intros Hp Hfull. cbn [chunk_records].
  destruct (Nat.ltb_spec p (length data)); [|lia]. cbn [negb].
  rewrite length_slice by lia.
  replace (p + chunk_header_len net data p s - p)%nat
    with (chunk_header_len net data p s) by lia.
  rewrite Nat.ltb_irrefl. reflexivity.
Qed.

Lemma chunk_records_stop (net : Net) (fuel : nat) (data : list byte)
    (p : nat) (s : Z) :
  ((length data <= p)%nat
   \/ (length data < p + chunk_header_len net data p s)%nat) ->
  chunk_records net fuel data p s = [].
Proof.
  intros H. destruct fuel as [|fuel]; [reflexivity|]. cbn [chunk_records].
  destruct (Nat.ltb_spec p (length data)) as [Hp|Hp]; [|reflexivity].
  cbn [negb]. rewrite length_slice_min.
  destruct (Nat.ltb_spec
              (Nat.min (p + chunk_header_len net data p s - p) (length data - p))
              (chunk_header_len net data p s)); [reflexivity|lia].
Qed.

Lemma verify_chunk_loop_stop (net : Net) (K : Kernels) (w : World)
    (self : nat) (fuel : nat) (data : list byte) (p : nat) (s : Z)
    (prev_hash : string) (headers : gmap Z header) :
  ((length data <= p)%nat
   \/ (length data < p + chunk_header_len net data p s)%nat) ->
  verify_chunk_loop net K fuel w self data p s prev_hash headers = Ok s.
Proof.
  intros H. destruct fuel as [|fuel]; [reflexivity|]. cbn [verify_chunk_loop].
  destruct (Nat.ltb_spec p (length data)) as [Hp|Hp]; [|reflexivity].
  cbn [negb]. rewrite length_slice_min.
  destruct (Nat.ltb_spec
              (Nat.min (p + chunk_header_len net data p s - p) (length data - p))
              (chunk_header_len net data p s)); [reflexivity|lia].
Qed.

(** The loop returns the height after the last whole header. *)
Lemma verify_chunk_loop_count (net : Net) (K : Kernels) (w : World)
    (self : nat) (data : list byte) (fuel : nat) :
  forall (p : nat) (s s' : Z) (prev_hash : string) (headers : gmap Z header),
  verify_chunk_loop net K fuel w self data p s prev_hash headers = Ok s' ->
  s' = s + Z.of_nat (length (chunk_records net fuel data p s)).
Proof.
  induction fuel as [|fuel IH]; intros p s s' prev_hash headers H.
  - cbn in H. injection H as <-. cbn. lia.
  - destruct (Nat.le_gt_cases (length data) p) as [Hp|Hp].
    { rewrite verify_chunk_loop_stop in H by auto.
      rewrite chunk_records_stop by auto. injection H as <-. cbn. lia. }
    destruct (Nat.le_gt_cases (p + chunk_header_len net data p s) (length data))
      as [Hfull|Hpart].
    2:{ rewrite verify_chunk_loop_stop in H by auto.
        rewrite chunk_records_stop by auto. injection H as <-. cbn. lia. }
    rewrite chunk_records_unfold by assumption.
    destruct (verify_chunk_loop_round net K w self fuel data p s s' prev_hash
                headers H Hp Hfull) as (hdr & x & headers' & _ & _ & _ & Hrest).
    apply IH in Hrest. cbn [length]. lia.
Qed.

Lemma chunk_records_heights (net : Net) (data : list byte) (fuel : nat) :
  forall (p : nat) (s : Z) (i : nat) (r : list byte) (s1 : Z),
  chunk_records net fuel data p s !! i = Some (r, s1) ->
  s1 = s + Z.of_nat i /\ (80 <= length r <= 120)%nat.
Proof.
  induction fuel as [|fuel IH]; intros p s i r s1 H; [discriminate H|].
  cbn [chunk_records] in H.
  destruct (negb _); [discriminate H|].
  destruct (Nat.ltb_spec
              (length (slice p (p + chunk_header_len net data p s) data))
              (chunk_header_len net data p s)) as [|Hlen]; [discriminate H|].
  destruct i as [|i]; cbn in H.
  - injection H as <- <-.
    pose proof (chunk_header_len_pos net data p s).
    pose proof (chunk_header_len_le net data p s).
    rewrite length_slice_min in *. split; lia.
  - apply IH in H. lia.
Qed.

(** Whole headers take at least 80 and at most 120 bytes each, and the
    walk stops only where less than one header is left. *)
Lemma chunk_records_bounds (net : Net) (data : list byte) (fuel : nat) :
  forall (p : nat) (s : Z),
  (p <= length data)%nat ->
  (p + 80 * length (chunk_records net fuel data p s) <= length data)%nat /\
  ((length data - p <= fuel)%nat ->
   (length data < p + 120 * length (chunk_records net fuel data p s) + 120)%nat).
Proof.
  induction fuel as [|fuel IH]; intros p s Hp.
  - cbn. split; lia.
  - pose proof (chunk_header_len_pos net data p s) as H80.
    pose proof (chunk_header_len_le net data p s) as H120.
    destruct (Nat.le_gt_cases (length data) p) as [Hp'|Hp'].
    { rewrite chunk_records_stop by auto. cbn. split; lia. }
    destruct (Nat.le_gt_cases (p + chunk_header_len net data p s) (length data))
      as [Hfull|Hpart].
    2:{ rewrite chunk_records_stop by auto. cbn. split; lia. }
    rewrite chunk_records_unfold by assumption. cbn [length].
    destruct (IH (p + chunk_header_len net data p s)%nat (s + 1) Hfull)
      as [Hlo Hhi].
    split; [lia|]. intros Hfuel. specialize (Hhi ltac:(lia)). lia.
Qed.

Lemma verify_chunk_loop_linked (net : Net) (K : Kernels) (w : World)
    (self : nat) (data : list byte) (fuel : nat) :
  forall (p : nat) (s s' : Z) (prev_hash : string) (headers : gmap Z header),
  verify_chunk_loop net K fuel w self data p s prev_hash headers = Ok s' ->
  let records := chunk_records net fuel data p s in
  (forall r1 s1, records !! 0%nat = Some (r1, s1) ->
     hash_encode (slice 4 36 r1) = prev_hash) /\
  (forall i r1 s1 r2 s2,
     records !! i = Some (r1, s1) -> records !! S i = Some (r2, s2) ->
     s1 <= max_checkpoint net ->
     exists h1,
       deserialize_header net r1 s1 = Ok h1 /\
       hash_header net K (Some h1) = Ok (hash_encode (slice 4 36 r2))).
Proof.
  induction fuel as [|fuel IH]; intros p s s' prev_hash headers H records.
  - subst records. cbn. split; intros; discriminate.
  - subst records.
    destruct (Nat.le_gt_cases (length data) p) as [Hp|Hp].
    { rewrite chunk_records_stop by auto. split; intros; discriminate. }
    destruct (Nat.le_gt_cases (p + chunk_header_len net data p s) (length data))
      as [Hfull|Hpart].
    2:{ rewrite chunk_records_stop by auto. split; intros; discriminate. }
    rewrite chunk_records_unfold by assumption.
    destruct (verify_chunk_loop_round net K w self fuel data p s s' prev_hash
                headers H Hp Hfull)
      as (hdr & x & headers' & Hd & Hprev & Hx & Hrest).
    destruct (IH _ _ _ _ _ Hrest) as [IH0 IHS].
    split.
    + intros r1 s1 [= <- <-].
      apply deserialize_header_prev in Hd. congruence.
    + intros [|i] r1 s1 r2 s2 H1 H2 Hcp.
      * injection H1 as <- <-. cbn in H2.
        exists hdr. split; [exact Hd|].
        destruct (Z.ltb_spec (max_checkpoint net) s) as [|_]; [lia|].
        cbn [andb] in Hx. rewrite Hx. f_equal. symmetry.
        apply (IH0 r2 s2 H2).
      * cbn in H1, H2. apply (IHS i r1 s1 r2 s2 H1 H2 Hcp).
Qed.

(** X6: a chunk that [verify_chunk] accepts at a start height inside the
    DGW checkpoint range starts on a window boundary and holds exactly one
    window of whole headers, [DGW_CHECKPOINTS_SPACING] of them, so its length
    lies between 80 and 120 bytes per header (a trailing part of less than
    one header is tolerated). *)
Theorem verify_chunk_checkpoint_window (net : Net) (K : Kernels) (w : World)
    (self : nat) (start_height : Z) (data : list byte) :
  verify_chunk net K w self start_height data = Ok tt ->
  DGW_CHECKPOINTS_START net <= start_height <= max_checkpoint net ->
  start_height mod DGW_CHECKPOINTS_SPACING net = 0 /\
  Z.of_nat (length (chunk_records net (length data) data 0 start_height))
  = DGW_CHECKPOINTS_SPACING net /\
  80 * DGW_CHECKPOINTS_SPACING net <= Z.of_nat (length data)
  < 120 * (DGW_CHECKPOINTS_SPACING net + 1).
Proof.
  intros H Hregion. unfold verify_chunk in H.
  destruct (get_hash net K w self (start_height - 1)) as [prev_hash|];
    [|discriminate H].
  cbn [mbind result_bind] in H.
  destruct (verify_chunk_loop net K (length data) w self data 0 start_height
              prev_hash ∅) as [s|] eqn:Hloop; [|discriminate H].
  cbn [mbind result_bind] in H.
  apply verify_chunk_loop_count in Hloop.
  destruct (Z.leb_spec (DGW_CHECKPOINTS_START net) start_height); [|lia].
  destruct (Z.leb_spec start_height (max_checkpoint net)); [|lia].
  cbn [andb] in H. unfold py_mod in H.
  destruct (Z.eqb_spec (DGW_CHECKPOINTS_SPACING net) 0); [discriminate H|].
  cbn [mbind result_bind] in H.
  destruct (Z.eqb_spec (start_height mod DGW_CHECKPOINTS_SPACING net) 0)
    as [Hmod|]; [|discriminate H].
  cbn [negb] in H.
  destruct (Z.eqb_spec (s - start_height) (DGW_CHECKPOINTS_SPACING net))
    as [Hn|]; [|discriminate H].
  destruct (chunk_records_bounds net data (length data) 0 start_height
              ltac:(lia)) as [Hlo Hhi].
  specialize (Hhi ltac:(lia)).
  split; [exact Hmod|]. split; lia.
Qed.

(** X7: in a chunk that [verify_chunk] accepts, the first header's
    'prev_block_hash' is the hash the chain gives for the height before the
    chunk, and every header at a height up to the last checkpoint is followed
    by a header whose 'prev_block_hash' is its [hash_header]. *)
Theorem verify_chunk_hash_linked (net : Net) (K : Kernels) (w : World)
    (self : nat) (start_height : Z) (data : list byte) :
  verify_chunk net K w self start_height data = Ok tt ->
  let records := chunk_records net (length data) data 0 start_height in
  (forall r1 s1, records !! 0%nat = Some (r1, s1) ->
     get_hash net K w self (start_height - 1)
     = Ok (hash_encode (slice 4 36 r1))) /\
  (forall i r1 s1 r2 s2,
     records !! i = Some (r1, s1) -> records !! S i = Some (r2, s2) ->
     s1 <= max_checkpoint net ->
     exists h1,
       deserialize_header net r1 s1 = Ok h1 /\
       hash_header net K (Some h1) = Ok (hash_encode (slice 4 36 r2))).
Proof.
  intros H records. unfold verify_chunk in H.
  destruct (get_hash net K w self (start_height - 1)) as [prev_hash|];
    [|discriminate H].
  cbn [mbind result_bind] in H.
  destruct (verify_chunk_loop net K (length data) w self data 0 start_height
              prev_hash ∅) as [s|] eqn:Hloop; [|discriminate H].
  destruct (verify_chunk_loop_linked net K w self data (length data) _ _ _ _ _
              Hloop) as [H0 HS].
  split.
  - intros r1 s1 Hr. rewrite (H0 r1 s1 Hr). reflexivity.
  - exact HS.
Qed.

Lemma verify_chunk_checkpoint_window_witness :
  0 mod DGW_CHECKPOINTS_SPACING short_window_net = 0 /\
  Z.of_nat (length (chunk_records short_window_net (length short_window_chunk)
                      short_window_chunk 0 0))
  = DGW_CHECKPOINTS_SPACING short_window_net /\
  80 * DGW_CHECKPOINTS_SPACING short_window_net
  <= Z.of_nat (length short_window_chunk)
  < 120 * (DGW_CHECKPOINTS_SPACING short_window_net + 1).
Proof.
  apply (verify_chunk_checkpoint_window short_window_net example_kernels
           example_world 0 0 short_window_chunk).
  - vm_compute. reflexivity.
  - vm_compute. split; discriminate.
Defined.

Lemma verify_chunk_hash_linked_witness :
  let records := chunk_records short_window_net (length short_window_chunk)
                   short_window_chunk 0 0 in
  (forall r1 s1, records !! 0%nat = Some (r1, s1) ->
     get_hash short_window_net example_kernels example_world 0 (0 - 1)
     = Ok (hash_encode (slice 4 36 r1))) /\
  (forall i r1 s1 r2 s2,
     records !! i = Some (r1, s1) -> records !! S i = Some (r2, s2) ->
     s1 <= max_checkpoint short_window_net ->
     exists h1,
       deserialize_header short_window_net r1 s1 = Ok h1 /\
       hash_header short_window_net example_kernels (Some h1)
       = Ok (hash_encode (slice 4 36 r2))).
Proof.
  apply (verify_chunk_hash_linked short_window_net example_kernels
           example_world 0 0 short_window_chunk).
  vm_compute. reflexivity.
Defined.

Lemma substring_hex (n : nat) (b : list byte) :
  substring 0 (2 * n) (hex b) = hex (firstn n b).
Proof.
  revert b. induction n as [|n IH]; intros b.
  - cbn. destruct (hex b); reflexivity.
  - destruct b as [|x b]; [reflexivity|].
    replace (2 * S n)%nat with (S (S (2 * n))) by lia.
    cbn [hex substring firstn]. rewrite IH. reflexivity.
Qed.

Lemma is_auxpow_header_decoded (net : Net) (s : list byte) (height : Z)
    (h : header) :
  deserialize_header net s height = Ok h ->
  is_auxpow_header net h
  = auxpow_bit (int_from_bytes_little (slice 0 4 s))
    && (AuxPowActivationHeight net <=? height).
Proof.
  intros Hd. unfold is_auxpow_header.
  assert (version h = Some (int_from_bytes_little (slice 0 4 s))
          /\ block_height h = Some height) as [-> ->]; [|reflexivity].
  revert Hd. unfold deserialize_header.
  destruct (bool_decide (s = [])); [discriminate|].
  destruct (negb _); [discriminate|].
  destruct (int16 (hash_encode (slice 68 72 s))); [|discriminate].
  destruct (int16 (hash_encode (slice 72 76 s))); [|discriminate].
  cbn [mbind result_bind].
  destruct (length s =? HEADER_SIZE)%nat.
  - destruct (negb _).
    + destruct (int16 (hash_encode (slice 76 80 s))); [|discriminate].
      destruct (int16 (hash_encode (slice 80 88 s))); [|discriminate].
      cbn. intros [= <-]. split; reflexivity.
    + destruct (int16 (hash_encode (slice 76 80 s))); [|discriminate].
      cbn. intros [= <-]. split; reflexivity.
  - destruct (int16 (hash_encode (slice 76 80 s))); [|discriminate].
    cbn. intros [= <-]. split; reflexivity.
Qed.

Lemma deserialize_header_fields (net : Net) (s : list byte) (height : Z)
    (h : header) :
  deserialize_header net s height = Ok h ->
  version h = Some (int_from_bytes_little (slice 0 4 s)) /\
  prev_block_hash h = Some (hash_encode (slice 4 36 s)) /\
  merkle_root h = Some (hash_encode (slice 36 68 s)) /\
  timestamp h = Some (int_from_bytes_little (slice 68 72 s)) /\
  bits h = Some (int_from_bytes_little (slice 72 76 s)) /\
  block_height h = Some height /\
  (length s = 80%nat \/ length s = 120%nat).
Proof.
  unfold deserialize_header.
  destruct (bool_decide (s = [])); [discriminate|].
  unfold LEGACY_HEADER_SIZE, HEADER_SIZE.
  destruct (Nat.eqb_spec (length s) 80) as [L|L80];
    [|destruct (Nat.eqb_spec (length s) 120) as [L|L120]]; cbn [orb negb];
    [rewrite L; cbn [Nat.eqb] | | discriminate].
  - rewrite (int16_of_bytes (slice 68 72 s) 3),
      (int16_of_bytes (slice 72 76 s) 3) by (rewrite length_slice; lia).
    cbn [mbind result_bind].
    destruct (int16 (hash_encode (slice 76 80 s))); [|discriminate].
    cbn. intros [= <-]. cbn. repeat split; auto.
  - rewrite (int16_of_bytes (slice 68 72 s) 3),
      (int16_of_bytes (slice 72 76 s) 3) by (rewrite length_slice; lia).
    cbn [mbind result_bind].
    destruct (negb _).
    + destruct (int16 (hash_encode (slice 76 80 s))); [|discriminate].
      destruct (int16 (hash_encode (slice 80 88 s))); [|discriminate].
      cbn. intros [= <-]. cbn. repeat split; auto.
    + destruct (int16 (hash_encode (slice 76 80 s))); [|discriminate].
      cbn. intros [= <-]. cbn. repeat split; auto.
Qed.

Lemma serialize_header_decoded (net : Net) (s : list byte) (height : Z)
    (h : header) :
  deserialize_header net s height = Ok h ->
  is_auxpow_header net h = false ->
  serialize_header h = Ok (hex s).
Proof.
  intros Hd Ha.
  destruct (codec_round_trip_wire net h height
              (deserialize_header_shaped net s height h Hd)) as (_ & Hser & _).
  rewrite Hser, (wire_bytes_decoded net s height h Hd).
  rewrite (is_auxpow_header_decoded net s height h Hd) in Ha.
  unfold reads_as_padded_auxpow.
  destruct (auxpow_bit (int_from_bytes_little (slice 0 4 s)));
    destruct (AuxPowActivationHeight net <=? height);
    try discriminate Ha; rewrite ?andb_false_r; reflexivity.
Qed.

Lemma hash_header_extended_ok (net : Net) (K : Kernels) (s : list byte)
    (height : Z) (h : header) :
  deserialize_header net s height = Ok h -> length s = 120%nat ->
  is_ok (hash_header net K (Some h)) = true.
Proof.
  intros Hd L.
  destruct (deserialize_header_fields net s height h Hd)
    as (_ & Hp & _ & Ht & _ & _ & _).
  unfold hash_header. rewrite Hp.
  fold (is_auxpow_header net h).
  destruct (is_auxpow_header net h) eqn:Ha.
  { destruct (codec_round_trip_wire net h height
                (deserialize_header_shaped net s height h Hd))
      as (_ & -> & _). reflexivity. }
  rewrite (serialize_header_decoded net s height h Hd Ha), Ht.
  cbn [getitem mbind result_bind negb].
  set (ts := int_from_bytes_little (slice 68 72 s)).
  assert (Hk : forall lv,
            (b ← bfh (hex s);
             final_hash ← (nNonce64 ← unpack_Q (slice 80 88 b);
                           Ok (revb (lv (revb (sha256d K (firstn 80 b)))
                                        (revb (slice 88 120 b)) nNonce64)));
             Ok (hash_encode final_hash))
            = Ok (hash_encode
                    (revb (lv (revb (sha256d K (firstn 80 s)))
                             (revb (slice 88 120 s))
                             (int_from_bytes_little (slice 80 88 s)))))).
  { intros lv. rewrite bfh_hex. cbn [mbind result_bind]. unfold unpack_Q.
    rewrite length_slice_min, L. reflexivity. }
  destruct ((KawpowActivationTS net <=? ts) && (ts <? MeowpowActivationTS net)).
  { cbn [mbind result_bind].
    unfold hash_raw_header_kawpow, kawpow_hash. rewrite Hk. reflexivity. }
  destruct (MeowpowActivationTS net <=? ts).
  { cbn [mbind result_bind].
    unfold hash_raw_header_meowpow, meowpow_hash. rewrite Hk. reflexivity. }
  cbn [mbind result_bind].
  change (80 * 2)%nat with (2 * 80)%nat. rewrite substring_hex.
  unfold hash_raw_header_v2, hash_raw_header_v1. rewrite bfh_hex.
  destruct (X16Rv2ActivationTS net <=? ts); reflexivity.
Qed.

(** X5: [hash_header] of a header that [deserialize_header] decoded raises
    (struct.error, from unpacking the 64-bit nonce) exactly when the input
    had 80 bytes, the header is not AuxPOW and its timestamp has reached
    KawPow or MeowPow activation; on every other decoded header it returns
    a hash. *)
Theorem hash_header_decoded (net : Net) (K : Kernels) (s : list byte)
    (height : Z) (h : header) :
  deserialize_header net s height = Ok h ->
  let ts := int_from_bytes_little (slice 68 72 s) in
  if (length s =? 80)%nat && negb (is_auxpow_header net h)
     && ((KawpowActivationTS net <=? ts) || (MeowpowActivationTS net <=? ts))
  then hash_header net K (Some h) = Raise StructError
  else is_ok (hash_header net K (Some h)) = true.
Proof.
  intros Hd ts.
  destruct (codec_round_trip_wire net h height
              (deserialize_header_shaped net s height h Hd)) as (_ & Hwire & _).
  destruct (deserialize_header_fields net s height h Hd)
    as (Hv & Hp & _ & Ht & _ & Hh & Hlen).
  unfold hash_header. rewrite Hp.
  fold (is_auxpow_header net h).
  destruct (is_auxpow_header net h) eqn:Ha.
  { rewrite andb_false_r. cbn [andb negb]. rewrite Hwire. reflexivity. }
  pose proof (serialize_header_decoded net s height h Hd Ha) as Hser.
  rewrite Ht. cbn [getitem mbind result_bind negb].
  fold ts. rewrite andb_true_r.
  assert (Hk : forall lv,
            (b ← bfh (hex s);
             final_hash ← (nNonce64 ← unpack_Q (slice 80 88 b);
                           Ok (revb (lv (revb (sha256d K (firstn 80 b)))
                                        (revb (slice 88 120 b)) nNonce64)));
             Ok (hash_encode final_hash))
            = if (length s =? 80)%nat then Raise StructError
              else Ok (hash_encode
                         (revb (lv (revb (sha256d K (firstn 80 s)))
                                  (revb (slice 88 120 s))
                                  (int_from_bytes_little (slice 80 88 s)))))).
  { intros lv. rewrite bfh_hex. cbn [mbind result_bind]. unfold unpack_Q.
    rewrite length_slice_min.
    destruct Hlen as [L|L]; rewrite L; reflexivity. }
  destruct ((KawpowActivationTS net <=? ts) && (ts <? MeowpowActivationTS net))
    eqn:Hkaw.
  { rewrite Hser. cbn [mbind result_bind].
    unfold hash_raw_header_kawpow, kawpow_hash. rewrite Hk.
    apply andb_true_iff in Hkaw. destruct Hkaw as [-> _]. cbn [orb].
    destruct (length s =? 80)%nat; reflexivity. }
  destruct (Z.leb_spec (MeowpowActivationTS net) ts) as [Hm|Hm].
  { rewrite Hser. cbn [mbind result_bind].
    unfold hash_raw_header_meowpow, meowpow_hash. rewrite Hk.
    rewrite orb_true_r.
    destruct (length s =? 80)%nat; reflexivity. }
  assert (Hnk : (KawpowActivationTS net <=? ts) = false).
  { destruct (Z.leb_spec (KawpowActivationTS net) ts); [|reflexivity].
    destruct (Z.ltb_spec ts (MeowpowActivationTS net)); [|lia].
    discriminate Hkaw. }
  rewrite Hnk. cbn [orb]. rewrite andb_false_r.
  rewrite Hser. cbn [mbind result_bind].
  change (80 * 2)%nat with (2 * 80)%nat. rewrite substring_hex.
  unfold hash_raw_header_v2, hash_raw_header_v1. rewrite bfh_hex.
  destruct (X16Rv2ActivationTS net <=? ts); reflexivity.
Qed.

Lemma verify_header_sampled (net : Net) (K : Kernels) (h : header)
    (prev_hash : string) (target : Z) (expected : option string)
    (skip : bool) (height : Z) :
  prev_block_hash h = Some prev_hash ->
  block_height h = Some height ->
  is_auxpow_header net h = false ->
  max_checkpoint net < height -> height mod 10 <> 0 ->
  verify_header net K h prev_hash target expected skip = Ok tt.
Proof.
  intros Hp Hh Ha Hcp Hmod. unfold verify_header.
  rewrite bool_decide_eq_true_2 by congruence. cbn [negb].
  destruct (TESTNET net); [reflexivity|].
  fold (is_auxpow_header net h). rewrite Ha, Hh. cbn [default from_option id].
  destruct (Z.ltb_spec (max_checkpoint net) height); [|lia].
  destruct (Z.eqb_spec (height mod 10) 0); [lia|]. reflexivity.
Qed.

Lemma verify_header_testnet (net : Net) (K : Kernels) (h : header)
    (prev_hash : string) (target : Z) (expected : option string)
    (skip : bool) :
  TESTNET net = true -> prev_block_hash h = Some prev_hash ->
  verify_header net K h prev_hash target expected skip = Ok tt.
Proof.
  intros Ht Hp. unfold verify_header.
  rewrite bool_decide_eq_true_2 by congruence. cbn [negb].
  rewrite Ht. reflexivity.
Qed.

(** One round of the loop past the last checkpoint, on a 120-byte record
    below the AuxPOW activation height whose proof of work is not sampled. *)
Lemma verify_chunk_loop_unsampled_round (net : Net) (K : Kernels) (w : World)
    (self : nat) (fuel : nat) (data : list byte) (p : nat) (s : Z)
    (headers : gmap Z header) :
  (p + 120 <= length data)%nat ->
  max_checkpoint net < s ->
  KawpowActivationHeight net <= s -> s < AuxPowActivationHeight net ->
  (TESTNET net = true \/ s mod 10 <> 0) ->
  match get_hash net K w self s with
  | Ok _ | Raise (MissingHeader _) => True
  | Raise _ => False
  end ->
  is_ok (bits_to_target
           (int_from_bytes_little (slice (p + 72) (p + 76) data))) = true ->
  exists hdr headers',
    deserialize_header net (slice p (p + 120) data) s = Ok hdr /\
    verify_chunk_loop net K (S fuel) w self data p s
      (hash_encode (slice (p + 4) (p + 36) data)) headers
    = (x ← (if Z.of_nat (p + 120) <? Z.of_nat (length data) - 36
            then Ok (hash_encode (slice (p + 120 + 4) (p + 120 + 36) data))
            else hash_header net K (Some hdr));
       verify_chunk_loop net K fuel w self data (p + 120) (s + 1) x headers').
Proof.
  intros Hfull Hcp Hk Ha Hsamp Hget Hbits.
  assert (Hl : chunk_header_len net data p s = 120%nat).
  { unfold chunk_header_len.
    destruct (Z.leb_spec (AuxPowActivationHeight net) s); [lia|].
    destruct (Z.leb_spec (KawpowActivationHeight net) s); [|lia].
    reflexivity. }
  set (raw := slice p (p + 120) data).
  assert (Hraw : length raw = 120%nat).
  { unfold raw. rewrite length_slice by lia. lia. }
  destruct (deserialize_header_ok net raw s (or_intror Hraw)) as [hdr Ed].
  destruct (deserialize_header_fields net raw s hdr Ed)
    as (Hv & Hp & _ & _ & Hb & Hh & _).
  assert (Hsl : forall a b, (a <= b)%nat -> (b <= 120)%nat ->
            slice a b raw = slice (p + a) (p + b) data).
  { intros a b Hab Hb120. unfold raw, slice.
    rewrite skipn_firstn_comm, firstn_firstn, skipn_skipn.
    f_equal; [lia|]. f_equal; lia. }
  exists hdr. eexists. split; [exact Ed|].
  cbn [verify_chunk_loop].
  destruct (Nat.ltb_spec p (length data)); [|lia]. cbn [negb].
  rewrite Hl. fold raw. rewrite Hraw, Nat.ltb_irrefl.
  assert (Hexp : exists expected,
            match get_hash net K w self s with
            | Ok x => Ok (Some x)
            | Raise (MissingHeader _) => Ok None
            | Raise e => Raise e
            end = Ok expected).
  { destruct (get_hash net K w self s) as [x|e]; [eauto|].
    destruct e; try contradiction. eauto. }
  destruct Hexp as [expected ->]. cbn [mbind result_bind].
  change (negb ((120 =? LEGACY_HEADER_SIZE)%nat || (120 =? HEADER_SIZE)%nat))
    with false.
  cbn match. rewrite Ed. cbn [mbind result_bind].
  unfold chunk_target.
  replace ((DGW_CHECKPOINTS_START net <=? s) && (s <=? max_checkpoint net))
    with false
    by (symmetry; destruct (Z.leb_spec s (max_checkpoint net));
        [lia|apply andb_false_r]).
  rewrite Hb. cbn [getitem mbind result_bind].
  rewrite (Hsl 72 76)%nat by lia.
  destruct (bits_to_target _) as [target|]; [|discriminate Hbits].
  cbn [mbind result_bind].
  assert (Hnaux : is_auxpow_header net hdr = false).
  { unfold is_auxpow_header. rewrite Hh. cbn [default from_option id].
    destruct (Z.leb_spec (AuxPowActivationHeight net) s); [lia|].
    apply andb_false_r. }
  assert (Hver : verify_header net K hdr
                   (hash_encode (slice (p + 4) (p + 36) data)) target expected
                   true = Ok tt).
  { rewrite (Hsl 4 36)%nat in Hp by lia.
    destruct Hsamp as [Ht|Hm].
    - apply verify_header_testnet; assumption.
    - apply (verify_header_sampled net K hdr _ target expected true s);
        assumption. }
  rewrite Hver. cbn [mbind result_bind].
  destruct (Z.ltb_spec (max_checkpoint net) s); [|lia]. cbn [andb].
  reflexivity.
Qed.

Lemma verify_chunk_loop_unsampled (net : Net) (K : Kernels) (w : World)
    (self : nat) (data : list byte) (k : nat) :
  forall (fuel p : nat) (s : Z) (headers : gmap Z header),
  length data = (p + 120 * k)%nat -> (k < fuel)%nat ->
  max_checkpoint net < s -> KawpowActivationHeight net <= s ->
  s + Z.of_nat k <= AuxPowActivationHeight net ->
  (TESTNET net = true
   \/ forall i, 0 <= i < Z.of_nat k -> (s + i) mod 10 <> 0) ->
  (forall i, 0 <= i < Z.of_nat k ->
     match get_hash net K w self (s + i) with
     | Ok _ | Raise (MissingHeader _) => True
     | Raise _ => False
     end) ->
  (forall i : nat, (i < k)%nat ->
     is_ok (bits_to_target
              (int_from_bytes_little
                 (slice (p + 120 * i + 72) (p + 120 * i + 76) data))) = true) ->
  verify_chunk_loop net K fuel w self data p s
    (hash_encode (slice (p + 4) (p + 36) data)) headers
  = Ok (s + Z.of_nat k).
Proof.
  induction k as [|k IH];
    intros fuel p s headers Hlen Hfuel Hcp Hkaw Haux Hsamp Hget Hbits.
  - rewrite verify_chunk_loop_stop by (left; lia). f_equal; lia.
  - destruct fuel as [|fuel]; [lia|].
    destruct (verify_chunk_loop_unsampled_round net K w self fuel data p s
                headers) as (hdr & headers' & Hd & ->); try lia.
    { destruct Hsamp as [Ht|Hm]; [left; exact Ht|right].
      specialize (Hm 0 ltac:(lia)). rewrite Z.add_0_r in Hm. exact Hm. }
    { specialize (Hget 0 ltac:(lia)). rewrite Z.add_0_r in Hget. exact Hget. }
    { specialize (Hbits 0%nat ltac:(lia)).
      rewrite Nat.mul_0_r, Nat.add_0_r in Hbits. exact Hbits. }
    destruct k as [|k].
    + destruct (Z.ltb_spec (Z.of_nat (p + 120)) (Z.of_nat (length data) - 36));
        [lia|].
      pose proof (hash_header_extended_ok net K _ s hdr Hd) as Hh.
      rewrite length_slice in Hh by lia. specialize (Hh ltac:(lia)).
      destruct (hash_header net K (Some hdr)) as [x|]; [|discriminate Hh].
      cbn [mbind result_bind].
      rewrite verify_chunk_loop_stop by (left; lia). f_equal; lia.
    + destruct (Z.ltb_spec (Z.of_nat (p + 120)) (Z.of_nat (length data) - 36));
        [|lia].
      cbn [mbind result_bind].
      rewrite (IH fuel (p + 120)%nat (s + 1) headers'); try lia.
      * f_equal; lia.
      * destruct Hsamp as [Ht|Hm]; [left; exact Ht|right].
        intros i Hi. replace (s + 1 + i) with (s + (i + 1)) by lia.
        apply Hm. lia.
      * intros i Hi. replace (s + 1 + i) with (s + (i + 1)) by lia.
        apply Hget. lia.
      * intros i Hi. specialize (Hbits (S i) ltac:(lia)).
        replace (p + 120 + 120 * i + 72)%nat with (p + 120 * S i + 72)%nat
          by lia.
        replace (p + 120 + 120 * i + 76)%nat with (p + 120 * S i + 76)%nat
          by lia.
        exact Hbits.
Qed.

(** X8: past the last checkpoint and below AuxPOW activation, a chunk of
    whole 120-byte headers at heights none of which is a multiple of ten (any
    heights on testnet) is accepted as soon as its first header links to the
    chain, every 'bits' field decodes and the stored hashes can be looked up:
    neither the links between its headers, nor proof of work, nor the stored
    hashes are compared. *)
Theorem verify_chunk_between_samples (net : Net) (K : Kernels) (w : World)
    (self : nat) (start_height : Z) (data : list byte) (n : nat) :
  length data = (120 * S n)%nat ->
  max_checkpoint net < start_height ->
  KawpowActivationHeight net <= start_height ->
  start_height + Z.of_nat n < AuxPowActivationHeight net ->
  (TESTNET net = true
   \/ forall i, 0 <= i <= Z.of_nat n -> (start_height + i) mod 10 <> 0) ->
  (forall i, 0 <= i <= Z.of_nat n ->
     match get_hash net K w self (start_height + i) with
     | Ok _ | Raise (MissingHeader _) => True
     | Raise _ => False
     end) ->
  (forall i : nat, (i <= n)%nat ->
     is_ok (bits_to_target
              (int_from_bytes_little
                 (slice (120 * i + 72) (120 * i + 76) data))) = true) ->
  get_hash net K w self (start_height - 1)
  = Ok (hash_encode (slice 4 36 data)) ->
  verify_chunk net K w self start_height data = Ok tt.
Proof.
  intros Hlen Hcp Hkaw Haux Hsamp Hget Hbits Hprev.
  unfold verify_chunk. rewrite Hprev. cbn [mbind result_bind].
  rewrite (verify_chunk_loop_unsampled net K w self data (S n)
             (length data) 0 start_height ∅); try lia.
  - cbn [mbind result_bind].
    destruct (Z.leb_spec start_height (max_checkpoint net)); [lia|].
    rewrite andb_false_r. reflexivity.
  - destruct Hsamp as [Ht|Hm]; [left; exact Ht|right].
    intros i Hi. apply Hm. lia.
  - intros i Hi. apply Hget. lia.
  - intros i Hi. apply (Hbits i). lia.
Qed.

Lemma verify_chunk_between_samples_witness :
  verify_chunk example_testnet example_kernels example_world 0 3
    (example_chunk ++ unlinked_header) = Ok tt.
Proof.
  apply (verify_chunk_between_samples example_testnet example_kernels
           example_world 0 3 (example_chunk ++ unlinked_header) 1).
  - reflexivity.
  - vm_compute. reflexivity.
  - vm_compute. discriminate.
  - vm_compute. reflexivity.
  - left. reflexivity.
  - intros i Hi. assert (i = 0 \/ i = 1) as [->| ->] by lia;
      vm_compute; exact I.
  - intros [|[|i]] Hi; [vm_compute; reflexivity ..|lia].
  - vm_compute. reflexivity.
Defined.

Lemma hash_header_decoded_witness :
  let ts := int_from_bytes_little
              (slice 68 72 (wire_bytes example_legacy_header)) in
  if (length (wire_bytes example_legacy_header) =? 80)%nat
     && negb (is_auxpow_header example_mainnet example_legacy_header)
     && ((KawpowActivationTS example_mainnet <=? ts)
         || (MeowpowActivationTS example_mainnet <=? ts))
  then hash_header example_mainnet example_kernels (Some example_legacy_header)
       = Raise StructError
  else is_ok (hash_header example_mainnet example_kernels
                (Some example_legacy_header)) = true.
Proof.
  apply (hash_header_decoded example_mainnet example_kernels
           (wire_bytes example_legacy_header) 1 example_legacy_header).
  vm_compute. reflexivity.
Defined.

(** ** The header file: reading records back, saving chunks *)

Lemma slice_firstn {A} (a b n : nat) (l : list A) :
  (b <= n)%nat -> slice a b (firstn n l) = slice a b l.
Proof.
  intros Hb. unfold slice.
  rewrite skipn_firstn_comm, firstn_firstn. f_equal. lia.
Qed.

Lemma deserialize_padded (net : Net) (rec : list byte) (height : Z) :
  reads_as_padded_auxpow net rec height = true ->
  deserialize_header net (firstn LEGACY_HEADER_SIZE rec) height
  = deserialize_header net rec height.
Proof.
  unfold reads_as_padded_auxpow, LEGACY_HEADER_SIZE, HEADER_SIZE.
  intros H. apply andb_true_iff in H. destruct H as [H Htail].
  apply andb_true_iff in H. destruct H as [H Hbit].
  apply andb_true_iff in H. destruct H as [Hlen Hact].
  apply Nat.eqb_eq in Hlen.
  assert (L80 : length (firstn 80 rec) = 80%nat)
    by (rewrite length_firstn; lia).
  unfold deserialize_header, LEGACY_HEADER_SIZE, HEADER_SIZE.
  rewrite L80, Hlen. cbn [Nat.eqb orb negb].
  destruct rec as [|x rec]; [discriminate Hlen|].
  cbn [firstn].
  rewrite !bool_decide_eq_false_2 by discriminate.
  change (x :: firstn 79 rec) with (firstn 80 (x :: rec)).
  rewrite !slice_firstn by lia.
  rewrite Hact, Hbit, Htail. cbn [andb negb]. reflexivity.
Qed.

Lemma strip_padding_same (net : Net) (rec : list byte) (height_ : Z) :
  length rec = 120%nat ->
  deserialize_header net
    (if (AuxPowActivationHeight net <=? height_)
        && (length rec =? HEADER_SIZE)%nat
     then if auxpow_bit (int_from_bytes_little (slice 0 4 rec))
          then if bytes_eqb (skipn LEGACY_HEADER_SIZE rec)
                    (repeat x00 (HEADER_SIZE - LEGACY_HEADER_SIZE))
               then firstn LEGACY_HEADER_SIZE rec
               else rec
          else rec
     else rec) height_
  = deserialize_header net rec height_.
Proof.
  intros L.
  pose proof (deserialize_padded net rec height_) as Hdp.
  unfold reads_as_padded_auxpow in Hdp.
  unfold HEADER_SIZE, LEGACY_HEADER_SIZE in *.
  rewrite L in *. cbn [Nat.eqb andb] in Hdp. rewrite andb_true_r.
  destruct (AuxPowActivationHeight net <=? height_); [|reflexivity].
  destruct (auxpow_bit (int_from_bytes_little (slice 0 4 rec)));
    [|reflexivity].
  destruct (bytes_eqb (skipn 80 rec) (repeat x00 (120 - 80)));
    [|reflexivity].
  apply Hdp. reflexivity.
Qed.

(** X9: for a height at or above the chain's forkpoint, [read_header]
    returns None below 0 and above the chain's height; otherwise it reads the
    120-byte record at offset (height - forkpoint) * 120 of the chain's file
    (raising if the file is missing or ends before the record is complete),
    returns None for an all-zero record and else exactly what
    [deserialize_header] gives for the whole record: stripping the padding
    of an AuxPOW record first changes nothing. *)
Theorem read_header_record (net : Net) (w : World) (self : nat)
    (c : Blockchain) (height_ : Z) :
  heap w !! self = Some c -> forkpoint c <= height_ ->
  read_header net w self height_
  = if (height_ <? 0) || (height c <? height_) then Ok None
    else
      name ← path c;
      content ← open_file w name;
      let rec := slice (Z.to_nat ((height_ - forkpoint c) * 120))
                   (Z.to_nat ((height_ - forkpoint c) * 120) + 120) content in
      if (length rec <? 120)%nat then
        Raise (PlainException "Expected to read a full header")
      else decode_record net rec height_.
Proof.
  intros Hs Hf. unfold read_header. cbn [read_header_from].
  unfold deref. rewrite Hs. cbn [mbind result_bind].
  destruct (Z.ltb_spec height_ 0); [reflexivity|]. cbn [orb].
  destruct (Z.ltb_spec height_ (forkpoint c)); [lia|].
  destruct (Z.ltb_spec (height c) height_); [reflexivity|].
  destruct (path c) as [name|]; [|reflexivity]. cbn [mbind result_bind].
  destruct (open_file w name) as [content|]; [|reflexivity].
  cbn [mbind result_bind]. unfold decode_record.
  change (Z.of_nat HEADER_SIZE) with 120.
  set (off := Z.to_nat ((height_ - forkpoint c) * 120)).
  replace (firstn HEADER_SIZE (skipn off content))
    with (slice off (off + 120) content)
    by (unfold slice, HEADER_SIZE; f_equal; lia).
  set (rec := slice off (off + 120) content).
  change (length rec <? HEADER_SIZE)%nat with (length rec <? 120)%nat.
  destruct (Nat.ltb_spec (length rec) 120) as [|Hlen]; [reflexivity|].
  destruct (bytes_eqb rec (repeat x00 HEADER_SIZE)); [reflexivity|].
  rewrite strip_padding_same; [reflexivity|].
  unfold rec in *. rewrite length_slice_min in *. lia.
Qed.

Lemma read_header_record_witness :
  read_header example_testnet example_world 0 1
  = if (1 <? 0) || (height example_main_chain <? 1) then Ok None
    else
      name ← path example_main_chain;
      content ← open_file example_world name;
      let rec := slice (Z.to_nat ((1 - forkpoint example_main_chain) * 120))
                   (Z.to_nat ((1 - forkpoint example_main_chain) * 120) + 120)
                   content in
      if (length rec <? 120)%nat then
        Raise (PlainException "Expected to read a full header")
      else decode_record example_testnet rec 1.
Proof.
  apply (read_header_record example_testnet example_world 0
           example_main_chain 1).
  - reflexivity.
  - vm_compute. discriminate.
Defined.

Lemma slice_slice {A} (a b c d : nat) (l : list A) :
  (c + b <= d)%nat -> slice a b (slice c d l) = slice (c + a) (c + b) l.
Proof.
  intros H. unfold slice.
  rewrite skipn_firstn_comm, firstn_firstn, skipn_skipn.
  f_equal; [lia|]. f_equal. lia.
Qed.

Lemma path_parentless (c : Blockchain) :
  parent c = None -> path c = Ok "blockchain_headers"%string.
Proof. intros H. unfold path. rewrite H. reflexivity. Qed.

Lemma read_header_after_write (net : Net) (w : World) (self : nat)
    (c : Blockchain) (name : string) (content : list byte) (height_ : Z) :
  heap w !! self = Some c -> path c = Ok name ->
  forkpoint c <= height_ -> 0 <= height_ ->
  let off := Z.to_nat ((height_ - forkpoint c) * 120) in
  (off + 120 <= length content)%nat ->
  read_header net (world_after_write w self name content) self height_
  = decode_record net (slice off (off + 120) content) height_.
Proof.
  intros Hs Hp Hf H0 off Hlen.
  set (c1 := set_size (Z.of_nat (length content) / Z.of_nat HEADER_SIZE) c).
  assert (Hs1 : heap (world_after_write w self name content) !! self = Some c1).
  { unfold world_after_write. cbn [heap set_heap].
    rewrite lookup_alter_eq, Hs. reflexivity. }
  assert (Hh : height_ <= height c1).
  { unfold height, c1. cbn [forkpoint _size set_size].
    change (Z.of_nat HEADER_SIZE) with 120. subst off. lia. }
  unfold read_header. cbn [read_header_from].
  unfold deref. rewrite Hs1. cbn [mbind result_bind].
  destruct (Z.ltb_spec height_ 0); [lia|].
  change (forkpoint c1) with (forkpoint c).
  destruct (Z.ltb_spec height_ (forkpoint c)); [lia|].
  destruct (Z.ltb_spec (height c1) height_); [lia|].
  change (path c1) with (path c). rewrite Hp. cbn [mbind result_bind].
  unfold open_file, world_after_write. cbn [files set_heap set_files].
  rewrite lookup_insert_eq. cbn [mbind result_bind].
  change (Z.of_nat HEADER_SIZE) with 120. fold off.
  replace (firstn HEADER_SIZE (skipn off content))
    with (slice off (off + 120) content)
    by (unfold slice, HEADER_SIZE; f_equal; lia).
  set (rec := slice off (off + 120) content).
  assert (L : length rec = 120%nat)
    by (unfold rec; rewrite length_slice by lia; lia).
  change (length rec <? HEADER_SIZE)%nat with (length rec <? 120)%nat.
  destruct (Nat.ltb_spec (length rec) 120); [lia|]. unfold decode_record.
  destruct (bytes_eqb rec (repeat x00 HEADER_SIZE)); [reflexivity|].
  rewrite strip_padding_same by exact L. reflexivity.
Qed.

Lemma save_chunk_parentless (net : Net) (K : Kernels) (self : nat)
    (c : Blockchain) (w : World) (old : list byte) (start_height : Z)
    (chunk r : list byte) :
  heap w !! self = Some c -> parent c = None ->
  forkpoint c <= start_height -> 0 <= start_height ->
  files w !! "blockchain_headers"%string = Some old ->
  convert_to_kawpow_len net start_height chunk = Ok r ->
  let w1 := world_after_write w self "blockchain_headers"
              (written_content c old r
                 ((start_height - forkpoint c) * Z.of_nat HEADER_SIZE)
                 (negb (start_height <=? max_checkpoint net))) in
  if first_record_readable r
  then save_chunk net K self start_height chunk w = (Ok tt, w1)
  else exists e, save_chunk net K self start_height chunk w = (Raise e, w1).
Proof.
  intros Hs Hp Hf H0 Hold Hr w1.
  pose proof (path_parentless c Hp) as Hpath.
  assert (Hsave : save_chunk net K self start_height chunk w
                  = (saved_header ← io_read (fun w =>
                       read_header net w self start_height);
                     expected_header ← io_read (fun _ =>
                       deserialize_header net (firstn HEADER_SIZE r)
                         start_height);
                     match saved_header with
                     | None => io_raise AttributeError
                     | Some saved_header =>
                         if negb (bool_decide (saved_header = expected_header))
                         then io_raise AssertionError
                         else swap_with_parent net K self
                     end) w1).
  { unfold save_chunk. cbn [save_chunk_from].
    destruct (Z.leb_spec 0 start_height); [|lia]. cbn [negb].
    unfold mbind at 1, io_bind at 1, io_read at 1, deref.
    rewrite Hs, Hp.
    rewrite bool_decide_eq_false_2 by (intros [? ?]; discriminate).
    rewrite andb_false_r.
    destruct (Z.ltb_spec ((start_height - forkpoint c) * Z.of_nat HEADER_SIZE) 0)
      as [Hneg|_]; [unfold HEADER_SIZE in Hneg; lia|].
    unfold mbind at 1, io_bind at 1, io_read at 1. rewrite Hr.
    unfold mbind at 1, io_bind at 1.
    rewrite (write_effect self c "blockchain_headers" old r _ _ w Hs Hpath Hold)
      by (unfold HEADER_SIZE; lia).
    reflexivity. }
  rewrite Hsave. clear Hsave.
  assert (Hs1 : heap w1 !! self
                = Some (set_size
                          (Z.of_nat (length (written_content c old r
                             ((start_height - forkpoint c) * Z.of_nat HEADER_SIZE)
                             (negb (start_height <=? max_checkpoint net))))
                           / Z.of_nat HEADER_SIZE) c)).
  { unfold w1, world_after_write. cbn [heap set_heap].
    rewrite lookup_alter_eq, Hs. reflexivity. }
  unfold first_record_readable.
  destruct (bool_decide (r = [])) eqn:Hnil; cbn [negb andb].
  { apply bool_decide_eq_true in Hnil. subst r.
    unfold mbind, io_bind, io_read.
    destruct (read_header net w1 self start_height); [|eauto].
    unfold deserialize_header. cbn [firstn].
    rewrite bool_decide_eq_true_2 by reflexivity. eauto. }
  apply bool_decide_eq_false in Hnil.
  pose proof (convert_to_kawpow_len_length net start_height chunk r Hr) as Hmod.
  assert (Hlen : (120 <= length r)%nat).
  { destruct r; [congruence|]. cbn [length] in *.
    destruct (Nat.le_gt_cases 120 (S (length r))); [assumption|].
    rewrite Nat.mod_small in Hmod by lia. discriminate Hmod. }
  set (content := written_content c old r
                    ((start_height - forkpoint c) * Z.of_nat HEADER_SIZE)
                    (negb (start_height <=? max_checkpoint net))) in *.
  set (off := Z.to_nat ((start_height - forkpoint c) * 120)).
  pose proof (written_content_slice c old r
                ((start_height - forkpoint c) * Z.of_nat HEADER_SIZE)
                (negb (start_height <=? max_checkpoint net)) Hnil) as Hsl.
  fold content in Hsl. change (Z.of_nat HEADER_SIZE) with 120 in Hsl.
  fold off in Hsl.
  assert (Hclen : (off + length r <= length content)%nat).
  { apply (f_equal (@length byte)) in Hsl. rewrite length_slice_min in Hsl.
    lia. }
  assert (Hrec : slice off (off + 120) content = firstn 120 r).
  { change (firstn 120 r) with (slice 0 120 r). rewrite <- Hsl at 1.
    rewrite slice_slice by lia. f_equal; lia. }
  pose proof (read_header_after_write net w self c "blockchain_headers" content
                start_height Hs Hpath Hf H0) as Hread.
  cbv zeta in Hread. fold off in Hread. rewrite Hrec in Hread by lia.
  fold w1 in Hread.
  specialize (Hread ltac:(lia)). unfold decode_record, HEADER_SIZE in Hread.
  unfold HEADER_SIZE.
  destruct (bytes_eqb (firstn 120 r) (repeat x00 120)); cbn [negb].
  - unfold mbind, io_bind, io_read. rewrite Hread.
    destruct (deserialize_header net (firstn 120 r) start_height); eauto.
  - destruct (deserialize_header_ok net (firstn 120 r) start_height)
      as [hd Hd]; [right; rewrite length_firstn; lia|].
    unfold mbind at 1, io_bind at 1, io_read at 1. rewrite Hread, Hd.
    cbn [mbind result_bind].
    unfold mbind, io_bind, io_read.
    rewrite bool_decide_eq_true_2 by reflexivity. cbn [negb].
    apply (swap_with_parent_no_parent net K self _ w1 Hs1). exact Hp.
Qed.

(** X10: on a chain without parent whose file exists, [connect_chunk]
    returns False and writes nothing when the hex text does not decode, when
    [verify_chunk] raises, or when the chunk does not normalise to whole
    120-byte records.  In every other case the normalised chunk is written at
    offset (start_height - forkpoint) * 120 (truncating there past the last
    checkpoint) and the size re-read, and the result is True exactly when
    the chunk is not empty and its first record is not all zero. *)
Theorem connect_chunk_main_chain (net : Net) (K : Kernels) (self : nat)
    (c : Blockchain) (w : World) (old : list byte) (start_height : Z)
    (hexdata : string) :
  heap w !! self = Some c -> parent c = None ->
  forkpoint c <= start_height -> 0 <= start_height ->
  files w !! "blockchain_headers"%string = Some old ->
  connect_chunk net K self start_height hexdata w
  = match bfh hexdata with
    | Raise _ => (Ok false, w)
    | Ok data =>
        match verify_chunk net K w self start_height data with
        | Raise _ => (Ok false, w)
        | Ok _ =>
            match convert_to_kawpow_len net start_height data with
            | Raise _ => (Ok false, w)
            | Ok r =>
                (Ok (first_record_readable r),
                 world_after_write w self "blockchain_headers"
                   (written_content c old r
                      ((start_height - forkpoint c) * Z.of_nat HEADER_SIZE)
                      (negb (start_height <=? max_checkpoint net))))
            end
        end
    end.
Proof.
  intros Hs Hp Hf H0 Hold. unfold connect_chunk.
  destruct (Z.leb_spec 0 start_height); [|lia]. cbn [negb].
  destruct (bfh hexdata) as [data|]; [|reflexivity].
  destruct (verify_chunk net K w self start_height data); [|reflexivity].
  destruct (convert_to_kawpow_len net start_height data) as [r|] eqn:Hr.
  - pose proof (save_chunk_parentless net K self c w old start_height data r
                  Hs Hp Hf H0 Hold Hr) as Hsave.
    cbv zeta in Hsave.
    destruct (first_record_readable r).
    + rewrite Hsave. reflexivity.
    + destruct Hsave as [e ->]. reflexivity.
  - destruct (save_chunk_convert_fails net K self c w start_height data
                Hs Hp Hf H0) as [e' ->]; [rewrite Hr|]; reflexivity.
Qed.

Lemma connect_chunk_main_chain_witness :
  connect_chunk example_testnet example_kernels 0 3 (hex example_chunk)
    example_world
  = match bfh (hex example_chunk) with
    | Raise _ => (Ok false, example_world)
    | Ok data =>
        match verify_chunk example_testnet example_kernels example_world 0 3
                data with
        | Raise _ => (Ok false, example_world)
        | Ok _ =>
            match convert_to_kawpow_len example_testnet 3 data with
            | Raise _ => (Ok false, example_world)
            | Ok r =>
                (Ok (first_record_readable r),
                 world_after_write example_world 0 "blockchain_headers"
                   (written_content example_main_chain (repeat x01 360) r
                      ((3 - forkpoint example_main_chain) * Z.of_nat HEADER_SIZE)
                      (negb (3 <=? max_checkpoint example_testnet))))
            end
        end
    end.
Proof.
  apply (connect_chunk_main_chain example_testnet example_kernels 0
           example_main_chain example_world (repeat x01 360) 3
           (hex example_chunk)).
  - reflexivity.
  - reflexivity.
  - vm_compute. discriminate.
  - lia.
  - reflexivity.
Defined.

(** X11: after [save_chunk] on a chain without parent, whatever it
    returned, every whole record of the normalised chunk can be read back:
    [read_header(start_height + i)] is the decoding of the i-th 120-byte
    record (None if that record is all zero). *)
Theorem save_chunk_read_back (net : Net) (K : Kernels) (self : nat)
    (c : Blockchain) (w : World) (old : list byte) (start_height : Z)
    (chunk r : list byte) (i : nat) :
  heap w !! self = Some c -> parent c = None ->
  forkpoint c <= start_height -> 0 <= start_height ->
  files w !! "blockchain_headers"%string = Some old ->
  convert_to_kawpow_len net start_height chunk = Ok r ->
  (120 * i + 120 <= length r)%nat ->
  read_header net (snd (save_chunk net K self start_height chunk w)) self
    (start_height + Z.of_nat i)
  = decode_record net (slice (120 * i) (120 * i + 120) r)
      (start_height + Z.of_nat i).
Proof.
  intros Hs Hp Hf H0 Hold Hr Hi.
  pose proof (save_chunk_parentless net K self c w old start_height chunk r
                Hs Hp Hf H0 Hold Hr) as Hsave.
  cbv zeta in Hsave.
  set (content := written_content c old r
                    ((start_height - forkpoint c) * Z.of_nat HEADER_SIZE)
                    (negb (start_height <=? max_checkpoint net))) in *.
  assert (Hw : snd (save_chunk net K self start_height chunk w)
               = world_after_write w self "blockchain_headers" content).
  { destruct (first_record_readable r);
      [rewrite Hsave|destruct Hsave as [e ->]]; reflexivity. }
  rewrite Hw. clear Hw Hsave.
  assert (Hnil : r <> []) by (intros ->; cbn in Hi; lia).
  set (off := Z.to_nat ((start_height - forkpoint c) * 120)).
  pose proof (written_content_slice c old r
                ((start_height - forkpoint c) * Z.of_nat HEADER_SIZE)
                (negb (start_height <=? max_checkpoint net)) Hnil) as Hsl.
  fold content in Hsl. change (Z.of_nat HEADER_SIZE) with 120 in Hsl.
  fold off in Hsl.
  assert (Hclen : (off + length r <= length content)%nat).
  { apply (f_equal (@length byte)) in Hsl. rewrite length_slice_min in Hsl.
    lia. }
  rewrite (read_header_after_write net w self c "blockchain_headers" content
             (start_height + Z.of_nat i) Hs (path_parentless c Hp))
    by (subst off; lia).
  f_equal. rewrite <- Hsl at 1. rewrite slice_slice by lia.
  f_equal; subst off; lia.
Qed.

Lemma save_chunk_read_back_witness :
  read_header example_testnet
    (snd (save_chunk example_testnet example_kernels 0 3 example_chunk
            example_world)) 0 (3 + Z.of_nat 0)
  = decode_record example_testnet (slice (120 * 0) (120 * 0 + 120) example_chunk)
      (3 + Z.of_nat 0).
Proof.
  apply (save_chunk_read_back example_testnet example_kernels 0
           example_main_chain example_world (repeat x01 360) 3 example_chunk
           example_chunk 0).
  - reflexivity.
  - reflexivity.
  - vm_compute. discriminate.
  - lia.
  - reflexivity.
  - vm_compute. reflexivity.
  - vm_compute. lia.
Defined.

Lemma chunk_header_len_cases (net : Net) (data : list byte) (p : nat) (s : Z) :
  chunk_header_len net data p s = 80%nat
  \/ chunk_header_len net data p s = 120%nat.
Proof.
  unfold chunk_header_len, LEGACY_HEADER_SIZE, HEADER_SIZE.
  repeat match goal with |- context [if ?b then _ else _] => destruct b end;
    auto.
Qed.

Lemma length_pad_record (raw : list byte) :
  length raw = 80%nat \/ length raw = 120%nat ->
  length (pad_record raw) = 120%nat.
Proof.
  unfold pad_record, LEGACY_HEADER_SIZE.
  intros [H|H]; rewrite H; cbn [Nat.eqb]; [|exact H].
  rewrite length_app, repeat_length. lia.
Qed.

Lemma convert_loop_stop (net : Net) (fuel : nat) (chunk : list byte)
    (p : nat) (s : Z) (r : list byte) :
  (length chunk <= p)%nat -> convert_loop net fuel chunk p s r = r.
Proof.
  intros H. destruct fuel as [|fuel]; [reflexivity|]. cbn [convert_loop].
  destruct (Nat.ltb_spec p (length chunk)); [lia|]. reflexivity.
Qed.

Lemma convert_loop_records (net : Net) (chunk : list byte) (fuel : nat) :
  forall (p : nat) (s : Z) (r : list byte),
  (p <= length chunk)%nat -> (length chunk - p <= fuel)%nat ->
  (length r mod 120 = 0)%nat ->
  let recs := chunk_records net fuel chunk p s in
  if (p + length (concat (map fst recs)) =? length chunk)%nat
  then convert_loop net fuel chunk p s r
       = r ++ concat (map pad_record (map fst recs))
       /\ (length (convert_loop net fuel chunk p s r) mod 120 = 0)%nat
  else (length (convert_loop net fuel chunk p s r) mod 120 <> 0)%nat.
Proof.
  induction fuel as [|fuel IH]; intros p s r Hp Hfuel Hr recs; subst recs.
  - cbn. assert (p = length chunk) as -> by lia.
    rewrite Nat.add_0_r, Nat.eqb_refl, app_nil_r. auto.
  - destruct (Nat.le_gt_cases (length chunk) p) as [Hp'|Hp'].
    { rewrite chunk_records_stop by auto. rewrite convert_loop_stop by lia.
      cbn. assert (p = length chunk) as -> by lia.
      rewrite Nat.add_0_r, Nat.eqb_refl, app_nil_r. auto. }
    pose proof (chunk_header_len_cases net chunk p s) as Hhl.
    destruct (Nat.le_gt_cases (p + chunk_header_len net chunk p s)
                (length chunk)) as [Hfull|Hpart].
    + rewrite chunk_records_unfold by assumption.
      cbn [map fst concat]. rewrite length_app.
      set (hl := chunk_header_len net chunk p s) in *.
      set (raw := slice p (p + hl) chunk).
      assert (Hraw : length raw = hl)
        by (unfold raw; rewrite length_slice by lia; lia).
      cbn [convert_loop].
      destruct (Nat.ltb_spec p (length chunk)); [|lia]. cbn [negb].
      fold hl. fold raw.
      assert (Hpad : (if (hl =? LEGACY_HEADER_SIZE)%nat
                      then r ++ raw ++ repeat x00 40 else r ++ raw)
                     = r ++ pad_record raw).
      { unfold pad_record. rewrite Hraw.
        destruct (hl =? LEGACY_HEADER_SIZE)%nat; reflexivity. }
      rewrite Hpad.
      assert (Hr' : (length (r ++ pad_record raw) mod 120 = 0)%nat).
      { rewrite length_app, length_pad_record by (rewrite Hraw; exact Hhl).
        rewrite <- Nat.Div0.add_mod_idemp_l, Hr. reflexivity. }
      specialize (IH (p + hl)%nat (s + 1) (r ++ pad_record raw) Hfull
                    ltac:(lia) Hr').
      cbv zeta in IH. rewrite Hraw.
      replace (p + (hl + length (concat (map fst
                 (chunk_records net fuel chunk (p + hl) (s + 1))))))%nat
        with (p + hl + length (concat (map fst
                 (chunk_records net fuel chunk (p + hl) (s + 1)))))%nat by lia.
      destruct (_ =? length chunk)%nat.
      * destruct IH as [IH1 IH2]. split; [|exact IH2].
        rewrite IH1, <- app_assoc. reflexivity.
      * exact IH.
    + rewrite chunk_records_stop by auto. cbn [map concat length].
      rewrite Nat.add_0_r.
      destruct (Nat.eqb_spec p (length chunk)); [lia|].
      cbn [convert_loop].
      destruct (Nat.ltb_spec p (length chunk)); [|lia]. cbn [negb].
      rewrite convert_loop_stop by lia.
      assert (Hsl : length (slice p (p + chunk_header_len net chunk p s) chunk)
                    = (length chunk - p)%nat)
        by (rewrite length_slice_min; lia).
      unfold LEGACY_HEADER_SIZE.
      destruct Hhl as [Hhl|Hhl]; rewrite Hhl in *; cbn [Nat.eqb].
      * rewrite !length_app, Hsl, repeat_length.
        rewrite <- Nat.Div0.add_mod_idemp_l, Hr. cbn [Nat.add].
        rewrite Nat.mod_small by lia. lia.
      * rewrite !length_app, Hsl.
        rewrite <- Nat.Div0.add_mod_idemp_l, Hr. cbn [Nat.add].
        rewrite Nat.mod_small by lia. lia.
Qed.

(** X12: [convert_to_kawpow_len] cuts a chunk by the same length rule as
    [verify_chunk].  It succeeds exactly when the chunk consists of whole
    headers with nothing left over, and then returns the headers in order,
    each 80-byte one followed by 40 zero bytes; any other chunk raises
    'Header extension error'. *)
Theorem convert_to_kawpow_len_records (net : Net) (start_height : Z)
    (chunk : list byte) :
  let recs := chunk_records net (length chunk) chunk 0 start_height in
  convert_to_kawpow_len net start_height chunk
  = if (length (concat (map fst recs)) =? length chunk)%nat
    then Ok (concat (map pad_record (map fst recs)))
    else Raise (PlainException "Header extension error").
Proof.
  intros recs. unfold convert_to_kawpow_len.
  pose proof (convert_loop_records net chunk (length chunk) 0 start_height []
                ltac:(lia) ltac:(lia) eq_refl) as H.
  cbv zeta in H. fold recs in H. cbn [Nat.add app] in H.
  unfold HEADER_SIZE.
  destruct (length (concat (map fst recs)) =? length chunk)%nat.
  - destruct H as [H1 H2]. rewrite H2. cbn [Nat.eqb negb].
    rewrite H1. reflexivity.
  - destruct (Nat.eqb_spec
                (length (convert_loop net (length chunk) chunk 0 start_height [])
                 mod 120) 0); [contradiction|]. reflexivity.
Qed.

(** ** Single headers: [save_header], [can_connect] *)

(** X13: [save_header] only appends.  A header whose 'block_height' is
    not the chain's forkpoint plus its size (or is missing) makes it raise,
    and nothing is written. *)
Theorem save_header_append_only (net : Net) (K : Kernels) (self : nat)
    (c : Blockchain) (h : header) (w : World) :
  heap w !! self = Some c ->
  block_height h <> Some (forkpoint c + _size c) ->
  exists e, save_header net K self h w = (Raise e, w).
Proof.
  intros Hs Hh. unfold save_header.
  unfold mbind at 1, io_bind at 1, io_read at 1, deref. rewrite Hs.
  unfold mbind at 1, io_bind at 1, io_read at 1.
  destruct (block_height h) as [ht|]; [|eauto].
  unfold mbind at 1, io_bind at 1, io_read at 1.
  destruct (serialize_header h) as [s|]; [|eauto].
  unfold mbind at 1, io_bind at 1, io_read at 1.
  destruct (bfh s) as [data|]; [|eauto].
  destruct (Z.eqb_spec (ht - forkpoint c) (_size c)) as [E|E].
  - exfalso. apply Hh. f_equal. lia.
  - cbn [negb]. unfold io_raise. eauto.
Qed.

Lemma shaped_block_height (net : Net) (h : header) (height_ : Z) :
  legacy_shaped h height_ || extended_shaped net h height_ = true ->
  block_height h = Some height_.
Proof.
  intros H. apply orb_true_iff in H. destruct H as [H|H].
  - unfold legacy_shaped in H.
    destruct (version h), (prev_block_hash h), (merkle_root h), (timestamp h),
      (bits h), (nonce h), (nheight h), (nonce64 h), (mix_hash h),
      (block_height h) as [ht|]; try discriminate H.
    apply andb_true_iff in H. destruct H as [_ H].
    apply Z.eqb_eq in H. congruence.
  - unfold extended_shaped in H.
    destruct (version h), (prev_block_hash h), (merkle_root h), (timestamp h),
      (bits h), (nonce h), (nheight h), (nonce64 h), (mix_hash h),
      (block_height h) as [ht|]; try discriminate H.
    apply andb_true_iff in H. destruct H as [H _].
    apply andb_true_iff in H. destruct H as [_ H].
    apply Z.eqb_eq in H. congruence.
Qed.

Lemma shaped_nheight (net : Net) (h : header) (height_ : Z) :
  (legacy_shaped h height_ = true -> nheight h = None) /\
  (extended_shaped net h height_ = true -> is_Some (nheight h)).
Proof.
  unfold legacy_shaped, extended_shaped.
  destruct (version h), (prev_block_hash h), (merkle_root h), (timestamp h),
    (bits h), (nonce h), (nheight h), (nonce64 h), (mix_hash h),
    (block_height h); split; intros H; try discriminate H; eauto.
Qed.

Lemma decode_stored_record (net : Net) (h : header) (height_ : Z) :
  reads_back net h height_ = true ->
  serialize_header h = Ok (hex (wire_bytes h)) /\
  length (stored_record h) = 120%nat /\
  decode_record net (stored_record h) height_ = Ok (Some h).
Proof.
  intros Hrb. unfold reads_back in Hrb.
  apply orb_true_iff in Hrb. destruct Hrb as [Hrb|Hrb];
    apply andb_true_iff in Hrb; destruct Hrb as [Hshape Hrest].
  - destruct (codec_round_trip_wire net h height_) as (Hrt & Hser & Hlen).
    { rewrite Hshape. apply orb_true_r. }
    destruct (proj2 (shaped_nheight net h height_) Hshape) as [k Hk].
    rewrite Hk in Hlen. rewrite Hser in Hrt. cbn [mbind result_bind] in Hrt.
    rewrite bfh_hex in Hrt. cbn [mbind result_bind] in Hrt.
    unfold stored_record, decode_record. rewrite Hlen.
    cbn [Nat.eqb LEGACY_HEADER_SIZE].
    apply negb_true_iff in Hrest. rewrite Hrest, Hrt.
    split; [exact Hser|]. split; [exact Hlen|reflexivity].
  - destruct (codec_round_trip_wire net h height_) as (Hrt & Hser & Hlen).
    { rewrite Hshape. reflexivity. }
    rewrite (proj1 (shaped_nheight net h height_) Hshape) in Hlen.
    rewrite Hser in Hrt. cbn [mbind result_bind] in Hrt.
    rewrite bfh_hex in Hrt. cbn [mbind result_bind] in Hrt.
    unfold stored_record. rewrite Hlen.
    cbn [Nat.eqb LEGACY_HEADER_SIZE]. unfold HEADER_SIZE, LEGACY_HEADER_SIZE.
    change (120 - 80)%nat with 40%nat.
    set (wire := wire_bytes h) in *.
    split; [exact Hser|].
    split; [rewrite length_app, repeat_length; lia|].
    destruct (deserialize_header_fields net wire height_ h Hrt)
      as (Hv & _ & _ & _ & _ & Hh & _).
    unfold is_auxpow_header in Hrest. rewrite Hv, Hh in Hrest.
    cbn [default from_option id] in Hrest.
    apply andb_true_iff in Hrest. destruct Hrest as [Hbit Hact].
    assert (Hs04 : slice 0 4 (wire ++ repeat x00 40) = slice 0 4 wire).
    { unfold slice. rewrite !skipn_O, !Nat.sub_0_r.
      rewrite firstn_app. replace (4 - length wire)%nat with 0%nat by lia.
      cbn [firstn]. apply app_nil_r. }
    assert (Hpad : reads_as_padded_auxpow net (wire ++ repeat x00 40) height_
                   = true).
    { unfold reads_as_padded_auxpow, HEADER_SIZE, LEGACY_HEADER_SIZE.
      rewrite length_app, repeat_length, Hlen. cbn [Nat.add Nat.eqb andb].
      rewrite Hact, Hs04, Hbit. cbn [andb].
      unfold bytes_eqb. apply bool_decide_eq_true.
      rewrite skipn_app, Hlen, skipn_all2 by lia. reflexivity. }
    unfold decode_record, HEADER_SIZE.
    assert (Hnz : bytes_eqb (wire ++ repeat x00 40) (repeat x00 120) = false).
    { unfold bytes_eqb. apply bool_decide_eq_false. intros E.
      apply (f_equal (slice 0 4)) in E. rewrite Hs04 in E.
      rewrite E in Hbit. vm_compute in Hbit. discriminate Hbit. }
    rewrite Hnz.
    rewrite <- (deserialize_padded net _ height_ Hpad).
    unfold LEGACY_HEADER_SIZE. rewrite firstn_app, Hlen, firstn_all2 by lia.
    cbn [Nat.sub firstn]. rewrite app_nil_r, Hrt. reflexivity.
Qed.

Lemma length_stored_record (net : Net) (h : header) (height_ : Z) :
  legacy_shaped h height_ || extended_shaped net h height_ = true ->
  length (stored_record h) = 120%nat.
Proof.
  intros Hshape.
  destruct (codec_round_trip_wire net h height_ Hshape) as (_ & _ & Hlen).
  unfold stored_record, LEGACY_HEADER_SIZE, HEADER_SIZE.
  destruct (nheight h); rewrite Hlen; cbn [Nat.eqb]; [exact Hlen|].
  rewrite length_app, repeat_length, Hlen. reflexivity.
Qed.

Lemma save_header_shaped (net : Net) (K : Kernels) (self : nat)
    (c : Blockchain) (w : World) (old : list byte) (h : header) :
  heap w !! self = Some c -> parent c = None ->
  files w !! "blockchain_headers"%string = Some old ->
  0 <= _size c ->
  legacy_shaped h (forkpoint c + _size c)
  || extended_shaped net h (forkpoint c + _size c) = true ->
  save_header net K self h w
  = (Ok tt,
     world_after_write w self "blockchain_headers"
       (written_content c old (stored_record h)
          (_size c * Z.of_nat HEADER_SIZE) true)).
Proof.
  intros Hs Hp Hold Hsz Hshape.
  destruct (codec_round_trip_wire net h _ Hshape) as (_ & Hser & _).
  pose proof (length_stored_record net h _ Hshape) as Hlen.
  pose proof (shaped_block_height net h _ Hshape) as Hh.
  unfold save_header.
  unfold mbind at 1, io_bind at 1, io_read at 1, deref. rewrite Hs.
  unfold mbind at 1, io_bind at 1, io_read at 1. rewrite Hh.
  unfold mbind at 1, io_bind at 1, io_read at 1. rewrite Hser.
  unfold mbind at 1, io_bind at 1, io_read at 1. rewrite bfh_hex.
  replace (forkpoint c + _size c - forkpoint c) with (_size c) by lia.
  rewrite Z.eqb_refl. cbn [negb]. fold (stored_record h).
  rewrite Hlen. cbn [Nat.eqb HEADER_SIZE negb].
  unfold mbind, io_bind.
  rewrite (write_effect self c "blockchain_headers" old _ _ _ w Hs
             (path_parentless c Hp) Hold) by (unfold HEADER_SIZE; lia).
  eapply swap_with_parent_no_parent.
  - unfold world_after_write. cbn [heap set_heap].
    rewrite lookup_alter_eq, Hs. reflexivity.
  - exact Hp.
Qed.

Lemma save_header_parentless (net : Net) (K : Kernels) (self : nat)
    (c : Blockchain) (w : World) (old : list byte) (h : header) :
  heap w !! self = Some c -> parent c = None ->
  files w !! "blockchain_headers"%string = Some old ->
  0 <= _size c ->
  reads_back net h (forkpoint c + _size c) = true ->
  save_header net K self h w
  = (Ok tt,
     world_after_write w self "blockchain_headers"
       (written_content c old (stored_record h)
          (_size c * Z.of_nat HEADER_SIZE) true)).
Proof.
  intros Hs Hp Hold Hsz Hrb.
  apply (save_header_shaped net K self c w old h Hs Hp Hold Hsz).
  unfold reads_back in Hrb.
  apply orb_true_iff in Hrb. destruct Hrb as [Hrb|Hrb];
    apply andb_true_iff in Hrb; destruct Hrb as [-> _];
    [apply orb_true_r|reflexivity].
Qed.

Lemma read_header_saved (net : Net) (self : nat) (c : Blockchain)
    (w : World) (old : list byte) (h : header) :
  heap w !! self = Some c -> parent c = None ->
  0 <= _size c -> 0 <= forkpoint c ->
  reads_back net h (forkpoint c + _size c) = true ->
  let content := written_content c old (stored_record h)
                   (_size c * Z.of_nat HEADER_SIZE) true in
  read_header net (world_after_write w self "blockchain_headers" content)
    self (forkpoint c + _size c) = Ok (Some h) /\
  (Z.of_nat (length old) / 120 = _size c ->
   Z.of_nat (length content) / Z.of_nat HEADER_SIZE = _size c + 1).
Proof.
  intros Hs Hp Hsz Hfk Hrb content.
  destruct (decode_stored_record net h _ Hrb) as (_ & Hlen & Hdec).
  assert (Hnil : stored_record h <> [])
    by (intros E; rewrite E in Hlen; discriminate Hlen).
  set (off := Z.to_nat (_size c * 120)).
  pose proof (written_content_slice c old (stored_record h)
                (_size c * Z.of_nat HEADER_SIZE) true Hnil) as Hsl.
  fold content in Hsl. change (Z.of_nat HEADER_SIZE) with 120 in Hsl.
  fold off in Hsl. rewrite Hlen in Hsl.
  assert (Hclen : (off + 120 <= length content)%nat).
  { apply (f_equal (@length byte)) in Hsl.
    rewrite length_slice_min, Hlen in Hsl. lia. }
  split.
  - rewrite (read_header_after_write net w self c "blockchain_headers" content
               (forkpoint c + _size c) Hs (path_parentless c Hp))
      by (try replace (forkpoint c + _size c - forkpoint c) with (_size c)
            by lia; fold off; lia).
    replace (forkpoint c + _size c - forkpoint c) with (_size c) by lia.
    fold off. rewrite Hsl. exact Hdec.
  - intros Hcons.
    assert (Hfile : length content = (off + 120)%nat).
    { unfold content, written_content.
      change (Z.of_nat HEADER_SIZE) with 120.
      rewrite Z.eqb_refl. cbn [negb andb]. fold off.
      unfold file_write.
      destruct (stored_record h) as [|x r] eqn:Er; [congruence|].
      rewrite !length_app, length_firstn, repeat_length, length_skipn, Hlen.
      subst off. lia. }
    change (Z.of_nat HEADER_SIZE) with 120. rewrite Hfile. subst off. lia.
Qed.

(** X14: on a chain without parent whose file exists, [save_header] of a
    header dict in decoder form for the next height (the 120-byte form, not
    all zero, or the 80-byte form of an AuxPOW header) succeeds, and
    [read_header] at that height then returns the same dict.  If the
    recorded size agreed with the file, the header is the new tip and the
    height has grown by one. *)
Theorem save_header_read_back (net : Net) (K : Kernels) (self : nat)
    (c : Blockchain) (w : World) (old : list byte) (h : header) :
  heap w !! self = Some c -> parent c = None ->
  files w !! "blockchain_headers"%string = Some old ->
  0 <= _size c -> 0 <= forkpoint c ->
  reads_back net h (forkpoint c + _size c) = true ->
  let w' := snd (save_header net K self h w) in
  fst (save_header net K self h w) = Ok tt /\
  read_header net w' self (forkpoint c + _size c) = Ok (Some h) /\
  (Z.of_nat (length old) / 120 = _size c ->
   header_at_tip net w' self = Ok (Some h) /\
   forall c', heap w' !! self = Some c' -> height c' = height c + 1).
Proof.
  intros Hs Hp Hold Hsz Hfk Hrb w'. subst w'.
  rewrite (save_header_parentless net K self c w old h Hs Hp Hold Hsz Hrb).
  cbn [fst snd]. split; [reflexivity|].
  destruct (read_header_saved net self c w old h Hs Hp Hsz Hfk Hrb)
    as [Hread Hgrow].
  split; [exact Hread|].
  intros Hcons. specialize (Hgrow Hcons).
  set (content := written_content c old (stored_record h)
                    (_size c * Z.of_nat HEADER_SIZE) true) in *.
  assert (Hc' : heap (world_after_write w self "blockchain_headers" content)
                !! self
                = Some (set_size (Z.of_nat (length content)
                                  / Z.of_nat HEADER_SIZE) c)).
  { unfold world_after_write. cbn [heap set_heap].
    rewrite lookup_alter_eq, Hs. reflexivity. }
  rewrite Hgrow in Hc'.
  split.
  - unfold header_at_tip, deref. rewrite Hc'. cbn [mbind result_bind].
    unfold height. cbn [forkpoint _size set_size].
    replace (forkpoint c + (_size c + 1) - 1) with (forkpoint c + _size c)
      by lia.
    exact Hread.
  - intros c' Hc. rewrite Hc' in Hc. injection Hc as <-.
    unfold height. cbn [forkpoint _size set_size]. lia.
Qed.

Lemma save_header_append_only_witness :
  exists e,
    save_header example_testnet example_kernels 0 example_extended_header
      example_world
    = (Raise e, example_world).
Proof.
  apply (save_header_append_only example_testnet example_kernels 0
           example_main_chain example_extended_header example_world).
  - reflexivity.
  - vm_compute. discriminate.
Defined.

Lemma save_header_read_back_witness :
  let w' := snd (save_header example_testnet example_kernels 0
                   example_tip_header example_world) in
  fst (save_header example_testnet example_kernels 0 example_tip_header
         example_world) = Ok tt /\
  read_header example_testnet w' 0
    (forkpoint example_main_chain + _size example_main_chain)
  = Ok (Some example_tip_header) /\
  (Z.of_nat (length (repeat x01 360)) / 120 = _size example_main_chain ->
   header_at_tip example_testnet w' 0 = Ok (Some example_tip_header) /\
   forall c', heap w' !! 0%nat = Some c' ->
     height c' = height example_main_chain + 1).
Proof.
  apply (save_header_read_back example_testnet example_kernels 0
           example_main_chain example_world (repeat x01 360)
           example_tip_header).
  - reflexivity.
  - reflexivity.
  - reflexivity.
  - vm_compute. discriminate.
  - vm_compute. discriminate.
  - vm_compute. reflexivity.
Defined.

(** X15: when [can_connect] returns True for a header dict, the dict
    carries a 'block_height'; with [check_height] it is the chain's height
    plus one; at height 0 the header hashes to the genesis hash; at any
    other height its 'prev_block_hash' is the hash the chain gives for the
    height before, and [verify_header] passes for it (without an expected
    hash, skipping the bits check exactly past the last checkpoint). *)
Theorem can_connect_sound (net : Net) (K : Kernels) (w : World) (self : nat)
    (hd : header) (check_height : bool) :
  can_connect net K w self (Some hd) check_height = Ok true ->
  exists height_ c,
    block_height hd = Some height_ /\ heap w !! self = Some c /\
    (check_height = true -> height c = height_ - 1) /\
    if height_ =? 0 then hash_header net K (Some hd) = Ok (GENESIS net)
    else
      exists prev_hash target skip,
        get_hash net K w self (height_ - 1) = Ok prev_hash /\
        prev_block_hash hd = Some prev_hash /\
        verify_header net K hd prev_hash target None skip = Ok tt /\
        skip = (max_checkpoint net <? height_).
Proof.
  unfold can_connect.
  destruct (block_height hd) as [height_|]; [|discriminate].
  cbn [getitem mbind result_bind]. unfold deref.
  destruct (heap w !! self) as [c|]; [|discriminate].
  cbn [mbind result_bind]. intros H.
  exists height_, c. split; [reflexivity|]. split; [reflexivity|].
  destruct check_height; cbn [andb] in H.
  - destruct (Z.eqb_spec (height c) (height_ - 1)) as [Hh|];
      [|discriminate H].
    cbn [negb] in H. split; [auto|]. revert H.
    destruct (height_ =? 0).
    + destruct (hash_header net K (Some hd)) as [x|]; [|discriminate].
      cbn [mbind result_bind]. intros [= E].
      apply bool_decide_eq_true in E. congruence.
    + destruct (get_hash net K w self (height_ - 1)) as [prev|];
        [|discriminate].
      destruct (bool_decide (Some prev = prev_block_hash hd)) eqn:Hl;
        [|discriminate].
      apply bool_decide_eq_true in Hl. cbn [negb].
      destruct (max_checkpoint net <? height_).
      * destruct (bits hd) as [b|]; [|discriminate].
        cbn [getitem mbind result_bind].
        destruct (bits_to_target b) as [t|]; [|discriminate].
        cbn [mbind result_bind].
        destruct (verify_header net K hd prev t None true) as [[]|] eqn:Hv;
          [|discriminate].
        intros _. exists prev, t, true. auto.
      * destruct (get_target net w self height_ _) as [t|e].
        -- cbn [mbind result_bind].
           destruct (verify_header net K hd prev t None false) as [[]|] eqn:Hv;
             [|discriminate].
           intros _. exists prev, t, false. auto.
        -- destruct e; discriminate.
  - split; [discriminate|]. revert H.
    destruct (height_ =? 0).
    + destruct (hash_header net K (Some hd)) as [x|]; [|discriminate].
      cbn [mbind result_bind]. intros [= E].
      apply bool_decide_eq_true in E. congruence.
    + destruct (get_hash net K w self (height_ - 1)) as [prev|];
        [|discriminate].
      destruct (bool_decide (Some prev = prev_block_hash hd)) eqn:Hl;
        [|discriminate].
      apply bool_decide_eq_true in Hl. cbn [negb].
      destruct (max_checkpoint net <? height_).
      * destruct (bits hd) as [b|]; [|discriminate].
        cbn [getitem mbind result_bind].
        destruct (bits_to_target b) as [t|]; [|discriminate].
        cbn [mbind result_bind].
        destruct (verify_header net K hd prev t None true) as [[]|] eqn:Hv;
          [|discriminate].
        intros _. exists prev, t, true. auto.
      * destruct (get_target net w self height_ _) as [t|e].
        -- cbn [mbind result_bind].
           destruct (verify_header net K hd prev t None false) as [[]|] eqn:Hv;
             [|discriminate].
           intros _. exists prev, t, false. auto.
        -- destruct e; discriminate.
Qed.

(** X16: past the last checkpoint, for a header that links to the chain,
    [can_connect] does not answer False when the 'bits' field is missing or
    does not decode: it raises ([KeyError], respectively the
    [InvalidHeader] of [bits_to_target]).  With decodable bits its answer is
    whether [verify_header] passes with the bits check skipped; no retarget
    is computed. *)
Theorem can_connect_bad_bits (net : Net) (K : Kernels) (w : World)
    (self : nat) (c : Blockchain) (hd : header) (height_ : Z)
    (prev_hash : string) :
  block_height hd = Some height_ -> heap w !! self = Some c ->
  height c = height_ - 1 -> max_checkpoint net < height_ ->
  get_hash net K w self (height_ - 1) = Ok prev_hash ->
  prev_block_hash hd = Some prev_hash ->
  forall check_height,
  match bits hd with
  | None => can_connect net K w self (Some hd) check_height
            = Raise (KeyError "bits")
  | Some b =>
      match bits_to_target b with
      | Raise e => can_connect net K w self (Some hd) check_height = Raise e
                   /\ is_invalid_header e = true
      | Ok target =>
          can_connect net K w self (Some hd) check_height
          = Ok (is_ok (verify_header net K hd prev_hash target None true))
      end
  end.
Proof.
  intros Hh Hs Hc Hcp Hg Hl check_height.
  assert (H0 : 0 <= max_checkpoint net) by (unfold max_checkpoint; lia).
  unfold can_connect. rewrite Hh. cbn [getitem mbind result_bind].
  unfold deref. rewrite Hs. cbn [mbind result_bind].
  rewrite Hc, Z.eqb_refl. cbn [negb]. rewrite andb_false_r.
  destruct (Z.eqb_spec height_ 0); [lia|].
  rewrite Hg, Hl. rewrite bool_decide_eq_true_2 by reflexivity. cbn [negb].
  destruct (Z.ltb_spec (max_checkpoint net) height_); [|lia].
  destruct (bits hd) as [b|]; [|reflexivity].
  cbn [getitem mbind result_bind].
  pose proof (bits_to_target_unfold b) as Hb.
  destruct (bits_to_target b) as [t|e].
  - cbn [mbind result_bind].
    destruct (verify_header net K hd prev_hash t None true) as [[]|];
      reflexivity.
  - split; [reflexivity|].
    revert Hb. repeat match goal with
                      | |- context [if ?x then _ else _] => destruct x
                      end; intros [= ->]; reflexivity.
Qed.

Lemma get_hash_stored (net : Net) (K : Kernels) (w : World) (self : nat)
    (height_ : Z) :
  max_checkpoint net < height_ -> max_legacy_checkpoint net < height_ ->
  get_hash net K w self height_
  = (header ← read_header net w self height_;
     match header with
     | None => Raise (MissingHeader height_)
     | Some header => hash_header net K (Some header)
     end).
Proof.
  intros Hcp Hl.
  assert (0 <= max_checkpoint net) by (unfold max_checkpoint; lia).
  unfold get_hash, is_dgw_height_checkpoint.
  destruct (Z.ltb_spec height_ (DGW_CHECKPOINTS_START net)).
  - cbn [mbind result_bind].
    destruct (Z.eqb_spec height_ (-1)); [lia|].
    destruct (Z.eqb_spec height_ 0); [lia|].
    destruct (Z.leb_spec height_ (max_legacy_checkpoint net)); [lia|].
    reflexivity.
  - destruct (Z.ltb_spec (max_checkpoint net) height_); [|lia].
    cbn [mbind result_bind].
    destruct (Z.eqb_spec height_ (-1)); [lia|].
    destruct (Z.eqb_spec height_ 0); [lia|].
    destruct (Z.leb_spec height_ (max_legacy_checkpoint net)); [lia|].
    reflexivity.
Qed.

Lemma can_connect_linked (net : Net) (K : Kernels) (w : World) (self : nat)
    (hd : header) :
  can_connect net K w self (Some hd) true = Ok true ->
  exists height_ c,
    block_height hd = Some height_ /\ heap w !! self = Some c /\
    height c = height_ - 1 /\
    (height_ <> 0 ->
     exists prev_hash,
       get_hash net K w self (height_ - 1) = Ok prev_hash /\
       prev_block_hash hd = Some prev_hash).
Proof.
  unfold can_connect.
  destruct (block_height hd) as [height_|]; [|discriminate].
  cbn [getitem mbind result_bind]. unfold deref.
  destruct (heap w !! self) as [c|]; [|discriminate].
  cbn [mbind result_bind andb]. intros H.
  exists height_, c. split; [reflexivity|]. split; [reflexivity|].
  destruct (Z.eqb_spec (height c) (height_ - 1)) as [Hh|]; [|discriminate H].
  split; [exact Hh|]. intros Hnz. cbn [negb] in H.
  destruct (Z.eqb_spec height_ 0); [contradiction|].
  destruct (get_hash net K w self (height_ - 1)) as [prev|]; [|discriminate].
  destruct (bool_decide (Some prev = prev_block_hash hd)) eqn:Hl;
    [|discriminate].
  apply bool_decide_eq_true in Hl. eauto.
Qed.

(** X17: what was saved is what the next header must link to.  After
    [save_header] of [h] at the tip of a chain without parent, past the
    checkpoints, [can_connect] accepts a header only if it is for the next
    height and its 'prev_block_hash' is [hash_header h]. *)
Theorem can_connect_after_save_header (net : Net) (K : Kernels) (self : nat)
    (c : Blockchain) (w : World) (old : list byte) (h next : header) :
  heap w !! self = Some c -> parent c = None ->
  files w !! "blockchain_headers"%string = Some old ->
  0 <= _size c -> 0 <= forkpoint c ->
  Z.of_nat (length old) / 120 = _size c ->
  max_checkpoint net < forkpoint c + _size c ->
  max_legacy_checkpoint net < forkpoint c + _size c ->
  reads_back net h (forkpoint c + _size c) = true ->
  let w' := snd (save_header net K self h w) in
  can_connect net K w' self (Some next) true = Ok true ->
  block_height next = Some (forkpoint c + _size c + 1) /\
  exists x,
    hash_header net K (Some h) = Ok x /\ prev_block_hash next = Some x.
Proof.
  intros Hs Hp Hold Hsz Hfk Hcons Hcp Hlcp Hrb w' Hcc.
  destruct (read_header_saved net self c w old h Hs Hp Hsz Hfk Hrb)
    as [Hread Hgrow].
  specialize (Hgrow Hcons).
  unfold w' in Hcc.
  rewrite (save_header_parentless net K self c w old h Hs Hp Hold Hsz Hrb)
    in Hcc.
  cbn [snd] in Hcc.
  destruct (can_connect_linked net K _ self next Hcc)
    as (k & c' & Hk & Hc' & Hh & Hprev).
  unfold world_after_write in Hc'. cbn [heap set_heap] in Hc'.
  rewrite lookup_alter_eq, Hs in Hc'. injection Hc' as <-.
  rewrite Hgrow in Hh. unfold height in Hh. cbn [forkpoint _size set_size] in Hh.
  assert (Ek : k = forkpoint c + _size c + 1) by lia.
  subst k. split; [exact Hk|].
  destruct Hprev as (prev & Hg & Hl); [lia|].
  replace (forkpoint c + _size c + 1 - 1) with (forkpoint c + _size c) in Hg
    by lia.
  rewrite (get_hash_stored net K _ self _ Hcp Hlcp), Hread in Hg.
  cbn [mbind result_bind] in Hg. exists prev. auto.
Qed.

Lemma can_connect_sound_witness :
  exists height_ c,
    block_height example_tip_header = Some height_ /\
    heap example_world !! 0%nat = Some c /\
    (true = true -> height c = height_ - 1) /\
    if height_ =? 0
    then hash_header example_testnet example_kernels (Some example_tip_header)
         = Ok (GENESIS example_testnet)
    else
      exists prev_hash target skip,
        get_hash example_testnet example_kernels example_world 0 (height_ - 1)
        = Ok prev_hash /\
        prev_block_hash example_tip_header = Some prev_hash /\
        verify_header example_testnet example_kernels example_tip_header
          prev_hash target None skip = Ok tt /\
        skip = (max_checkpoint example_testnet <? height_).
Proof.
  apply (can_connect_sound example_testnet example_kernels example_world 0
           example_tip_header true).
  vm_compute. reflexivity.
Defined.

Lemma can_connect_bad_bits_witness :
  match bits example_bad_bits_header with
  | None => can_connect example_testnet example_kernels example_world 0
              (Some example_bad_bits_header) true
            = Raise (KeyError "bits")
  | Some b =>
      match bits_to_target b with
      | Raise e => can_connect example_testnet example_kernels example_world 0
                     (Some example_bad_bits_header) true = Raise e
                   /\ is_invalid_header e = true
      | Ok target =>
          can_connect example_testnet example_kernels example_world 0
            (Some example_bad_bits_header) true
          = Ok (is_ok (verify_header example_testnet example_kernels
                         example_bad_bits_header (hex (repeat xff 32)) target
                         None true))
      end
  end.
Proof.
  apply (can_connect_bad_bits example_testnet example_kernels example_world 0
           example_main_chain example_bad_bits_header 3
           (hex (repeat xff 32))).
  - reflexivity.
  - reflexivity.
  - reflexivity.
  - vm_compute. reflexivity.
  - vm_compute. reflexivity.
  - reflexivity.
Defined.

Lemma can_connect_after_save_header_witness :
  block_height example_next_header
  = Some (forkpoint example_main_chain + _size example_main_chain + 1) /\
  exists x,
    hash_header example_testnet example_kernels (Some example_tip_header)
    = Ok x /\
    prev_block_hash example_next_header = Some x.
Proof.
  apply (can_connect_after_save_header example_testnet example_kernels 0
           example_main_chain example_world (repeat x01 360)
           example_tip_header example_next_header).
  - reflexivity.
  - reflexivity.
  - reflexivity.
  - vm_compute. discriminate.
  - vm_compute. discriminate.
  - vm_compute. reflexivity.
  - vm_compute. reflexivity.
  - vm_compute. reflexivity.
  - vm_compute. reflexivity.
  - vm_compute. reflexivity.
Defined.

(** ** Retargets stay within bounds *)

Lemma convbignum_nonneg (b : option Z) (v : Z) :
  convbignum b = Ok v -> 0 <= v.
Proof.
  unfold convbignum. destruct b as [b|]; [|discriminate].
  cbv zeta.
  destruct (Z.ltb_spec (8 * (b / (256 * 256 * 256) - 3)) 0); [discriminate|].
  intros [= <-].
  assert (0 < 2 ^ (8 * (b / (256 * 256 * 256) - 3)))
    by (apply Z.pow_pos_nonneg; lia).
  assert (0 <= b mod (256 * 256 * 256)) by (apply Z.mod_pos_bound; lia).
  destruct (b mod (256 * 256 * 256) <? 32768); nia.
Qed.





Lemma list_index_In {A} (l : list A) (i : Z) (x : A) :
  list_index l i = Ok x -> In x l.
Proof.
  unfold list_index.
  destruct ((_ <? 0) || _); [discriminate|].
  destruct (nth_error l _) eqn:E; [|discriminate].
  intros [= <-]. apply (nth_error_In _ _ E).
Qed.

Lemma lwma_sums_bounds (blocks : list header) (T lo hi : Z) (rounds : nat) :
  0 < T ->
  (forall blk b v, In blk blocks -> bits blk = Some b ->
     bits_to_target b = Ok v -> lo <= v <= hi) ->
  forall i prev_time st sw st' sw',
  1 <= i ->
  lwma_sums rounds blocks T i prev_time st sw = Ok (st', sw') ->
  st + lo * Z.of_nat rounds <= st' <= st + hi * Z.of_nat rounds /\
  sw + (Z.of_nat rounds * (2 * i + Z.of_nat rounds - 1)) / 2 <= sw' /\
  sw' <= sw + 6 * T * ((Z.of_nat rounds * (2 * i + Z.of_nat rounds - 1)) / 2).
Proof.
  intros HT Hwin. induction rounds as [|rounds IH];
    intros i prev_time st sw st' sw' Hi H.
  - cbn in H. injection H as <- <-. cbn. lia.
  - cbn [lwma_sums] in H.
    destruct (list_index blocks i) as [blk|] eqn:Hblk; [|discriminate H].
    cbn [mbind result_bind] in H.
    destruct (timestamp blk) as [ts|]; [|discriminate H].
    cbn [getitem mbind result_bind] in H.
    destruct (bits blk) as [b|] eqn:Hb; [|discriminate H].
    cbn [getitem mbind result_bind] in H.
    destruct (bits_to_target b) as [v|] eqn:Hv; [|discriminate H].
    cbn [mbind result_bind] in H.
    pose proof (Hwin blk b v (list_index_In _ _ _ Hblk) Hb Hv) as Hvb.
    apply IH in H; [|lia].
    set (ts' := if ts <=? prev_time then prev_time + 1 else ts) in *.
    set (solve := Z.max 1 (Z.min (ts' - prev_time) (6 * T))) in *.
    assert (Hsolve : 1 <= solve <= 6 * T) by (unfold solve; lia).
    set (n := Z.of_nat rounds) in *.
    replace (Z.of_nat (S rounds)) with (n + 1) by lia.
    assert (Hn : 0 <= n) by lia.
    assert (Heven : forall a j, (a * (2 * j + a - 1)) mod 2 = 0).
    { intros a j. destruct (Z.even a) eqn:Ea.
      - apply Z.even_spec in Ea. destruct Ea as [q ->].
        replace (2 * q * (2 * j + 2 * q - 1))
          with ((q * (2 * j + 2 * q - 1)) * 2) by lia.
        apply Z.mod_mul. lia.
      - rewrite <- Z.negb_odd in Ea. apply negb_false_iff in Ea.
        apply Z.odd_spec in Ea. destruct Ea as [q ->].
        replace ((2 * q + 1) * (2 * j + (2 * q + 1) - 1))
          with (((2 * q + 1) * (j + q)) * 2) by lia.
        apply Z.mod_mul. lia. }
    pose proof (Heven n i) as He1.
    pose proof (Heven n (i + 1)) as He1'.
    pose proof (Heven (n + 1) i) as He2.
    assert (Hsum : (n + 1) * (2 * i + (n + 1) - 1) / 2
                   = i + n * (2 * (i + 1) + n - 1) / 2).
    { clear - He1' He2 Hn Hi. lia. }
    rewrite Hsum. clear He1 He1' He2 Hsum Heven.
    set (S1 := n * (2 * (i + 1) + n - 1) / 2) in *.
    destruct H as (Ht & Hs1 & Hs2).
    split; [lia|]. split; [nia|nia].
Qed.

(** X19: an LWMA retarget is bounded by the window it averages.  If the
    targets of the same-algorithm blocks the walk collected all lie between
    [lo] and [hi], the target [get_target_lwma_multi_algo] returns lies
    between [lo / 120] and [6 * hi], both capped at the proof-of-work limit
    of the candidate's algorithm; it is never negative and never above that
    limit. *)
Theorem get_target_lwma_bounds (net : Net) (w : World) (self : nat)
    (chain : option (gmap Z header)) (height_ lo hi t : Z) :
  0 <= lo ->
  lwma_window_between net w self chain height_ lo hi = true ->
  get_target_lwma_multi_algo net w self height_ chain = Ok t ->
  exists cur,
    lwma_current_header chain height_ = Some cur /\
    let pow_limit := match get_block_algo net cur height_ with
                     | scrypt => SCRYPT_LIMIT
                     | meowpow => MEOWPOW_LIMIT
                     end in
    Z.min (lo / 120) pow_limit <= t <= Z.min (6 * hi) pow_limit.
Proof.
  intros Hlo Hwin H. unfold get_target_lwma_multi_algo in H.
  unfold lwma_window_between in Hwin.
  destruct (lwma_current_header chain height_) as [cur|]; [|discriminate H].
  exists cur. split; [reflexivity|].
  destruct (negb (header_truthy cur)); [discriminate H|].
  cbv zeta in H.
  set (blocks := lwma_collect net (lwma_walk_length height_) w self chain
                   (get_block_algo net cur height_) (height_ - 1) []) in *.
  destruct (Z.of_nat (length blocks) <? LWMA_AVERAGING_WINDOW + 1);
    [discriminate H|].
  destruct (list_index (rev blocks) 0) as [first|]; [|discriminate H].
  cbn [mbind result_bind] in H.
  destruct (timestamp first) as [prev_time|]; [|discriminate H].
  cbn [getitem mbind result_bind] in H.
  set (T := POW_TARGET_SPACING
            * (if AuxPowActivationHeight net <=? height_ then 2 else 1)) in *.
  assert (HT : T = 60 \/ T = 120).
  { unfold T, POW_TARGET_SPACING.
    destruct (AuxPowActivationHeight net <=? height_); lia. }
  destruct (lwma_sums (Z.to_nat LWMA_AVERAGING_WINDOW) (rev blocks) T 1
              prev_time 0 0) as [[sum_t sum_w]|] eqn:Hsums; [|discriminate H].
  cbn [mbind result_bind] in H.
  destruct (target_to_bits _) as [next_bits|]; [|discriminate H].
  cbn [mbind result_bind] in H. injection H as <-.
  destruct (lwma_sums_bounds (rev blocks) T lo hi
              (Z.to_nat LWMA_AVERAGING_WINDOW) ltac:(lia)) with
    (i := 1) (prev_time := prev_time) (st := 0) (sw := 0) (st' := sum_t)
    (sw' := sum_w) as (Ht & Hw1 & Hw2); [|lia|exact Hsums|].
  { intros blk b v Hin Hb Hv. apply in_rev in Hin.
    rewrite forallb_forall in Hwin. specialize (Hwin blk Hin).
    rewrite Hb, Hv in Hwin. apply andb_true_iff in Hwin. lia. }
  unfold LWMA_AVERAGING_WINDOW in *.
  change (Z.of_nat (Z.to_nat 90)) with 90 in *.
  change (90 * (2 * 1 + 90 - 1) / 2) with 4095 in *.
  cbv zeta.
  set (limit := match get_block_algo net cur height_ with
                | scrypt => SCRYPT_LIMIT
                | meowpow => MEOWPOW_LIMIT
                end).
  assert (Havg : lo <= sum_t / 90 <= hi).
  { split; [apply Z.div_le_lower_bound|apply Z.div_le_upper_bound]; lia. }
  set (avg := sum_t / 90) in *.
  assert (Hk : 90 * (90 + 1) * T / 2 = 4095 * T)
    by (destruct HT as [-> | ->]; reflexivity).
  rewrite Hk.
  assert (Hl : lo / 120 <= avg * sum_w / (4095 * T)).
  { apply Z.div_le_lower_bound; [lia|].
    assert (120 * (lo / 120) <= lo) by (apply Z.mul_div_le; lia).
    assert (0 <= lo / 120) by (apply Z.div_pos; lia).
    nia. }
  assert (Hh : avg * sum_w / (4095 * T) <= 6 * hi).
  { apply Z.div_le_upper_bound; [lia|]. nia. }
  lia.
Qed.

Lemma get_target_lwma_bounds_witness :
  exists cur,
    lwma_current_header (Some example_lwma_chain) 1614655 = Some cur /\
    let pow_limit := match get_block_algo example_mainnet cur 1614655 with
                     | scrypt => SCRYPT_LIMIT
                     | meowpow => MEOWPOW_LIMIT
                     end in
    Z.min (0xffff * 2 ^ 216 / 120) pow_limit
    <= 0xffff * 2 ^ 216 / 120
    <= Z.min (6 * (0xffff * 2 ^ 216)) pow_limit.
Proof.
  apply (get_target_lwma_bounds example_mainnet empty_world 0
           (Some example_lwma_chain) 1614655 (0xffff * 2 ^ 216)
           (0xffff * 2 ^ 216) (0xffff * 2 ^ 216 / 120)).
  - vm_compute. discriminate.
  - vm_compute. reflexivity.
  - vm_compute. reflexivity.
Defined.

(** ** The main chain's header file and stored 80-byte headers *)

(** X20: [init_headers_file_for_best_chain] leaves the main chain's file
    at least (max_checkpoint + 1) records long and the chain's size re-read
    from it, so that the chain's height reaches the last checkpoint.  A file
    that is already long enough is left as it is; a missing or shorter file
    is replaced by that many zero bytes, whatever it held. *)
Theorem init_headers_file_covers_checkpoints (net : Net) (w : World)
    (b : nat) (c : Blockchain) :
  blockchains w !! GENESIS net = Some b ->
  heap w !! b = Some c -> parent c = None ->
  exists content,
    init_headers_file_for_best_chain net w
    = (Ok tt, world_after_write w b "blockchain_headers" content) /\
    120 * (max_checkpoint net + 1) <= Z.of_nat (length content) /\
    content
    = match files w !! "blockchain_headers"%string with
      | Some old =>
          if Z.of_nat (length old) <? 120 * (max_checkpoint net + 1)
          then repeat x00 (120 * Z.to_nat (max_checkpoint net + 1))
          else old
      | None => repeat x00 (120 * Z.to_nat (max_checkpoint net + 1))
      end /\
    (forall c', heap (world_after_write w b "blockchain_headers" content) !! b
                = Some c' ->
       forkpoint c + max_checkpoint net <= height c').
Proof.
  intros Hb Hs Hp.
  assert (H0 : 0 <= max_checkpoint net) by (unfold max_checkpoint; lia).
  set (zeros := repeat x00 (120 * Z.to_nat (max_checkpoint net + 1))).
  assert (Hz : repeat x00 (Z.to_nat (120 * (max_checkpoint net + 1) - 1))
               ++ [x00] = zeros).
  { unfold zeros.
    replace (120 * Z.to_nat (max_checkpoint net + 1))%nat
      with (Z.to_nat (120 * (max_checkpoint net + 1) - 1) + 1)%nat by lia.
    rewrite repeat_app. reflexivity. }
  assert (Hzl : Z.of_nat (length zeros) = 120 * (max_checkpoint net + 1))
    by (unfold zeros; rewrite repeat_length; lia).
  set (content := match files w !! "blockchain_headers"%string with
                  | Some old =>
                      if Z.of_nat (length old) <? 120 * (max_checkpoint net + 1)
                      then zeros else old
                  | None => zeros
                  end).
  exists content.
  assert (Hlen : 120 * (max_checkpoint net + 1) <= Z.of_nat (length content)).
  { unfold content. destruct (files w !! "blockchain_headers"%string) as [old|];
      [|lia].
    destruct (Z.ltb_spec (Z.of_nat (length old))
                (120 * (max_checkpoint net + 1))); lia. }
  split; [|split; [exact Hlen|split; [reflexivity|]]].
  - unfold init_headers_file_for_best_chain, get_best_chain.
    unfold mbind at 1, io_bind at 1, io_read at 1. rewrite Hb.
    unfold mbind at 1, io_bind at 1, io_read at 1, deref. rewrite Hs.
    unfold mbind at 1, io_bind at 1, io_read at 1.
    rewrite (path_parentless c Hp).
    unfold mbind at 1, io_bind at 1, io_read at 1.
    change (Z.of_nat HEADER_SIZE) with 120.
    destruct (Z.ltb_spec 0 (120 * (max_checkpoint net + 1))); [|lia].
    rewrite Hz.
    assert (Hupd : forall w1,
              heap w1 = heap w ->
              update_size b w1
              = (Ok tt,
                 set_heap
                   (alter (set_size
                             (match files w1 !! "blockchain_headers"%string with
                              | Some content =>
                                  Z.of_nat (length content) / 120
                              | None => 0
                              end)) b (heap w1)) w1)).
    { intros w1 Hh. unfold update_size, assign, io_read, io_modify, mbind,
        io_bind, deref. rewrite Hh, Hs, (path_parentless c Hp). reflexivity. }
    unfold content.
    destruct (files w !! "blockchain_headers"%string) as [old|] eqn:Hold.
    + destruct (Z.ltb_spec (Z.of_nat (length old))
                  (120 * (max_checkpoint net + 1))).
      * unfold mbind, io_bind, io_modify. rewrite Hupd by reflexivity.
        cbn [files set_files]. rewrite lookup_insert_eq. reflexivity.
      * unfold mbind, io_bind, io_pass. rewrite Hupd by reflexivity.
        rewrite Hold. unfold world_after_write. f_equal.
        destruct w as [hp fl bc cc]. unfold set_heap, set_files.
        cbn [heap files blockchains _CHAINWORK_CACHE] in *.
        rewrite (insert_id fl _ _ Hold). reflexivity.
    + unfold mbind, io_bind, io_modify. rewrite Hupd by reflexivity.
      cbn [files set_files]. rewrite lookup_insert_eq. reflexivity.
  - intros c'. unfold world_after_write. cbn [heap set_heap].
    rewrite lookup_alter_eq, Hs. intros [= <-].
    unfold height. cbn [forkpoint _size set_size].
    change (Z.of_nat HEADER_SIZE) with 120. lia.
Qed.

Lemma init_headers_file_covers_checkpoints_witness :
  exists content,
    init_headers_file_for_best_chain example_testnet example_world
    = (Ok tt, world_after_write example_world 0 "blockchain_headers" content) /\
    120 * (max_checkpoint example_testnet + 1) <= Z.of_nat (length content) /\
    content
    = match files example_world !! "blockchain_headers"%string with
      | Some old =>
          if Z.of_nat (length old) <? 120 * (max_checkpoint example_testnet + 1)
          then repeat x00 (120 * Z.to_nat (max_checkpoint example_testnet + 1))
          else old
      | None => repeat x00 (120 * Z.to_nat (max_checkpoint example_testnet + 1))
      end /\
    (forall c',
       heap (world_after_write example_world 0 "blockchain_headers" content)
         !! 0%nat = Some c' ->
       forkpoint example_main_chain + max_checkpoint example_testnet
       <= height c').
Proof.
  apply (init_headers_file_covers_checkpoints example_testnet example_world 0
           example_main_chain); reflexivity.
Defined.

Lemma field_bytes_zero_hash : field_bytes (Some zero_hash) = repeat x00 32.
Proof. reflexivity. Qed.

Lemma deserialize_padded_legacy (net : Net) (h : header) (height_ : Z) :
  legacy_shaped h height_ = true -> is_auxpow_header net h = false ->
  deserialize_header net (wire_bytes h ++ repeat x00 40) height_
  = Ok (as_stored h).
Proof.
  intros Hshape Haux.
  pose proof (shaped_block_height net h height_) as Hh.
  rewrite Hshape in Hh. specialize (Hh eq_refl).
  unfold legacy_shaped in Hshape. unfold is_auxpow_header in Haux.
  unfold wire_bytes, as_stored.
  destruct h as [v p m t b n k n64 x ht].
  cbn [version prev_block_hash merkle_root timestamp bits nonce nheight
       nonce64 mix_hash block_height] in *.
  destruct v as [v|], p as [p|], m as [m|], t as [t|], b as [b|], n as [n|],
    k, n64, x, ht as [ht|]; try discriminate Hshape.
  injection Hh as ->. cbn [default from_option id] in *.
  repeat (apply andb_true_iff in Hshape; destruct Hshape as [Hshape ?]).
  rewrite <- !app_assoc.
  change (repeat x00 40) with (repeat x00 8 ++ repeat x00 32).
  rewrite <- (repeat_zero_le_bytes 8), <- field_bytes_zero_hash.
  apply deserialize_extended_wire; try assumption; try reflexivity.
  - unfold is_uint32. rewrite Hshape, H5. reflexivity.
  - change (0 =? 0) with true.
    rewrite (bool_decide_eq_true_2 _ (eq_refl zero_hash)).
    rewrite !andb_true_r. apply negb_true_iff.
    rewrite andb_comm. exact Haux.
Qed.

Lemma hash_header_as_stored (net : Net) (K : Kernels) (h : header)
    (height_ ts : Z) :
  legacy_shaped h height_ = true -> is_auxpow_header net h = false ->
  timestamp h = Some ts ->
  ts < KawpowActivationTS net -> ts < MeowpowActivationTS net ->
  hash_header net K (Some (as_stored h)) = hash_header net K (Some h).
Proof.
  intros Hshape Ha Ht Hk Hm.
  pose proof (deserialize_padded_legacy net h height_ Hshape Ha) as Hd.
  assert (Ha' : is_auxpow_header net (as_stored h) = false) by exact Ha.
  pose proof (serialize_header_decoded net _ height_ _ Hd Ha') as Hser'.
  destruct (codec_round_trip_wire net h height_) as (_ & Hser & Hlen);
    [rewrite Hshape; reflexivity|].
  rewrite (proj1 (shaped_nheight net h height_) Hshape) in Hlen.
  unfold legacy_shaped in Hshape.
  destruct (prev_block_hash h) as [p|] eqn:Hp;
    [|destruct (version h); discriminate Hshape].
  unfold hash_header.
  change (prev_block_hash (as_stored h)) with (prev_block_hash h).
  rewrite Hp.
  change (auxpow_bit (default 0 (version (as_stored h)))
          && (AuxPowActivationHeight net
              <=? default 0 (block_height (as_stored h))))
    with (is_auxpow_header net h).
  change (auxpow_bit (default 0 (version h))
          && (AuxPowActivationHeight net <=? default 0 (block_height h)))
    with (is_auxpow_header net h).
  rewrite Ha. change (timestamp (as_stored h)) with (timestamp h).
  rewrite Ht. cbn [getitem mbind result_bind].
  destruct (Z.leb_spec (KawpowActivationTS net) ts); [lia|]. cbn [andb].
  destruct (Z.leb_spec (MeowpowActivationTS net) ts); [lia|].
  rewrite Hser, Hser'. cbn [mbind result_bind].
  change (80 * 2)%nat with (2 * 80)%nat. rewrite !substring_hex.
  rewrite firstn_app, Hlen, Nat.sub_diag. cbn [firstn].
  rewrite app_nil_r. reflexivity.
Qed.

(** X21: a header dict in 80-byte form that is not AuxPOW does not come
    back from the file as it went in.  On a chain without parent whose file
    exists, [save_header] stores it zero-padded to 120 bytes, and
    [read_header] then returns None if its 80 bytes are all zero and else
    the 120-byte reading of the record: the old nonce under 'nheight', a
    zero 'nonce' and a zero 'mix_hash'.  For a timestamp before KawPow and
    MeowPow activation [hash_header] gives the same result for both
    dicts. *)
Theorem save_header_legacy_form (net : Net) (K : Kernels) (self : nat)
    (c : Blockchain) (w : World) (old : list byte) (h : header) :
  heap w !! self = Some c -> parent c = None ->
  files w !! "blockchain_headers"%string = Some old ->
  0 <= _size c -> 0 <= forkpoint c ->
  legacy_shaped h (forkpoint c + _size c) = true ->
  is_auxpow_header net h = false ->
  let w' := snd (save_header net K self h w) in
  fst (save_header net K self h w) = Ok tt /\
  read_header net w' self (forkpoint c + _size c)
  = (if bytes_eqb (wire_bytes h) (repeat x00 80) then Ok None
     else Ok (Some (as_stored h))) /\
  as_stored h <> h /\
  forall ts, timestamp h = Some ts ->
    ts < KawpowActivationTS net -> ts < MeowpowActivationTS net ->
    hash_header net K (Some (as_stored h)) = hash_header net K (Some h).
Proof.
  intros Hs Hp Hold Hsz Hfk Hshape Ha w'. subst w'.
  assert (Hsh : legacy_shaped h (forkpoint c + _size c)
                || extended_shaped net h (forkpoint c + _size c) = true)
    by (rewrite Hshape; reflexivity).
  rewrite (save_header_shaped net K self c w old h Hs Hp Hold Hsz Hsh).
  cbn [fst snd]. split; [reflexivity|].
  pose proof (length_stored_record net h _ Hsh) as Hlen.
  destruct (codec_round_trip_wire net h _ Hsh) as (_ & _ & Hwlen).
  pose proof (proj1 (shaped_nheight net h _) Hshape) as Hnh.
  rewrite Hnh in Hwlen.
  assert (Hrec : stored_record h = wire_bytes h ++ repeat x00 40).
  { unfold stored_record. rewrite Hwlen. reflexivity. }
  split; [|split].
  - assert (Hnil : stored_record h <> [])
      by (intros E; rewrite E in Hlen; discriminate Hlen).
    set (content := written_content c old (stored_record h)
                      (_size c * Z.of_nat HEADER_SIZE) true).
    set (off := Z.to_nat (_size c * 120)).
    pose proof (written_content_slice c old (stored_record h)
                  (_size c * Z.of_nat HEADER_SIZE) true Hnil) as Hsl.
    fold content in Hsl. change (Z.of_nat HEADER_SIZE) with 120 in Hsl.
    fold off in Hsl. rewrite Hlen in Hsl.
    assert (Hclen : (off + 120 <= length content)%nat).
    { apply (f_equal (@length byte)) in Hsl.
      rewrite length_slice_min, Hlen in Hsl. lia. }
    rewrite (read_header_after_write net w self c "blockchain_headers" content
               (forkpoint c + _size c) Hs (path_parentless c Hp))
      by (try replace (forkpoint c + _size c - forkpoint c) with (_size c)
            by lia; fold off; lia).
    replace (forkpoint c + _size c - forkpoint c) with (_size c) by lia.
    fold off. rewrite Hsl, Hrec. unfold decode_record, bytes_eqb.
    rewrite (deserialize_padded_legacy net h _ Hshape Ha).
    change (repeat x00 HEADER_SIZE) with (repeat x00 80 ++ repeat x00 40).
    destruct (decide (wire_bytes h = repeat x00 80)) as [E|E].
    + rewrite !bool_decide_eq_true_2; [reflexivity|exact E|].
      rewrite E. reflexivity.
    + rewrite !bool_decide_eq_false_2; [reflexivity|exact E|].
      intros E'. apply app_inv_tail in E'. contradiction.
  - intros E. apply (f_equal nheight) in E. cbn [as_stored nheight] in E.
    rewrite Hnh in E. unfold legacy_shaped in Hshape.
    destruct (version h), (prev_block_hash h), (merkle_root h), (timestamp h),
      (bits h), (nonce h); discriminate.
  - intros ts. apply (hash_header_as_stored net K h _ ts Hshape Ha).
Qed.

Lemma save_header_legacy_form_witness :
  let w' := snd (save_header example_testnet example_kernels 0
                   example_legacy_tip_header example_world) in
  fst (save_header example_testnet example_kernels 0
         example_legacy_tip_header example_world) = Ok tt /\
  read_header example_testnet w' 0
    (forkpoint example_main_chain + _size example_main_chain)
  = (if bytes_eqb (wire_bytes example_legacy_tip_header) (repeat x00 80)
     then Ok None
     else Ok (Some (as_stored example_legacy_tip_header))) /\
  as_stored example_legacy_tip_header <> example_legacy_tip_header /\
  forall ts, timestamp example_legacy_tip_header = Some ts ->
    ts < KawpowActivationTS example_testnet ->
    ts < MeowpowActivationTS example_testnet ->
    hash_header example_testnet example_kernels
      (Some (as_stored example_legacy_tip_header))
    = hash_header example_testnet example_kernels
        (Some example_legacy_tip_header).
Proof.
  apply (save_header_legacy_form example_testnet example_kernels 0
           example_main_chain example_world (repeat x01 360)
           example_legacy_tip_header).
  - reflexivity.
  - reflexivity.
  - reflexivity.
  - vm_compute. discriminate.
  - vm_compute. discriminate.
  - vm_compute. reflexivity.
  - vm_compute. reflexivity.
Defined.

(** ** Swapping a fork with its parent *)

Lemma same_store_refl (w : World) : same_store w w.
Proof. repeat split. Qed.

Lemma fill_chainwork_cache_frame (net : Net) (K : Kernels) (self : nat)
    (last_retarget : Z) (fuel : nat) :
  forall (cached_height running_total : Z) (w : World),
    same_store
      (snd (fill_chainwork_cache net K fuel self last_retarget cached_height
              running_total w)) w.
Proof.
  induction fuel as [|fuel IH]; intros ch rt w; cbn [fill_chainwork_cache].
  - apply same_store_refl.
  - destruct (negb (ch <? last_retarget)); [apply same_store_refl|].
    unfold mbind at 1, io_bind at 1, io_read at 1.
    destruct (sum_chainwork net 2016 w self ch 0 0) as [x|e];
      [|apply same_store_refl].
    unfold mbind at 1, io_bind at 1, io_read at 1.
    destruct (get_hash net K w self (ch + 2016)) as [h|e];
      [|apply same_store_refl].
    unfold mbind at 1, io_bind at 1, io_modify at 1.
    specialize (IH (ch + 2016) (rt + x)
                  (set_cache (<[h := rt + x]> (_CHAINWORK_CACHE w)) w)).
    destruct IH as (H1 & H2 & H3). repeat split; assumption.
Qed.

Lemma get_chainwork_frame (net : Net) (K : Kernels) (self : nat)
    (height_ : option Z) (w : World) :
  same_store (snd (get_chainwork net K self height_ w)) w.
Proof.
  unfold get_chainwork.
  unfold mbind at 1, io_bind at 1, io_read at 1.
  destruct (deref w self) as [c|e]; [|apply same_store_refl].
  destruct (TESTNET net); [apply same_store_refl|].
  set (ht := match height_ with Some h => h | None => Z.max 0 (height c) end).
  unfold mbind at 1, io_bind at 1, io_read at 1.
  destruct (find_cached_height _ _ _ _ _ _) as [ch|e];
    [|apply same_store_refl].
  destruct (negb (-1 <=? ch)); [apply same_store_refl|].
  unfold mbind at 1, io_bind at 1, io_read at 1.
  destruct (get_hash net K w self ch) as [h|e]; [|apply same_store_refl].
  unfold mbind at 1, io_bind at 1, io_read at 1.
  destruct (_CHAINWORK_CACHE w !! h) as [rt|]; [|apply same_store_refl].
  unfold mbind at 1, io_bind at 1.
  pose proof (fill_chainwork_cache_frame net K self (ht / 2016 * 2016 - 1)
                (Z.to_nat (Z.max 0 (ht / 2016) + 2)) ch rt w) as Hf.
  destruct (fill_chainwork_cache _ _ _ _ _ _ _ w) as [[[ch' rt']|e] w1];
    cbn [snd] in Hf; [|exact Hf].
  unfold mbind at 1, io_bind at 1, io_read at 1.
  destruct (sum_chainwork _ _ w1 _ _ _ _) as [x|e]; [|exact Hf].
  destruct (Z.to_nat (ht - ch')); exact Hf.
Qed.

Lemma path_fork_name (c : Blockchain) (name : string) :
  is_Some (parent c) -> path c = Ok name ->
  name <> "blockchain_headers"%string.
Proof.
  intros [p Hp]. unfold path. rewrite Hp.
  destruct (negb (0 <? forkpoint c)); [discriminate|].
  destruct (_prev_hash c); [|discriminate].
  intros [= <-]. discriminate.
Qed.

Lemma update_size_effect (self : nat) (c : Blockchain) (name : string)
    (w : World) :
  heap w !! self = Some c -> path c = Ok name ->
  update_size self w
  = (Ok tt,
     set_heap
       (alter (set_size match files w !! name with
                        | Some content =>
                            Z.of_nat (length content) / Z.of_nat HEADER_SIZE
                        | None => 0
                        end) self (heap w)) w).
Proof.
  intros Hs Hp.
  unfold update_size, assign, io_read, io_modify, mbind, io_bind, deref.
  rewrite Hs, Hp. reflexivity.
Qed.

Ltac io_lookup :=
  cbn [heap files set_heap set_files set_blockchains];
  repeat first [rewrite lookup_alter_eq
               | rewrite lookup_alter_ne by congruence].

Ltac io_read_step :=
  unfold mbind at 1, io_bind at 1, io_read at 1; io_lookup.

Ltac io_assign_step :=
  unfold mbind at 1, io_bind at 1, assign at 1, io_modify at 1.

Lemma swap_outcome (net : Net) (K : Kernels) (self p : nat)
    (c pc : Blockchain) (w : World) (cname : string)
    (cdata pdata : list byte) :
  heap w !! self = Some c -> parent c = Some p ->
  heap w !! p = Some pc -> parent pc = None ->
  path c = Ok cname ->
  files w !! cname = Some cdata ->
  files w !! "blockchain_headers"%string = Some pdata ->
  match _swap_with_parent net K self w with
  | (Ok true, w') => swap_result net K self p c pc cdata pdata w'
  | (Ok false, w') => same_store w' w
  | (Raise _, _) => True
  end.
Proof.
  intros Hs Hp Hps Hpp Hn Hc Hm. unfold swap_result.
  assert (Hne : self <> p).
  { intros ->. rewrite Hs in Hps. injection Hps as ->. congruence. }
  assert (Hcn : cname <> "blockchain_headers"%string)
    by (apply (path_fork_name c); [rewrite Hp; eauto|exact Hn]).
  unfold _swap_with_parent.
  unfold mbind at 1, io_bind at 1, io_read at 1, deref. rewrite Hs, Hp.
  unfold mbind at 1, io_bind at 1.
  pose proof (get_chainwork_frame net K p None w) as F1.
  destruct (get_chainwork net K p None w) as [[pw|e] w1]; [|exact I].
  cbn [snd] in F1.
  unfold mbind at 1, io_bind at 1.
  pose proof (get_chainwork_frame net K self None w1) as F2.
  destruct (get_chainwork net K self None w1) as [[sw|e] w2]; [|exact I].
  cbn [snd] in F2.
  destruct F1 as (Fh1 & Ff1 & Fb1). destruct F2 as (Fh2 & Ff2 & Fb2).
  rewrite Fh1 in Fh2. rewrite Ff1 in Ff2. rewrite Fb1 in Fb2.
  clear Fh1 Ff1 Fb1 w1.
  destruct (sw <=? pw); [repeat split; assumption|]. clear Fb2.
  unfold mbind at 1, io_bind at 1, io_read at 1, deref. rewrite Fh2, Hs.
  unfold mbind at 1, io_bind at 1, io_read at 1, deref. rewrite Fh2, Hps.
  unfold mbind at 1, io_bind at 1, io_read at 1. rewrite Hn.
  unfold mbind at 1, io_bind at 1, io_read at 1, open_file.
  rewrite Ff2, Hc.
  unfold mbind at 1, io_bind at 1, io_read at 1.
  rewrite (path_parentless pc Hpp).
  unfold mbind at 1, io_bind at 1, io_read at 1, open_file.
  rewrite Ff2, Hm.
  destruct (Z.ltb_spec (forkpoint pc) (forkpoint c)) as [Hfp|];
    [|exact I]. cbn [negb].
  change (Z.of_nat HEADER_SIZE) with 120.
  destruct (Z.ltb_spec ((height pc - forkpoint c + 1) * 120) 0) as [|Hcnt];
    [exact I|].
  set (seek := (forkpoint c - forkpoint pc) * 120).
  set (count := (height pc - forkpoint c + 1) * 120) in *.
  set (parent_data := firstn (Z.to_nat count) (skipn (Z.to_nat seek) pdata)).
  unfold mbind at 1, io_bind at 1.
  rewrite (write_effect self c cname cdata parent_data 0 true w2)
    by (rewrite ?Fh2, ?Ff2; first [assumption | lia]).
  set (child_file := written_content c cdata parent_data 0 true).
  set (wA := world_after_write w2 self cname child_file).
  unfold mbind at 1, io_bind at 1.
  assert (HpA : heap wA !! p = Some pc).
  { unfold wA, world_after_write. cbn [heap set_heap].
    rewrite lookup_alter_ne by exact Hne. rewrite Fh2. exact Hps. }
  assert (HmA : files wA !! "blockchain_headers"%string = Some pdata).
  { unfold wA, world_after_write. cbn [files set_heap set_files].
    rewrite lookup_insert_ne by exact Hcn. rewrite Ff2. exact Hm. }
  rewrite (write_effect p pc "blockchain_headers" pdata cdata seek true wA
             HpA (path_parentless pc Hpp) HmA) by (unfold seek; lia).
  set (main_file := written_content pc pdata cdata seek true).
  set (wB := world_after_write wA p "blockchain_headers" main_file).
  set (sA := Z.of_nat (length child_file) / Z.of_nat HEADER_SIZE).
  set (sB := Z.of_nat (length main_file) / Z.of_nat HEADER_SIZE).
  assert (HsB : heap wB !! self = Some (set_size sA c)).
  { unfold wB, wA, world_after_write. cbn [heap files set_heap set_files].
    rewrite lookup_alter_ne by congruence.
    rewrite lookup_alter_eq, Fh2, Hs. reflexivity. }
  assert (HpB : heap wB !! p = Some (set_size sB pc)).
  { unfold wB, world_after_write. cbn [heap files set_heap set_files].
    rewrite lookup_alter_eq, HpA. reflexivity. }
  assert (HfB : files wB
                = <["blockchain_headers"%string := main_file]>
                    (<[cname := child_file]> (files w))).
  { unfold wB, wA, world_after_write. cbn [heap files set_heap set_files].
    rewrite Ff2. reflexivity. }
  clearbody wB.
  unfold mbind at 1, io_bind at 1, io_read at 1. rewrite HsB.
  unfold mbind at 1, io_bind at 1, io_read at 1. rewrite HpB.
  unfold mbind at 1, io_bind at 1, assign at 1, io_modify at 1.
  unfold mbind at 1, io_bind at 1, assign at 1, io_modify at 1.
  cbn [heap files set_heap set_files parent set_size].
  io_read_step. rewrite HsB. cbn [fmap option_fmap option_map].
  io_read_step. rewrite HpB. cbn [fmap option_fmap option_map].
  io_assign_step. io_assign_step.
  io_read_step. rewrite HsB. cbn [fmap option_fmap option_map].
  io_read_step. rewrite HpB. cbn [fmap option_fmap option_map].
  unfold mbind at 1, io_bind at 1, io_read at 1.
  destruct (deserialize_header net (firstn HEADER_SIZE parent_data)
              (forkpoint c) ≫= _) as [first|e] eqn:Hfirst; [|exact I].
  io_assign_step. io_assign_step.
  io_read_step. rewrite HsB. cbn [fmap option_fmap option_map].
  io_read_step. rewrite HpB. cbn [fmap option_fmap option_map].
  io_assign_step. io_assign_step.
  io_read_step. rewrite HpB. cbn [fmap option_fmap option_map].
  unfold mbind at 1, io_bind at 1, io_read at 1.
  cbn [set_size set_parent set_forkpoint set_forkpoint_hash set_prev_hash
       forkpoint parent _forkpoint_hash _prev_hash _size].
  set (pc1 := set_prev_hash (_prev_hash c) _).
  destruct (path pc1) as [pname|e] eqn:Hpn; [|exact I].
  assert (Hpn' : pname <> "blockchain_headers"%string)
    by (apply (path_fork_name pc1); [eexists; reflexivity|exact Hpn]).
  unfold mbind at 1, io_bind at 1, os_replace at 1.
  cbn [heap files set_heap set_files].
  rewrite HfB, lookup_insert_ne, lookup_insert_eq by congruence.
  match goal with
  | |- context [set_files ?f (set_heap ?h ?w0)] =>
      set (wC := set_files f (set_heap h w0))
  end.
  set (c1 := set_prev_hash (_prev_hash pc)
               (set_forkpoint_hash (_forkpoint_hash pc)
                  (set_forkpoint (forkpoint pc)
                     (set_parent (parent pc) (set_size sA c))))).
  assert (HsC : heap wC !! self = Some c1).
  { unfold wC. io_lookup. rewrite HsB. reflexivity. }
  assert (HpC : heap wC !! p = Some pc1).
  { unfold wC. io_lookup. rewrite HpB. reflexivity. }
  assert (HfC : files wC
                = <[pname := child_file]>
                    (delete cname
                       (<["blockchain_headers"%string := main_file]>
                          (<[cname := child_file]> (files w)))))
    by reflexivity.
  clearbody wC.
  assert (Hc1 : path c1 = Ok "blockchain_headers"%string)
    by (apply path_parentless; exact Hpp).
  unfold mbind at 1, io_bind at 1.
  rewrite (update_size_effect self c1 _ wC HsC Hc1).
  unfold mbind at 1, io_bind at 1.
  rewrite (update_size_effect p pc1 pname)
    by (cbn [heap set_heap]; rewrite ?lookup_alter_ne by congruence;
        assumption).
  cbn [heap files set_heap set_files]. rewrite HfC.
  rewrite lookup_insert_eq.
  rewrite lookup_insert_ne, lookup_delete_ne, lookup_insert_eq by congruence.
  unfold mbind at 1, io_bind at 1, io_modify at 1.
  unfold mbind at 1, io_bind at 1, io_modify at 1.
  io_read_step. rewrite HsC. cbn [fmap option_fmap option_map].
  unfold mbind at 1, io_bind at 1, io_modify at 1.
  io_read_step. rewrite HpC. cbn [fmap option_fmap option_map].
  unfold mbind at 1, io_bind at 1, io_modify at 1.
  unfold mret, io_ret.
  split; [exact Hfp|]. split; [exact Hcnt|].
  exists first, pname. eexists. eexists.
  io_lookup. rewrite HsC, HpC, HfC. cbn [fmap option_fmap option_map].
  split; [exact Hfirst|].
  split; [reflexivity|]. split; [reflexivity|].
  split; [unfold c1; rewrite Hpp; reflexivity|].
  split; [reflexivity|].
  split; [exact Hpn|].
  rewrite lookup_insert_eq.
  rewrite lookup_insert_ne, lookup_delete_ne, lookup_insert_eq by congruence.
  split; reflexivity.
Qed.

Lemma read_header_from_own (net : Net) (fuel : nat) (w : World) (x : nat)
    (c : Blockchain) (name : string) (content : list byte) (height_ : Z) :
  heap w !! x = Some c -> path c = Ok name ->
  files w !! name = Some content ->
  0 <= height_ -> forkpoint c <= height_ ->
  read_header_from net (S fuel) w x height_
  = if height c <? height_ then Ok None
    else read_record net
           (firstn 120 (skipn (Z.to_nat ((height_ - forkpoint c) * 120))
                          content)) height_.
Proof.
  intros Hs Hp Hf H0 Hfk. cbn [read_header_from].
  unfold deref. rewrite Hs. cbn [mbind result_bind].
  destruct (Z.ltb_spec height_ 0); [lia|].
  destruct (Z.ltb_spec height_ (forkpoint c)); [lia|].
  destruct (Z.ltb_spec (height c) height_); [reflexivity|].
  rewrite Hp. cbn [mbind result_bind]. unfold open_file. rewrite Hf.
  cbn [mbind result_bind]. unfold read_record, decode_record.
  change (Z.of_nat HEADER_SIZE) with 120.
  change (firstn HEADER_SIZE) with (@firstn byte 120).
  set (rec := firstn 120 _).
  change (length rec <? HEADER_SIZE)%nat with (length rec <? 120)%nat.
  destruct (Nat.ltb_spec (length rec) 120) as [|Hlen]; [reflexivity|].
  destruct (bytes_eqb rec (repeat x00 HEADER_SIZE)); [reflexivity|].
  rewrite strip_padding_same; [reflexivity|].
  unfold rec in *. rewrite length_firstn in *. lia.
Qed.

Lemma read_header_from_parent (net : Net) (fuel : nat) (w : World) (x q : nat)
    (c : Blockchain) (height_ : Z) :
  heap w !! x = Some c -> parent c = Some q ->
  0 <= height_ -> height_ < forkpoint c ->
  read_header_from net (S fuel) w x height_
  = read_header_from net fuel w q height_.
Proof.
  intros Hs Hp H0 Hfk. cbn [read_header_from].
  unfold deref. rewrite Hs. cbn [mbind result_bind].
  destruct (Z.ltb_spec height_ 0); [lia|].
  destruct (Z.ltb_spec height_ (forkpoint c)); [|lia].
  rewrite Hp. reflexivity.
Qed.

Lemma read_header_from_below (net : Net) (fuel : nat) (w : World) (x : nat)
    (c : Blockchain) (height_ : Z) :
  heap w !! x = Some c -> parent c = None ->
  0 <= height_ -> height_ < forkpoint c ->
  read_header_from net (S fuel) w x height_ = Raise AttributeError.
Proof.
  intros Hs Hp H0 Hfk. cbn [read_header_from]. unfold deref. rewrite Hs.
  cbn [mbind result_bind].
  destruct (Z.ltb_spec height_ 0); [lia|].
  destruct (Z.ltb_spec height_ (forkpoint c)); [|lia].
  rewrite Hp. reflexivity.
Qed.

Lemma read_header_from_negative (net : Net) (fuel : nat) (w : World)
    (x : nat) (c : Blockchain) (height_ : Z) :
  heap w !! x = Some c -> height_ < 0 ->
  read_header_from net (S fuel) w x height_ = Ok None.
Proof.
  intros Hs H0. cbn [read_header_from]. unfold deref. rewrite Hs.
  cbn [mbind result_bind].
  destruct (Z.ltb_spec height_ 0); [reflexivity|lia].
Qed.

Lemma map_size_pos (m : gmap nat Blockchain) (x : nat) (c : Blockchain) :
  m !! x = Some c -> exists n, size m = S n.
Proof.
  intros Hs. destruct (size m) as [|n] eqn:E; [|eauto].
  apply map_size_empty_iff in E. rewrite E in Hs.
  rewrite lookup_empty in Hs. discriminate.
Qed.

Lemma map_size_two (m : gmap nat Blockchain) (x y : nat) (c d : Blockchain) :
  m !! x = Some c -> m !! y = Some d -> x <> y ->
  exists n, size m = S (S n).
Proof.
  intros Hx Hy Hne.
  destruct (map_size_pos (delete x m) y d) as [n Hn];
    [rewrite lookup_delete_ne by exact Hne; exact Hy|].
  rewrite map_size_delete_Some in Hn by (rewrite Hx; eauto).
  exists n. lia.
Qed.

Lemma written_content_fresh (c : Blockchain) (old data : list byte) :
  Z.of_nat (length old) = 120 * _size c ->
  written_content c old data 0 true = data.
Proof.
  intros Hlen. unfold written_content, file_write, file_truncate.
  change (Z.of_nat HEADER_SIZE) with 120. change (Z.to_nat 0) with 0%nat.
  destruct data as [|x data]; cbn [andb firstn Nat.sub length].
  - destruct (Z.eqb_spec 0 (_size c * 120)); cbn [negb];
      [|reflexivity].
    destruct old; [reflexivity|]. cbn [length] in Hlen. lia.
  - destruct (Z.eqb_spec 0 (_size c * 120)); cbn [negb].
    + destruct old; [|cbn [length] in Hlen; lia].
      cbn [firstn repeat app length Nat.add Nat.sub].
      rewrite skipn_nil, app_nil_r. reflexivity.
    + change (firstn 0 old) with (@nil byte).
      cbn [firstn repeat app length Nat.add Nat.sub].
      rewrite skipn_nil, app_nil_r. reflexivity.
Qed.

Lemma written_content_tail (c : Blockchain) (old data : list byte)
    (offset : Z) :
  Z.of_nat (length old) = 120 * _size c ->
  0 <= offset <= Z.of_nat (length old) ->
  written_content c old data offset true
  = firstn (Z.to_nat offset) old ++ data.
Proof.
  intros Hlen Ho. unfold written_content, file_write, file_truncate.
  change (Z.of_nat HEADER_SIZE) with 120. cbn [andb].
  destruct (Z.eqb_spec offset (_size c * 120)) as [E|E]; cbn [negb].
  - assert (Hall : firstn (Z.to_nat offset) old = old)
      by (apply firstn_all2; lia).
    destruct data as [|x data]; [rewrite Hall, app_nil_r; reflexivity|].
    rewrite Hall.
    replace (Z.to_nat offset - length old)%nat with 0%nat by lia.
    rewrite skipn_all2 by (cbn [length]; lia).
    cbn [repeat app]. rewrite app_nil_r. reflexivity.
  - replace (Z.to_nat offset - length old)%nat with 0%nat by lia.
    cbn [repeat]. rewrite app_nil_r.
    destruct data as [|x data]; [rewrite app_nil_r; reflexivity|].
    rewrite firstn_firstn, Nat.min_id, length_firstn.
    replace (Z.to_nat offset - Z.to_nat offset `min` length old)%nat
      with 0%nat by lia.
    rewrite skipn_all2 by (rewrite length_firstn; cbn [length]; lia).
    cbn [repeat app]. rewrite app_nil_r. reflexivity.
Qed.

Lemma swapped_reads (net : Net) (K : Kernels) (self p : nat)
    (c pc : Blockchain) (w w' : World) (cname : string)
    (cdata pdata : list byte) :
  heap w !! self = Some c -> parent c = Some p ->
  heap w !! p = Some pc -> parent pc = None ->
  path c = Ok cname ->
  files w !! cname = Some cdata ->
  files w !! "blockchain_headers"%string = Some pdata ->
  Z.of_nat (length cdata) = 120 * _size c ->
  Z.of_nat (length pdata) = 120 * _size pc ->
  swap_result net K self p c pc cdata pdata w' ->
  forkpoint c <= height pc /\
  (exists c' pc',
     heap w' !! self = Some c' /\ heap w' !! p = Some pc' /\
     parent c' = None /\ parent pc' = Some self /\
     forkpoint c' = forkpoint pc /\ forkpoint pc' = forkpoint c /\
     height c' = height c /\ height pc' = height pc) /\
  forall height_,
    read_header net w' self height_ = read_header net w self height_ /\
    read_header net w' p height_ = read_header net w p height_.
Proof.
  intros Hs Hp Hps Hpp Hn Hc Hm Lc Lp Hout.
  unfold swap_result in Hout. cbv zeta in Hout.
  destruct Hout as (Hfp & Hcnt & first & pname & c' & pc' & Hfirst & Hs' & Hp'
                    & Ec & Epc & Hpn & Hmain & Hfork).
  set (seek := (forkpoint c - forkpoint pc) * 120) in *.
  set (count := (height pc - forkpoint c + 1) * 120) in *.
  assert (Hsz : 0 <= _size c) by lia.
  assert (Hcount : Z.of_nat (length pdata) = seek + count)
    by (unfold seek, count, height; lia).
  assert (Epd : firstn (Z.to_nat count) (skipn (Z.to_nat seek) pdata)
                = skipn (Z.to_nat seek) pdata)
    by (apply firstn_all2; rewrite length_skipn; lia).
  rewrite Epd in *.
  rewrite (written_content_fresh c cdata _ Lc) in *.
  rewrite (written_content_tail pc pdata cdata seek Lp) in * by lia.
  set (parent_data := skipn (Z.to_nat seek) pdata) in *.
  set (main_file := firstn (Z.to_nat seek) pdata ++ cdata) in *.
  assert (Lmain : Z.of_nat (length main_file) = seek + 120 * _size c).
  { unfold main_file. rewrite length_app, length_firstn. lia. }
  assert (Lpd : Z.of_nat (length parent_data) = count).
  { unfold parent_data. rewrite length_skipn. lia. }
  assert (Hc'h : height c' = height c).
  { rewrite Ec. unfold height. cbn [forkpoint _size]. rewrite Lmain.
    unfold seek. lia. }
  assert (Hpc'h : height pc' = height pc).
  { rewrite Epc. unfold height. cbn [forkpoint _size]. rewrite Lpd.
    unfold count, height. lia. }
  assert (Hhas : forkpoint c <= height pc).
  { destruct (Z.eq_dec count 0) as [E0|]; [|unfold count in *; lia].
    assert (parent_data = []) as Enil
      by (destruct parent_data; [reflexivity|cbn [length] in Lpd; lia]).
    rewrite Enil in Hfirst. discriminate Hfirst. }
  assert (Hc'p : parent c' = None) by (rewrite Ec; reflexivity).
  assert (Hc'f : forkpoint c' = forkpoint pc) by (rewrite Ec; reflexivity).
  assert (Hpc'p : parent pc' = Some self) by (rewrite Epc; reflexivity).
  assert (Hpc'f : forkpoint pc' = forkpoint c) by (rewrite Epc; reflexivity).
  split; [exact Hhas|]. split.
  { exists c', pc'. repeat split; assumption. }
  assert (Hc'n : path c' = Ok "blockchain_headers"%string)
    by (apply path_parentless; exact Hc'p).
  clear Ec Epc.
  assert (Hne : self <> p).
  { intros ->. rewrite Hs in Hps. injection Hps as ->. congruence. }
  destruct (map_size_two (heap w) self p c pc Hs Hps Hne) as [n En].
  destruct (map_size_two (heap w') self p c' pc' Hs' Hp' Hne) as [n' En'].
  (* reading the main file below and from the forkpoint *)
  assert (Hlow : forall h, forkpoint pc <= h < forkpoint c ->
            firstn 120 (skipn (Z.to_nat ((h - forkpoint pc) * 120)) main_file)
            = firstn 120 (skipn (Z.to_nat ((h - forkpoint pc) * 120)) pdata)).
  { intros h Hh. unfold main_file.
    set (off := Z.to_nat ((h - forkpoint pc) * 120)).
    assert (off + 120 <= Z.to_nat seek)%nat by (unfold off, seek; lia).
    rewrite skipn_app, firstn_app, length_skipn, length_firstn.
    replace (120 - (Z.to_nat seek `min` length pdata - off))%nat with 0%nat
      by lia.
    cbn [firstn]. rewrite app_nil_r.
    rewrite skipn_firstn_comm, firstn_firstn. f_equal. lia. }
  assert (Hhigh : forall h, forkpoint c <= h ->
            firstn 120 (skipn (Z.to_nat ((h - forkpoint pc) * 120)) main_file)
            = firstn 120 (skipn (Z.to_nat ((h - forkpoint c) * 120)) cdata)).
  { intros h Hh. unfold main_file.
    rewrite skipn_app, length_firstn.
    rewrite (skipn_all2 (firstn _ _))
      by (rewrite length_firstn; unfold seek; lia).
    cbn [app]. do 2 f_equal. unfold seek. lia. }
  assert (Hpar : forall h, forkpoint c <= h ->
            firstn 120 (skipn (Z.to_nat ((h - forkpoint c) * 120)) parent_data)
            = firstn 120 (skipn (Z.to_nat ((h - forkpoint pc) * 120)) pdata)).
  { intros h Hh. unfold parent_data. rewrite skipn_skipn.
    do 2 f_equal. unfold seek. lia. }
  intros h. unfold read_header. rewrite En, En'.
  destruct (Z.lt_ge_cases h 0) as [Hneg|Hnn].
  { rewrite !(read_header_from_negative net _ _ _ _ h) by eassumption.
    split; reflexivity. }
  assert (Hp0 : forall k k',
            read_header_from net (S k) w p h
            = read_header_from net (S k') w p h).
  { intros k k'. destruct (Z.lt_ge_cases h (forkpoint pc)).
    - rewrite !(read_header_from_below net _ w p pc h Hps Hpp) by lia.
      reflexivity.
    - rewrite !(read_header_from_own net _ w p pc _ pdata h Hps
                  (path_parentless pc Hpp) Hm) by lia.
      reflexivity. }
  assert (Hmain_p : forall k k',
            read_header_from net (S k) w' self h
            = if h <? forkpoint c
              then read_header_from net (S k') w p h
              else read_header_from net (S k') w self h).
  { intros k k'. destruct (Z.ltb_spec h (forkpoint c)) as [Hlt|Hge].
    - destruct (Z.lt_ge_cases h (forkpoint pc)).
      + rewrite (read_header_from_below net _ w' self c' h Hs' Hc'p) by lia.
        rewrite (read_header_from_below net _ w p pc h Hps Hpp) by lia.
        reflexivity.
      + rewrite (read_header_from_own net _ w' self c' _ main_file h Hs' Hc'n
                   Hmain) by lia.
        rewrite (read_header_from_own net _ w p pc _ pdata h Hps
                   (path_parentless pc Hpp) Hm) by lia.
        rewrite Hc'f, Hlow by lia.
        destruct (Z.ltb_spec (height c') h); destruct (Z.ltb_spec (height pc) h);
          try reflexivity; unfold height in *; lia.
    - rewrite (read_header_from_own net _ w' self c' _ main_file h Hs' Hc'n
                 Hmain) by lia.
      rewrite (read_header_from_own net _ w self c _ cdata h Hs Hn Hc) by lia.
      rewrite Hc'f, Hhigh, Hc'h by lia. reflexivity. }
  split.
  - rewrite (Hmain_p _ (S (S n))).
    destruct (Z.ltb_spec h (forkpoint c)) as [Hlt|Hge]; [|reflexivity].
    rewrite (read_header_from_parent net _ w self p c h Hs Hp) by lia.
    apply Hp0.
  - destruct (Z.lt_ge_cases h (forkpoint c)) as [Hlt|Hge].
    + rewrite (read_header_from_parent net _ w' p self pc' h Hp' Hpc'p) by lia.
      rewrite (Hmain_p _ (S (S n))).
      destruct (Z.ltb_spec h (forkpoint c)); [reflexivity|lia].
    + rewrite (read_header_from_own net _ w' p pc' _ parent_data h Hp' Hpn
                 Hfork) by lia.
      rewrite (read_header_from_own net _ w p pc _ pdata h Hps
                 (path_parentless pc Hpp) Hm) by lia.
      rewrite Hpc'f, Hpar, Hpc'h by lia. reflexivity.
Qed.

(** X22: a swap keeps what each chain contains.  When [_swap_with_parent]
    swaps a fork with its parentless parent (both files holding whole
    records, the sizes up to date), the fork becomes the parentless chain
    from the parent's forkpoint, the old parent becomes its fork at the old
    forkpoint, both keep their heights, the parent had a header at the
    forkpoint, and [read_header] returns on either instance, at every
    height, what it returned before the swap. *)
Theorem swap_keeps_headers (net : Net) (K : Kernels) (self p : nat)
    (c pc : Blockchain) (w : World) (cname : string)
    (cdata pdata : list byte) :
  heap w !! self = Some c -> parent c = Some p ->
  heap w !! p = Some pc -> parent pc = None ->
  path c = Ok cname ->
  files w !! cname = Some cdata ->
  files w !! "blockchain_headers"%string = Some pdata ->
  Z.of_nat (length cdata) = 120 * _size c ->
  Z.of_nat (length pdata) = 120 * _size pc ->
  fst (_swap_with_parent net K self w) = Ok true ->
  let w' := snd (_swap_with_parent net K self w) in
  forkpoint c <= height pc /\
  (exists c' pc',
     heap w' !! self = Some c' /\ heap w' !! p = Some pc' /\
     parent c' = None /\ parent pc' = Some self /\
     forkpoint c' = forkpoint pc /\ forkpoint pc' = forkpoint c /\
     height c' = height c /\ height pc' = height pc) /\
  forall height_,
    read_header net w' self height_ = read_header net w self height_ /\
    read_header net w' p height_ = read_header net w p height_.
Proof.
  intros Hs Hp Hps Hpp Hn Hc Hm Lc Lp Hok w'.
  pose proof (swap_outcome net K self p c pc w cname cdata pdata
                Hs Hp Hps Hpp Hn Hc Hm) as Hout.
  subst w'. destruct (_swap_with_parent net K self w) as [r w'].
  cbn [fst snd] in *. subst r.
  apply (swapped_reads net K self p c pc w w' cname cdata pdata);
    assumption.
Qed.

Lemma swap_keeps_headers_witness :
  let w' := snd (_swap_with_parent example_testnet example_kernels 1
                   example_fork_world) in
  forkpoint example_fork_chain <= height example_main_chain /\
  (exists c' pc',
     heap w' !! 1%nat = Some c' /\ heap w' !! 0%nat = Some pc' /\
     parent c' = None /\ parent pc' = Some 1%nat /\
     forkpoint c' = forkpoint example_main_chain /\
     forkpoint pc' = forkpoint example_fork_chain /\
     height c' = height example_fork_chain /\
     height pc' = height example_main_chain) /\
  forall height_,
    read_header example_testnet w' 1 height_
    = read_header example_testnet example_fork_world 1 height_ /\
    read_header example_testnet w' 0 height_
    = read_header example_testnet example_fork_world 0 height_.
Proof.
  apply (swap_keeps_headers example_testnet example_kernels 1 0
           example_fork_chain example_main_chain example_fork_world
           example_fork_name (repeat x01 240) (repeat x01 360)).
  - reflexivity.
  - reflexivity.
  - reflexivity.
  - reflexivity.
  - vm_compute. reflexivity.
  - vm_compute. reflexivity.
  - vm_compute. reflexivity.
  - vm_compute. reflexivity.
  - vm_compute. reflexivity.
  - vm_compute. reflexivity.
Defined.

(** ** What an accepted header satisfies *)

(** X23: what [verify_header] guarantees when it returns.  The header's
    'prev_block_hash' is [prev_hash].  Off testnet, for a header that is
    not AuxPOW at a height where proof of work is validated (up to the last
    checkpoint, and every tenth height after it): its 'bits' are the
    compact form of [target] unless the bits check is skipped, its hash is
    the expected one if one was given, and the hash read as a number does
    not exceed [target].  Off testnet, for an AuxPOW header, the hash is
    the expected one if one was given. *)
Theorem verify_header_sound (net : Net) (K : Kernels) (h : header)
    (prev_hash : string) (target : Z) (expected : option string)
    (skip_bits_check : bool) :
  verify_header net K h prev_hash target expected skip_bits_check = Ok tt ->
  prev_block_hash h = Some prev_hash /\
  (TESTNET net = false -> is_auxpow_header net h = false ->
   pow_is_validated net h = true ->
   (skip_bits_check = false ->
    exists tbits, target_to_bits target = Ok tbits /\ bits h = Some tbits) /\
   exists x b,
     hash_header net K (Some h) = Ok x /\
     (truthy expected = true -> expected = Some x) /\
     bfh x = Ok b /\ int_from_bytes_big b <= target) /\
  (TESTNET net = false -> is_auxpow_header net h = true ->
   truthy expected = true ->
   exists x, hash_header net K (Some h) = Ok x /\ expected = Some x).
Proof.
  unfold verify_header.
  destruct (bool_decide (Some prev_hash = prev_block_hash h)) eqn:Hl;
    [|discriminate].
  apply bool_decide_eq_true in Hl. cbn [negb]. intros H.
  split; [congruence|].
  fold (is_auxpow_header net h) in H. split.
  - intros Ht Ha Hv. rewrite Ht, Ha in H.
    unfold pow_is_validated in Hv.
    set (height_ := default 0 (block_height h)) in *.
    assert (Hval : (if max_checkpoint net <? height_
                    then height_ mod 10 =? 0 else true) = true).
    { destruct (Z.ltb_spec (max_checkpoint net) height_); [|reflexivity].
      destruct (Z.leb_spec height_ (max_checkpoint net)); [lia|].
      exact Hv. }
    rewrite Hval in H. cbn [negb] in H. split.
    + intros ->. cbn [negb] in H.
      destruct (target_to_bits target) as [tbits|]; [|discriminate H].
      cbn [mbind result_bind] in H.
      destruct (bool_decide (Some tbits = bits h)) eqn:Hb;
        [|discriminate H].
      apply bool_decide_eq_true in Hb. eauto.
    + destruct (if negb skip_bits_check then _ else _) as [[]|];
        [|discriminate H].
      cbn [mbind result_bind] in H.
      destruct (hash_header net K (Some h)) as [x|]; [|discriminate H].
      cbn [mbind result_bind] in H.
      destruct (truthy expected) eqn:Hexp; cbn [andb] in H.
      * destruct (bool_decide (expected = Some x)) eqn:Hx;
          [|discriminate H].
        apply bool_decide_eq_true in Hx. cbn [negb] in H.
        destruct (bfh x) as [b|] eqn:Hbx; [|discriminate H].
        cbn [mbind result_bind] in H.
        destruct (Z.ltb_spec target (int_from_bytes_big b));
          [discriminate H|].
        exists x, b. repeat split; auto.
      * destruct (bfh x) as [b|] eqn:Hbx; [|discriminate H].
        cbn [mbind result_bind] in H.
        destruct (Z.ltb_spec target (int_from_bytes_big b));
          [discriminate H|].
        exists x, b. repeat split; [discriminate|assumption|assumption].
  - intros Ht Ha Hexp. rewrite Ht, Ha, Hexp in H.
    destruct (hash_header net K (Some h)) as [x|]; [|discriminate H].
    cbn [mbind result_bind] in H.
    destruct (bool_decide (expected = Some x)) eqn:Hx; [|discriminate H].
    apply bool_decide_eq_true in Hx. eauto.
Qed.

Lemma verify_header_sound_witness :
  prev_block_hash example_legacy_header = Some (GENESIS example_mainnet) /\
  (TESTNET example_mainnet = false ->
   is_auxpow_header example_mainnet example_legacy_header = false ->
   pow_is_validated example_mainnet example_legacy_header = true ->
   (true = false ->
    exists tbits,
      target_to_bits (2 ^ 256 - 1) = Ok tbits /\
      bits example_legacy_header = Some tbits) /\
   exists x b,
     hash_header example_mainnet example_kernels (Some example_legacy_header)
     = Ok x /\
     (truthy None = true -> None = Some x) /\
     bfh x = Ok b /\ int_from_bytes_big b <= 2 ^ 256 - 1) /\
  (TESTNET example_mainnet = false ->
   is_auxpow_header example_mainnet example_legacy_header = true ->
   truthy None = true ->
   exists x,
     hash_header example_mainnet example_kernels (Some example_legacy_header)
     = Ok x /\ None = Some x).
Proof.
  apply (verify_header_sound example_mainnet example_kernels
           example_legacy_header (GENESIS example_mainnet) (2 ^ 256 - 1) None
           true).
  vm_compute. reflexivity.
Defined.

(** ** The last block two chains share *)

Lemma dict_get_In (k : nat) (v : Z) (d : list (nat * Z)) :
  keys_unique d -> (dict_get k d = Some v <-> In (k, v) d).
Proof.
  unfold keys_unique, dict_get. induction d as [|[k' v'] d IH]; intros Hnd.
  - cbn. split; [discriminate|contradiction].
  - cbn [fmap list_fmap fst] in Hnd. apply NoDup_cons in Hnd.
    destruct Hnd as [Hnin Hnd]. cbn [List.find fst].
    destruct (Nat.eqb_spec k' k) as [->|Hne].
    + cbn. split.
      * intros [= ->]. left. reflexivity.
      * intros [[= ->]|Hin]; [reflexivity|].
        exfalso. apply Hnin. apply list_elem_of_In.
        change k with (fst (k, v)). apply in_map. exact Hin.
    + rewrite (IH Hnd). split.
      * intros Hin. right. exact Hin.
      * intros [[= -> ->]|Hin]; [contradiction|exact Hin].
Qed.

Lemma dict_get_elem (k : nat) (v : Z) (d : list (nat * Z)) :
  dict_get k d = Some v -> In (k, v) d.
Proof.
  unfold dict_get. intros H.
  destruct (List.find _ d) as [[k' v']|] eqn:E; [|discriminate H].
  injection H as ->. apply find_some in E. destruct E as [Hin Hk].
  apply Nat.eqb_eq in Hk. cbn [fst] in Hk. subst k'. exact Hin.
Qed.

Lemma dict_set_keys (k : nat) (v : Z) (d : list (nat * Z)) :
  keys_unique d -> keys_unique (dict_set k v d).
Proof.
  unfold keys_unique, dict_set. intros Hnd.
  destruct (existsb _ d) eqn:E.
  - replace (fst <$> map _ d) with (fst <$> d); [exact Hnd|].
    clear. induction d as [|[k' v'] d IH]; [reflexivity|].
    cbn [map fmap list_fmap fst]. f_equal; [|exact IH].
    destruct (Nat.eqb_spec k' k); cbn [fst]; congruence.
  - rewrite fmap_app. cbn [fmap list_fmap fst].
    apply NoDup_app. split; [exact Hnd|]. split; [|apply NoDup_singleton].
    intros x Hx Hx'. apply list_elem_of_singleton in Hx'. subst x.
    apply list_elem_of_fmap in Hx. destruct Hx as ([k' v'] & Hk & Hin).
    cbn [fst] in Hk. subst k'.
    assert (existsb (fun kv => (fst kv =? k)%nat) d = true); [|congruence].
    apply existsb_exists. exists (k, v'). split.
    + apply list_elem_of_In. exact Hin.
    + cbn [fst]. apply Nat.eqb_refl.
Qed.

Lemma parent_heights_loop_keys (w : World) (fuel : nat) :
  forall chain d r,
    keys_unique d ->
    parent_heights_loop fuel w chain d = Some (Ok r) -> keys_unique r.
Proof.
  induction fuel as [|fuel IH]; intros chain d r Hd; cbn [parent_heights_loop];
    [discriminate|].
  destruct (deref w chain) as [c|]; [|discriminate].
  destruct (parent c) as [p|].
  - apply IH. apply dict_set_keys. exact Hd.
  - intros [= <-]. exact Hd.
Qed.

Lemma get_parent_heights_keys (w : World) (self : nat) (r : list (nat * Z)) :
  get_parent_heights w self = Some (Ok r) -> keys_unique r.
Proof.
  unfold get_parent_heights. destruct (deref w self) as [c|]; [|discriminate].
  apply parent_heights_loop_keys. unfold keys_unique.
  cbn [fmap list_fmap fst]. apply NoDup_singleton.
Qed.

Lemma common_block_fold (theirs : list (nat * Z)) (ours : list (nat * Z)) :
  forall acc,
    let v := fold_left
               (fun last kv =>
                  match dict_get (fst kv) theirs with
                  | Some t => Z.max last (Z.min (snd kv) t)
                  | None => last
                  end) ours acc in
    acc <= v /\
    (forall k x y, In (k, x) ours -> dict_get k theirs = Some y ->
       Z.min x y <= v) /\
    (v = acc \/
     exists k x y, In (k, x) ours /\ dict_get k theirs = Some y /\
       v = Z.min x y).
Proof.
  induction ours as [|[k0 x0] ours IH]; intros acc; cbn [fold_left fst snd].
  - cbv zeta. split; [lia|]. split; [intros k x y []|]. left. reflexivity.
  - cbv zeta.
    destruct (dict_get k0 theirs) as [t|] eqn:Et.
    + specialize (IH (Z.max acc (Z.min x0 t))). cbv zeta in IH.
      destruct IH as (Hle & Hall & Hex).
      split; [lia|]. split.
      * intros k x y [[= -> ->]|Hin] Hy.
        -- rewrite Et in Hy. injection Hy as ->. lia.
        -- apply (Hall k x y Hin Hy).
      * destruct Hex as [Hex|(k & x & y & Hin & Hy & Hv)].
        -- destruct (Z.max_spec acc (Z.min x0 t)) as [[_ E]|[_ E]].
           ++ right. exists k0, x0, t. split; [left; reflexivity|].
              split; [exact Et|]. congruence.
           ++ left. congruence.
        -- right. exists k, x, y. split; [right; exact Hin|]. auto.
    + specialize (IH acc). cbv zeta in IH.
      destruct IH as (Hle & Hall & Hex).
      split; [exact Hle|]. split.
      * intros k x y [[= -> ->]|Hin] Hy.
        -- rewrite Et in Hy. discriminate Hy.
        -- apply (Hall k x y Hin Hy).
      * destruct Hex as [Hex|(k & x & y & Hin & Hy & Hv)]; [left; exact Hex|].
        right. exists k, x, y. split; [right; exact Hin|]. auto.
Qed.

Lemma common_block_loop_le (ours theirs : list (nat * Z)) :
  keys_unique ours ->
  common_block_loop ours theirs <= common_block_loop theirs ours.
Proof.
  intros Hu. unfold common_block_loop.
  destruct (common_block_fold theirs ours 0) as (_ & _ & Hex).
  destruct (common_block_fold ours theirs 0) as (H0 & Hall & _).
  cbv zeta in *.
  destruct Hex as [->|(k & x & y & Hin & Hy & ->)]; [exact H0|].
  rewrite Z.min_comm.
  apply (Hall k y x).
  - apply dict_get_elem. exact Hy.
  - apply dict_get_In; assumption.
Qed.

(** X24: the height of the last common block does not depend on which of
    the two chains is asked.  When the parent walks of both chains end,
    [get_height_of_last_common_block_with_chain] returns the same height in
    both directions; it is never negative, it is at least the smaller of
    the two recorded heights for every chain both walks met, and it is 0 or
    that smaller height for one of them. *)
Theorem last_common_block_symmetric (w : World) (a b : nat)
    (ours theirs : list (nat * Z)) :
  get_parent_heights w a = Some (Ok ours) ->
  get_parent_heights w b = Some (Ok theirs) ->
  exists v,
    get_height_of_last_common_block_with_chain w a b = Some (Ok v) /\
    get_height_of_last_common_block_with_chain w b a = Some (Ok v) /\
    0 <= v /\
    (forall k x y, dict_get k ours = Some x -> dict_get k theirs = Some y ->
       Z.min x y <= v) /\
    (v = 0 \/
     exists k x y, dict_get k ours = Some x /\ dict_get k theirs = Some y /\
       v = Z.min x y).
Proof.
  intros Ha Hb.
  pose proof (get_parent_heights_keys w a ours Ha) as Ua.
  pose proof (get_parent_heights_keys w b theirs Hb) as Ub.
  exists (common_block_loop ours theirs).
  unfold get_height_of_last_common_block_with_chain. rewrite Ha, Hb.
  split; [reflexivity|]. split.
  { do 2 f_equal. apply Z.le_antisymm; apply common_block_loop_le; assumption. }
  destruct (common_block_fold theirs ours 0) as (H0 & Hall & Hex).
  cbv zeta in *. fold (common_block_loop ours theirs) in *.
  split; [exact H0|]. split.
  - intros k x y Hx Hy. apply (Hall k x y); [|exact Hy].
    apply dict_get_elem. exact Hx.
  - destruct Hex as [Hex|(k & x & y & Hin & Hy & Hv)]; [left; exact Hex|].
    right. exists k, x, y. split; [|auto].
    apply dict_get_In; assumption.
Qed.

Lemma last_common_block_symmetric_witness :
  exists v,
    get_height_of_last_common_block_with_chain example_fork_world 1 0
    = Some (Ok v) /\
    get_height_of_last_common_block_with_chain example_fork_world 0 1
    = Some (Ok v) /\
    0 <= v /\
    (forall k x y, dict_get k [(1%nat, 3); (0%nat, 1)] = Some x ->
       dict_get k [(0%nat, 2)] = Some y -> Z.min x y <= v) /\
    (v = 0 \/
     exists k x y, dict_get k [(1%nat, 3); (0%nat, 1)] = Some x /\
       dict_get k [(0%nat, 2)] = Some y /\ v = Z.min x y).
Proof.
  apply (last_common_block_symmetric example_fork_world 1 0).
  - vm_compute. reflexivity.
  - vm_compute. reflexivity.
Defined.

(** ** Chainwork and its cache *)

Lemma read_header_from_store (net : Net) (w1 w2 : World) (fuel : nat) :
  same_store w1 w2 ->
  forall self height_,
    read_header_from net fuel w1 self height_
    = read_header_from net fuel w2 self height_.
Proof.
  intros (Hh & Hf & _).
  induction fuel as [|fuel IH]; intros self height_; [reflexivity|].
  cbn [read_header_from]. unfold deref, open_file. rewrite Hh, Hf.
  destruct (heap w2 !! self) as [c|]; [|reflexivity].
  cbn [mbind result_bind].
  destruct (parent c) as [p|]; [rewrite IH|]; reflexivity.
Qed.

Lemma read_header_store (net : Net) (w1 w2 : World) (self : nat)
    (height_ : Z) :
  same_store w1 w2 ->
  read_header net w1 self height_ = read_header net w2 self height_.
Proof.
  intros Hs. unfold read_header. rewrite (proj1 Hs).
  apply read_header_from_store. exact Hs.
Qed.




















Lemma swap_result_frame (net : Net) (K : Kernels) (self p : nat)
    (c pc : Blockchain) (cdata pdata : list byte) (w1 w2 : World) :
  heap w2 !! self = heap w1 !! self -> heap w2 !! p = heap w1 !! p ->
  files w2 = files w1 ->
  swap_result net K self p c pc cdata pdata w1 ->
  swap_result net K self p c pc cdata pdata w2.
Proof.
  unfold swap_result. intros Hs Hp Hf. rewrite Hs, Hp, Hf. auto.
Qed.

Lemma reparent_siblings_frame (net : Net) (K : Kernels) (self p : nat)
    (siblings : list nat) :
  forall w,
    Forall (fun s => s <> self /\ s <> p) siblings ->
    match reparent_siblings net K self siblings w with
    | (_, w') =>
        heap w' !! self = heap w !! self /\ heap w' !! p = heap w !! p /\
        files w' = files w
    end.
Proof.
  induction siblings as [|s rest IH]; intros w Hall; cbn [reparent_siblings].
  - repeat split.
  - apply Forall_cons in Hall. destruct Hall as [[Hs Hp] Hall].
    unfold mbind at 1, io_bind at 1, io_read at 1.
    destruct (deref w s) as [sc|]; [|repeat split].
    unfold mbind at 1, io_bind at 1, io_read at 1.
    destruct (check_hash net K w self (forkpoint sc - 1) (_prev_hash sc))
      as [b|]; [|repeat split].
    unfold mbind at 1, io_bind at 1.
    destruct b.
    + unfold assign at 1, io_modify at 1.
      specialize (IH (set_heap (alter (set_parent (Some self)) s (heap w)) w)
                    Hall).
      destruct (reparent_siblings net K self rest _) as [r w'].
      cbn [heap files set_heap] in IH.
      rewrite !lookup_alter_ne in IH by congruence. exact IH.
    + unfold io_pass at 1. apply IH. exact Hall.
Qed.

Lemma get_direct_children_parent (w : World) (x y : nat) :
  In y (get_direct_children w x) ->
  exists cy, heap w !! y = Some cy /\ parent cy = Some x.
Proof.
  unfold get_direct_children. intros H. apply filter_In in H.
  destruct H as [_ H].
  destruct (heap w !! y) as [cy|]; [|discriminate H].
  apply bool_decide_eq_true in H. eauto.
Qed.

Lemma swap_declined_no_parent (net : Net) (K : Kernels) (self : nat)
    (c : Blockchain) (w : World) :
  heap w !! self = Some c -> parent c = None ->
  _swap_with_parent net K self w = (Ok false, w).
Proof.
  intros Hs Hp.
  unfold _swap_with_parent, io_read, mbind, io_bind, deref, mret, io_ret.
  rewrite Hs, Hp. reflexivity.
Qed.

Lemma swap_with_parent_outcome (net : Net) (K : Kernels)
    (self p : nat) (c pc : Blockchain) (w : World) (cname : string)
    (cdata pdata : list byte) :
  heap w !! self = Some c -> parent c = Some p ->
  heap w !! p = Some pc -> parent pc = None ->
  path c = Ok cname ->
  files w !! cname = Some cdata ->
  files w !! "blockchain_headers"%string = Some pdata ->
  Z.of_nat (length cdata) = 120 * _size c ->
  Z.of_nat (length pdata) = 120 * _size pc ->
  match swap_with_parent net K self w with
  | (Ok _, w') =>
      same_store w' w \/ swap_result net K self p c pc cdata pdata w'
  | (Raise _, _) => True
  end.
Proof.
  intros Hs Hp Hps Hpp Hn Hc Hm Lc Lp.
  assert (Hne : self <> p).
  { intros ->. rewrite Hs in Hps. injection Hps as ->. congruence. }
  destruct (map_size_two (heap w) self p c pc Hs Hps Hne) as [n En].
  unfold swap_with_parent. rewrite En.
  cbn [swap_with_parent_loop].
  unfold mbind at 1, io_bind at 1, io_read at 1, deref.
  rewrite Hs, Hp.
  unfold mbind at 1, io_bind at 1.
  pose proof (swap_outcome net K self p c pc w cname cdata pdata
                Hs Hp Hps Hpp Hn Hc Hm) as Hout.
  destruct (_swap_with_parent net K self w) as [[[|]|e] w1];
    [| |exact I].
  2: { left. exact Hout. }
  cbn [negb].
  unfold mbind at 1, io_bind at 1, io_read at 1.
  destruct (_ <? 0 + 1); [exact I|].
  unfold mbind at 1, io_bind at 1, io_read at 1.
  unfold mbind at 1, io_bind at 1.
  set (siblings := get_direct_children w1 p).
  pose proof (swapped_reads net K self p c pc w w1 cname cdata pdata
                Hs Hp Hps Hpp Hn Hc Hm Lc Lp Hout)
    as (_ & (c1 & pc1 & Hs1 & Hp1 & Hc1p & Hpc1p & _) & _).
  assert (Hsib : Forall (fun s => s <> self /\ s <> p) siblings).
  { apply Forall_forall. intros s Hin. apply list_elem_of_In in Hin.
    apply get_direct_children_parent in Hin.
    destruct Hin as (cy & Hcy & Hpar).
    split; intros ->; rewrite Hcy in *; congruence. }
  pose proof (reparent_siblings_frame net K self p siblings w1 Hsib)
    as Hframe.
  destruct (reparent_siblings net K self siblings w1) as [[[]|e] w2];
    [|exact I].
  destruct Hframe as (Fs & Fp & Ff).
  unfold mbind at 1, io_bind at 1, io_read at 1, deref.
  rewrite Fs, Hs1.
  unfold mbind at 1, io_bind at 1.
  rewrite (swap_declined_no_parent net K self c1 w2)
    by (rewrite ?Fs; assumption).
  cbn [negb io_pass]. right.
  apply (swap_result_frame net K self p c pc cdata pdata w1 w2 Fs Fp Ff).
  exact Hout.
Qed.

(** X26: [swap_with_parent] keeps what a fork and its parent contain.
    For a fork of a parentless chain (both files holding whole records,
    the sizes up to date), whenever [swap_with_parent] returns, whether it
    swapped the two or left them, [read_header] returns on either
    instance, at every height, what it returned before; re-parenting the
    fork's former siblings does not touch the two. *)
Theorem swap_with_parent_keeps_headers (net : Net) (K : Kernels)
    (self p : nat) (c pc : Blockchain) (w : World) (cname : string)
    (cdata pdata : list byte) :
  heap w !! self = Some c -> parent c = Some p ->
  heap w !! p = Some pc -> parent pc = None ->
  path c = Ok cname ->
  files w !! cname = Some cdata ->
  files w !! "blockchain_headers"%string = Some pdata ->
  Z.of_nat (length cdata) = 120 * _size c ->
  Z.of_nat (length pdata) = 120 * _size pc ->
  fst (swap_with_parent net K self w) = Ok tt ->
  let w' := snd (swap_with_parent net K self w) in
  forall height_,
    read_header net w' self height_ = read_header net w self height_ /\
    read_header net w' p height_ = read_header net w p height_.
Proof.
  intros Hs Hp Hps Hpp Hn Hc Hm Lc Lp Hok w'. subst w'.
  pose proof (swap_with_parent_outcome net K self p c pc w cname cdata pdata
                Hs Hp Hps Hpp Hn Hc Hm Lc Lp) as Hout.
  destruct (swap_with_parent net K self w) as [[[]|e] w'];
    [|discriminate Hok].
  cbn [snd]. destruct Hout as [Hsame|Hswap].
  - intros h. split; apply read_header_store; exact Hsame.
  - apply (swapped_reads net K self p c pc w w' cname cdata pdata
             Hs Hp Hps Hpp Hn Hc Hm Lc Lp Hswap).
Qed.

Lemma swap_with_parent_keeps_headers_witness :
  let w' := snd (swap_with_parent example_testnet example_kernels 1
                   example_fork_world) in
  read_header example_testnet w' 1 3
  = read_header example_testnet example_fork_world 1 3 /\
  read_header example_testnet w' 0 3
  = read_header example_testnet example_fork_world 0 3.
Proof.
  apply (swap_with_parent_keeps_headers example_testnet example_kernels 1 0
           example_fork_chain example_main_chain example_fork_world
           example_fork_name (repeat x01 240) (repeat x01 360)).
  - reflexivity.
  - reflexivity.
  - reflexivity.
  - reflexivity.
  - vm_compute. reflexivity.
  - vm_compute. reflexivity.
  - vm_compute. reflexivity.
  - vm_compute. reflexivity.
  - vm_compute. reflexivity.
  - vm_compute. reflexivity.
Defined.
